(** * senpai: the IRC session engine (irc/session.go)

    A shallow embedding of the session state machine of senpai and the
    properties of its specification.  Go values are embedded as follows:

    - a Go [string] is a byte sequence: a Rocq [string], one [ascii] per byte;
    - Go [int] is [Z]; the subtractions of [PrivMsg], which start from a
      length that the server chooses, are written with their 64-bit
      wrap-around, and [strconv.Atoi] with its range check (no other
      operation of the modelled code can leave the 64 bits);
    - Go maps are [gmap], Go sets ([map[K]struct{}]) are [gset];
    - [*User] pointers are locations into an explicit store of user records;
    - a run-time panic (index or slice out of range, send on a closed
      channel) is the outcome [Panic];
    - reading the clock ([time.Now]) is an explicit [now] argument, in
      nanoseconds. *)

From Stdlib Require Import ZArith Ascii String List Lia Bool Sorted.
From stdpp Require Import base option gmap strings list fin_maps.

Open Scope string_scope.
Open Scope Z_scope.

(** ** Outcomes: normal return or run-time panic *)

Inductive Outcome (A : Type) : Type :=
| Done (a : A)
| Panic.
Arguments Done {A} a.
Arguments Panic {A}.

Definition obind {A B} (m : Outcome A) (k : A -> Outcome B) : Outcome B :=
  match m with
  | Done a => k a
  | Panic => Panic
  end.

Notation "'do' x <- m ; k" := (obind m (fun x => k))
  (at level 10, x pattern, m at level 100, k at level 200).

(** ** Go strings *)

Infix "==" := String.eqb (at level 70, no associativity).

Module GoString.

Definition len (s : string) : Z := Z.of_nat (String.length s).

Definition byte (c : ascii) : Z := Z.of_N (N_of_ascii c).

Definition of_byte (b : Z) : ascii := ascii_of_N (Z.to_N b).

Definition bytes (s : string) : list Z := map byte (list_ascii_of_string s).

Definition of_bytes (bs : list Z) : string :=
  string_of_list_ascii (map of_byte bs).

(** [s[i]]: panics when [i] is out of range. *)
Definition index (s : string) (i : Z) : Outcome Z :=
  if (0 <=? i) && (i <? len s) then
    match String.get (Z.to_nat i) s with
    | Some c => Done (byte c)
    | None => Panic
    end
  else Panic.

(** [s[lo:hi]]: panics unless [0 <= lo <= hi <= len(s)]. *)
Definition slice (s : string) (lo hi : Z) : Outcome string :=
  if (0 <=? lo) && (lo <=? hi) && (hi <=? len s) then
    Done (String.substring (Z.to_nat lo) (Z.to_nat (hi - lo)) s)
  else Panic.

(** [s[lo:]] *)
Definition slice_from (s : string) (lo : Z) : Outcome string :=
  slice s lo (len s).

(** [s[:hi]] *)
Definition slice_to (s : string) (hi : Z) : Outcome string :=
  slice s 0 hi.

(** [strings.HasPrefix(s, p)] *)
Definition HasPrefix (s p : string) : bool := String.prefix p s.

(** [strings.TrimPrefix(s, p)] *)
Definition TrimPrefix (s p : string) : string :=
  if String.prefix p s
  then String.substring (String.length p) (String.length s - String.length p) s
  else s.

(** The first occurrence of the byte [sep] cuts [s] in two. *)
Fixpoint cut (sep : ascii) (s : string) : option (string * string) :=
  match s with
  | EmptyString => None
  | String c s' =>
      if Ascii.eqb c sep then Some (EmptyString, s')
      else match cut sep s' with
           | Some (a, b) => Some (String c a, b)
           | None => None
           end
  end.

(** [strings.SplitN(s, sep, n)] for a one-byte separator and [n > 0]
    given as [S k]: at most [S k] pieces, the last one the unsplit rest.
    The recursion is on the number of cuts still allowed. *)
Fixpoint SplitN (sep : ascii) (k : nat) (s : string) : list string :=
  match k with
  | O => [s]
  | S k' =>
      match cut sep s with
      | Some (a, b) => a :: SplitN sep k' b
      | None => [s]
      end
  end.

(** [strings.Split(s, sep)] for a one-byte separator: no piece holds more
    cuts than [s] has bytes. *)
Definition Split (sep : ascii) (s : string) : list string :=
  SplitN sep (String.length s) s.

(** [strings.Join(l, sep)] *)
Definition Join (l : list string) (sep : string) : string :=
  String.concat sep l.

(** [strings.IndexByte(s, c)], [-1] when absent. *)
Fixpoint IndexByte_from (s : string) (c : ascii) (i : Z) : Z :=
  match s with
  | EmptyString => -1
  | String d s' => if Ascii.eqb d c then i else IndexByte_from s' c (i + 1)
  end.

Definition IndexByte (s : string) (c : ascii) : Z := IndexByte_from s c 0.

End GoString.


(** ** unicode/utf8, strings.ToUpper, strconv.Atoi

    The parts of the Go library that [splitChunks] and [updateFeatures]
    call, on bytes as [Z]. *)

Module utf8.

Definition UTFMax : Z := 4.
Definition RuneSelf : Z := 128.
Definition RuneError : Z := 65533.
Definition MaxRune : Z := 1114111.

(** [utf8.RuneStart(b)]: [b&0xC0 != 0x80]. *)
Definition RuneStart (b : Z) : bool := negb (Z.land b 192 =? 128).

Definition cont (b : Z) : bool := (128 <=? b) && (b <=? 191).

(** [utf8.DecodeRuneInString]: the rune at the head of the byte sequence
    and its width; [(RuneError, 1)] on an invalid or short encoding,
    [(RuneError, 0)] on the empty sequence.  The case analysis is that of
    the [first] and [acceptRanges] tables. *)
Definition DecodeRune (bs : list Z) : Z * Z :=
  match bs with
  | [] => (RuneError, 0)
  | b0 :: r1 =>
      if b0 <? 128 then (b0, 1)
      else if b0 <? 194 then (RuneError, 1)
      else if b0 <? 224 then
        match r1 with
        | b1 :: _ =>
            if cont b1 then (Z.lor (Z.shiftl (Z.land b0 31) 6) (Z.land b1 63), 2)
            else (RuneError, 1)
        | _ => (RuneError, 1)
        end
      else if b0 <? 240 then
        match r1 with
        | b1 :: b2 :: _ =>
            let lo := if b0 =? 224 then 160 else 128 in
            let hi := if b0 =? 237 then 159 else 191 in
            if (lo <=? b1) && (b1 <=? hi) && cont b2 then
              (Z.lor (Z.lor (Z.shiftl (Z.land b0 15) 12)
                            (Z.shiftl (Z.land b1 63) 6))
                     (Z.land b2 63), 3)
            else (RuneError, 1)
        | _ => (RuneError, 1)
        end
      else if b0 <? 245 then
        match r1 with
        | b1 :: b2 :: b3 :: _ =>
            let lo := if b0 =? 240 then 144 else 128 in
            let hi := if b0 =? 244 then 143 else 191 in
            if (lo <=? b1) && (b1 <=? hi) && cont b2 && cont b3 then
              (Z.lor (Z.lor (Z.lor (Z.shiftl (Z.land b0 7) 18)
                                   (Z.shiftl (Z.land b1 63) 12))
                            (Z.shiftl (Z.land b2 63) 6))
                     (Z.land b3 63), 4)
            else (RuneError, 1)
        | _ => (RuneError, 1)
        end
      else (RuneError, 1)
  end.

(** [utf8.EncodeRune]: surrogates and out-of-range runes are written as
    [RuneError]. *)
Definition EncodeRune (r : Z) : list Z :=
  if (0 <=? r) && (r <? 128) then [r]
  else if (0 <=? r) && (r <? 2048) then
    [Z.lor 192 (Z.shiftr r 6); Z.lor 128 (Z.land r 63)]
  else if (r <? 0) || (MaxRune <? r) || ((55296 <=? r) && (r <=? 57343)) then
    [239; 191; 189]
  else if r <? 65536 then
    [Z.lor 224 (Z.shiftr r 12); Z.lor 128 (Z.land (Z.shiftr r 6) 63);
     Z.lor 128 (Z.land r 63)]
  else
    [Z.lor 240 (Z.shiftr r 18); Z.lor 128 (Z.land (Z.shiftr r 12) 63);
     Z.lor 128 (Z.land (Z.shiftr r 6) 63); Z.lor 128 (Z.land r 63)].

(** The runes of a byte sequence with their widths, as [for range]
    over a string yields them.  Every step consumes at least one byte,
    so [length bs] steps are enough. *)
Fixpoint runes_fuel (fuel : nat) (bs : list Z) : list (Z * Z) :=
  match fuel with
  | O => []
  | S fuel' =>
      match bs with
      | [] => []
      | _ :: _ =>
          let '(r, w) := DecodeRune bs in
          (r, w) :: runes_fuel fuel' (drop (Z.to_nat w) bs)
      end
  end.

Definition runes (bs : list Z) : list (Z * Z) := runes_fuel (length bs) bs.

(** [utf8.ValidString]: no decoding step falls back on an invalid
    byte, that is no step yields a width-1 [RuneError]. *)
Definition Valid (bs : list Z) : bool :=
  forallb (fun rw => negb ((fst rw =? RuneError) && (snd rw =? 1))) (runes bs).

Definition ValidString (s : string) : bool := Valid (GoString.bytes s).

End utf8.

Module unicode.

Definition MaxASCII : Z := 127.

(** [unicode.ToUpper] on the runes whose upper case is an ASCII letter:
    the ASCII lower-case letters, U+0131 (dotless i) and U+017F (long s).
    Every other rune is mapped by the Unicode tables to a rune outside
    ASCII; the tables are not reproduced and such a rune is kept, which
    no comparison of the result with an ASCII word can tell apart. *)
Definition ToUpper (r : Z) : Z :=
  if (97 <=? r) && (r <=? 122) then r - 32
  else if r =? 305 then 73
  else if r =? 383 then 83
  else r.

End unicode.

Module strings.

(** [strings.ToUpper]: the ASCII fast path maps bytes; otherwise
    [strings.Map(unicode.ToUpper, s)] re-encodes rune by rune, an invalid
    byte becoming the encoding of [RuneError]. *)
Definition ToUpper (s : string) : string :=
  let bs := GoString.bytes s in
  if forallb (fun b => b <? utf8.RuneSelf) bs then
    GoString.of_bytes (map unicode.ToUpper bs)
  else
    GoString.of_bytes
      (flat_map (fun rw => utf8.EncodeRune (unicode.ToUpper (fst rw)))
                (utf8.runes bs)).

End strings.

Module strconv.

Definition digit (b : Z) : option Z :=
  if (48 <=? b) && (b <=? 57) then Some (b - 48) else None.

Inductive NumResult : Type :=
| NumOk (v : Z)
| ErrSyntax
| ErrRange.

(** The digit loop of [strconv.ParseUint(s, 10, 64)]: it stops at the
    first byte that is not a digit or at the first overflow of [uint64],
    whichever comes first. *)
Fixpoint ParseUint_loop (n : Z) (bs : list Z) : NumResult :=
  match bs with
  | [] => NumOk n
  | b :: bs' =>
      match digit b with
      | Some d =>
          if 2 ^ 64 - 1 <? n * 10 + d then ErrRange
          else ParseUint_loop (n * 10 + d) bs'
      | None => ErrSyntax
      end
  end.

Definition ParseUint (bs : list Z) : NumResult :=
  match bs with
  | [] => ErrSyntax
  | _ => ParseUint_loop 0 bs
  end.

(** [strconv.ParseInt(s, 10, 64)]: the value returned and whether the error
    is nil.  A syntax error returns 0, a range error the nearest bound. *)
Definition ParseInt (s : string) : Z * bool :=
  let bs := GoString.bytes s in
  let '(neg, ds) :=
    match bs with
    | 45 :: bs' => (true, bs')
    | 43 :: bs' => (false, bs')
    | _ => (false, bs)
    end in
  match ParseUint ds with
  | ErrSyntax => (0, false)
  | ErrRange => (if neg then - 2 ^ 63 else 2 ^ 63 - 1, false)
  | NumOk un =>
      if negb neg && (2 ^ 63 <=? un) then (2 ^ 63 - 1, false)
      else if neg && (2 ^ 63 <? un) then (- 2 ^ 63, false)
      else (if neg then - un else un, true)
  end.

(** [strconv.Atoi] where [int] has 64 bits; [None] is a non-nil error.
    Its fast path for short inputs accepts the same strings with the same
    values as [ParseInt]. *)
Definition Atoi (s : string) : option Z :=
  let '(v, ok) := ParseInt s in
  if ok then Some v else None.

(** The decimal digits of a non-negative number, most significant first;
    an [int64] has at most 19 of them. *)
Fixpoint utoa (fuel : nat) (n : Z) (acc : string) : string :=
  match fuel with
  | O => acc
  | S fuel' =>
      let acc' := String (GoString.of_byte (48 + n mod 10)) acc in
      if n <? 10 then acc' else utoa fuel' (n / 10) acc'
  end.

(** [strconv.Itoa] *)
Definition Itoa (n : Z) : string :=
  if n <? 0 then String "-" (utoa 20 (- n) EmptyString)
  else utoa 20 n EmptyString.

End strconv.

(** ** The message model

    Messages reach the session already parsed (tokens.go is the wire
    framing, an external collaborator). *)

Definition Time : Type := Z.

Definition Second : Z := 1000000000.

Record Prefix : Type := {
  Prefix_Name : string;
  Prefix_User : string;
  Prefix_Host : string;
}.

Record Message : Type := {
  Tags : gmap string string;
  Prefix_of : option Prefix;   (* [msg.Prefix], [None] when nil *)
  Command : string;
  Params : list string;
}.

Inductive error : Type :=
| errNotEnoughParams (command : string) (expected : nat)
| errMissingPrefix
| errEmptyBatchID                  (* [fmt.Errorf("empty batch id")] *)
| errChannelMode (text : string).  (* an error of [ParseChannelMode] *)

(** Modelled from the spec: [Message.ParseParams] (tokens.go is not among
    the sources).  It "fails when fewer parameters are present than
    required" and otherwise stores the parameters, in order, in the
    outputs that are not nil.  [ParseParams msg n] is the error of a call
    with [n] outputs and [param msg i] the value its [i]-th output
    receives. *)
Definition ParseParams (msg : Message) (n : nat) : option error :=
  if (length (Params msg) <? n)%nat
  then Some (errNotEnoughParams (Command msg) n)
  else None.

Definition param (msg : Message) (i : nat) : string :=
  nth i (Params msg) EmptyString.

(** [msg.Params[i]], which panics out of range. *)
Definition Params_index (msg : Message) (i : nat) : Outcome string :=
  match Params msg !! i with
  | Some p => Done p
  | None => Panic
  end.

(** [msg.Params[i:]], which panics when [i > len(msg.Params)]. *)
Definition Params_from (msg : Message) (i : nat) : Outcome (list string) :=
  if (i <=? length (Params msg))%nat then Done (drop i (Params msg)) else Panic.

(** [NewMessage(command, params...)] and [WithTag]. *)
Definition NewMessage (command : string) (params : list string) : Message :=
  {| Tags := ∅; Prefix_of := None; Command := command; Params := params |}.

Definition WithTag (key value : string) (msg : Message) : Message :=
  {| Tags := <[key := value]> (Tags msg); Prefix_of := Prefix_of msg;
     Command := Command msg; Params := Params msg |}.

(** Modelled from the spec: the numeric reply codes (rpl.go is not among the
    sources).  The spec names the replies (RPL_ENDOFNAMES, RPL_MONONLINE,
    RPL_MONOFFLINE, ...); the values are the ones the IRC protocol assigns
    to these names. *)
Definition rplWelcome : string := "001".
Definition rplIsupport : string := "005".
Definition rplEndofwho : string := "315".
Definition rplNotopic : string := "331".
Definition rplTopic : string := "332".
Definition rplTopicwhotime : string := "333".
Definition rplInviting : string := "341".
Definition rplWhoreply : string := "352".
Definition rplNamreply : string := "353".
Definition rplEndofnames : string := "366".
Definition errUnknowncommand : string := "421".
Definition errNicknameinuse : string := "433".
Definition rplMononline : string := "730".
Definition rplMonoffline : string := "731".
Definition errMonlistisfull : string := "734".
Definition rplLoggedin : string := "900".
Definition errNicklocked : string := "902".
Definition rplSaslsuccess : string := "903".
Definition errSaslfail : string := "904".
Definition errSasltoolong : string := "905".
Definition errSaslaborted : string := "906".
Definition errSaslalready : string := "907".
Definition rplSaslmechs : string := "908".

(** ** Users, channels, events *)

(** A [*User]: an index into the store of user records of the session. *)
Definition ptr : Type := nat.

Record User : Type := {
  User_Name : Prefix;        (* the [*Prefix] is owned by this record alone *)
  User_Away : bool;
  User_Disconnected : bool;
}.

Record Channel : Type := {
  Channel_Name : string;
  Members : gmap ptr string;
  Topic : string;
  TopicWho : option Prefix;
  TopicTime : Time;
  complete : bool;
}.

Inductive Severity : Type := SeverityNote | SeverityWarn | SeverityFail.

Record MessageEvent : Type := {
  MessageEvent_User : string;
  MessageEvent_Target : string;
  MessageEvent_TargetIsChannel : bool;
  MessageEvent_Command : string;
  MessageEvent_Content : string;
  MessageEvent_Time : Time;
}.

#[warnings="-register-all"]
Inductive Event : Type :=
| ErrorEvent (severity : Severity) (code message : string)
| RegisteredEvent
| SelfNickEvent (formerNick : string)
| UserNickEvent (user formerNick : string) (time : Time)
| SelfJoinEvent (channel : string) (requested : bool) (topic : string)
| UserJoinEvent (user channel : string) (time : Time)
| SelfPartEvent (channel : string)
| UserPartEvent (user channel : string) (time : Time)
| UserQuitEvent (user : string) (chans : list string) (time : Time)
| UserOnlineEvent (user : string)
| UserOfflineEvent (user : string)
| TopicChangeEvent (channel topic : string) (time : Time)
| ModeChangeEvent (channel mode : string) (time : Time)
| InviteEvent (inviter invitee channel : string)
| EvMessage (ev : MessageEvent)
| EvHistory (target : string) (messages : list Event)
| EvHistoryTargets (targets : option (gmap string Time))
| EvSearch (messages : list MessageEvent)
| ReadEvent (target : string) (timestamp : Time)
| BouncerNetworkEvent (id name : string).

(** [HistoryEvent], the accumulator of a chathistory batch. *)
Record HistoryEvent : Type := {
  HistoryEvent_Target : string;
  HistoryEvent_Messages : list Event;
}.

Definition HistoryEvent_event (b : HistoryEvent) : Event :=
  EvHistory (HistoryEvent_Target b) (HistoryEvent_Messages b).

(** The zero value of [MessageEvent]. *)
Definition MessageEvent_zero : MessageEvent :=
  {| MessageEvent_User := ""; MessageEvent_Target := "";
     MessageEvent_TargetIsChannel := false; MessageEvent_Command := "";
     MessageEvent_Content := ""; MessageEvent_Time := 0 |}.

(** Values taken by the [+typing] client tag. *)
Definition TypingUnspec : Z := 0.
Definition TypingActive : Z := 1.
Definition TypingPaused : Z := 2.
Definition TypingDone : Z := 3.

(** The [SASLClient] interface. *)
Record SASLClient : Type := {
  Early : bool;
  Handshake : string;
  Respond : string -> option string;   (* [None]: a non-nil error *)
}.

(** [SupportedCapabilities] *)
Definition SupportedCapabilities : gset string :=
  list_to_set
    ["away-notify"; "batch"; "cap-notify"; "echo-message"; "invite-notify";
     "message-tags"; "multi-prefix"; "server-time"; "sasl"; "setname";
     "draft/chathistory"; "draft/event-playback"; "soju.im/bouncer-networks";
     "soju.im/read"; "soju.im/search"].

(** ** The collaborators of the session

    The tokenizer (tokens.go), the incoming-typing tracker (typing.go) and
    the token-bucket limiter (golang.org/x/time/rate) are not among the
    sources: the session is modelled over any implementation of them. *)

Record Cap : Type := {
  Cap_Name : string;
  Cap_Value : string;
  Cap_Enable : bool;
}.

Record Member : Type := {
  Member_PowerLevel : string;
  Member_Name : Prefix;
}.

Record ModeChange : Type := {
  ModeChange_Enable : bool;
  ModeChange_Mode : ascii;
  ModeChange_Param : string;
}.

Class Collaborators : Type := {
  (* tokens.go *)
  CasemapASCII : string -> string;
  CasemapRFC1459 : string -> string;
  ParsePrefix : string -> option Prefix;
  ParseCaps : string -> list Cap;
  ParseNameReply : string -> string -> list Member;
  ParseChannelMode :
    string -> list string -> list string -> string -> string + list ModeChange;
  parseTimestamp : string -> option Time;
  parseTags : string -> gmap string string;
  formatTags : gmap string string -> string;
  TimeOrNow : Message -> Time -> Time;
  IsReply : Message -> bool;
  ReplySeverity : string -> Severity;
  (* the calendar fields of [time.Time] that [formatTimestamp] prints *)
  formatTimestamp : Time -> string;
  (* typing.go *)
  Typings : Type;
  NewTypings : Typings;
  Typings_Active : Typings -> string -> string -> Typings;
  Typings_Done : Typings -> string -> string -> Typings;
  Typings_Close : Typings -> Typings;
  (* golang.org/x/time/rate; a rate is [events] per [seconds] *)
  Limiter : Type;
  NewLimiter : Z -> Z -> Z -> Limiter;
  Limiter_Allow : Limiter -> Time -> bool * Limiter;
  Limiter_Reserve : Limiter -> Time -> Limiter;
}.

(** ** The session *)

Section Session.

Context {C : Collaborators}.

Record typingStamp : Type := {
  Last : Time;
  Type_ : Z;
  Limit : Limiter;
}.

Record Session : Type := {
  out : list Message;  (* the messages pushed on the output channel, oldest first *)
  closed : bool;
  registered : bool;
  typings : Typings;  (* incoming typing notifications *)
  typingStamps : gmap string typingStamp;  (* user typing instants *)
  nick : string;
  nickCf : string;  (* casemapped nickname *)
  user : string;
  real : string;
  acct : string;
  host : string;
  netID : string;
  auth : option SASLClient;  (* [None] is the nil interface *)
  availableCaps : gmap string string;
  enabledCaps : gset string;
  casemap : string -> string;  (* ISUPPORT features *)
  chanmodes : list string;  (* a [[4]string] *)
  chantypes : string;
  linelen : Z;
  historyLimit : Z;
  prefixSymbols : string;
  prefixModes : string;
  monitor : bool;
  mem : list User;  (* the [User] records that [*User] pointers refer to *)
  users : gmap string ptr;  (* known users *)
  channels : gmap string Channel;  (* joined channels *)
  chBatches : gmap string HistoryEvent;  (* channel history batches being processed *)
  chReqs : gset string;  (* targets for which history is currently requested *)
  targetsBatchID : string;
  targetsBatch : option (gmap string Z);  (* the [Targets] map of the targets batch, [None] when nil *)
  searchBatchID : string;
  searchBatch : list MessageEvent;  (* the [Messages] of the search batch *)
  monitors : gset string;  (* users we want to monitor *)
  pendingChannels : gmap string Z;  (* join request stamps for channels *)
}.

(** Field updates: [set_f v s] is [s] after the assignment [s.f = v]. *)
Definition set_out (v : list Message) (s : Session) : Session :=
  {| out := v; closed := closed s; registered := registered s; typings :=
     typings s; typingStamps := typingStamps s; nick := nick s; nickCf :=
     nickCf s; user := user s; real := real s; acct := acct s; host :=
     host s; netID := netID s; auth := auth s; availableCaps :=
     availableCaps s; enabledCaps := enabledCaps s; casemap := casemap s;
     chanmodes := chanmodes s; chantypes := chantypes s; linelen :=
     linelen s; historyLimit := historyLimit s; prefixSymbols :=
     prefixSymbols s; prefixModes := prefixModes s; monitor := monitor s;
     mem := mem s; users := users s; channels := channels s; chBatches :=
     chBatches s; chReqs := chReqs s; targetsBatchID := targetsBatchID s;
     targetsBatch := targetsBatch s; searchBatchID := searchBatchID s;
     searchBatch := searchBatch s; monitors := monitors s; pendingChannels
     := pendingChannels s |}.
Definition set_closed (v : bool) (s : Session) : Session :=
  {| out := out s; closed := v; registered := registered s; typings :=
     typings s; typingStamps := typingStamps s; nick := nick s; nickCf :=
     nickCf s; user := user s; real := real s; acct := acct s; host :=
     host s; netID := netID s; auth := auth s; availableCaps :=
     availableCaps s; enabledCaps := enabledCaps s; casemap := casemap s;
     chanmodes := chanmodes s; chantypes := chantypes s; linelen :=
     linelen s; historyLimit := historyLimit s; prefixSymbols :=
     prefixSymbols s; prefixModes := prefixModes s; monitor := monitor s;
     mem := mem s; users := users s; channels := channels s; chBatches :=
     chBatches s; chReqs := chReqs s; targetsBatchID := targetsBatchID s;
     targetsBatch := targetsBatch s; searchBatchID := searchBatchID s;
     searchBatch := searchBatch s; monitors := monitors s; pendingChannels
     := pendingChannels s |}.
Definition set_registered (v : bool) (s : Session) : Session :=
  {| out := out s; closed := closed s; registered := v; typings := typings
     s; typingStamps := typingStamps s; nick := nick s; nickCf := nickCf
     s; user := user s; real := real s; acct := acct s; host := host s;
     netID := netID s; auth := auth s; availableCaps := availableCaps s;
     enabledCaps := enabledCaps s; casemap := casemap s; chanmodes :=
     chanmodes s; chantypes := chantypes s; linelen := linelen s;
     historyLimit := historyLimit s; prefixSymbols := prefixSymbols s;
     prefixModes := prefixModes s; monitor := monitor s; mem := mem s;
     users := users s; channels := channels s; chBatches := chBatches s;
     chReqs := chReqs s; targetsBatchID := targetsBatchID s; targetsBatch
     := targetsBatch s; searchBatchID := searchBatchID s; searchBatch :=
     searchBatch s; monitors := monitors s; pendingChannels :=
     pendingChannels s |}.
Definition set_typings (v : Typings) (s : Session) : Session :=
  {| out := out s; closed := closed s; registered := registered s; typings
     := v; typingStamps := typingStamps s; nick := nick s; nickCf :=
     nickCf s; user := user s; real := real s; acct := acct s; host :=
     host s; netID := netID s; auth := auth s; availableCaps :=
     availableCaps s; enabledCaps := enabledCaps s; casemap := casemap s;
     chanmodes := chanmodes s; chantypes := chantypes s; linelen :=
     linelen s; historyLimit := historyLimit s; prefixSymbols :=
     prefixSymbols s; prefixModes := prefixModes s; monitor := monitor s;
     mem := mem s; users := users s; channels := channels s; chBatches :=
     chBatches s; chReqs := chReqs s; targetsBatchID := targetsBatchID s;
     targetsBatch := targetsBatch s; searchBatchID := searchBatchID s;
     searchBatch := searchBatch s; monitors := monitors s; pendingChannels
     := pendingChannels s |}.
Definition set_typingStamps (v : gmap string typingStamp) (s : Session) : Session :=
  {| out := out s; closed := closed s; registered := registered s; typings
     := typings s; typingStamps := v; nick := nick s; nickCf := nickCf s;
     user := user s; real := real s; acct := acct s; host := host s; netID
     := netID s; auth := auth s; availableCaps := availableCaps s;
     enabledCaps := enabledCaps s; casemap := casemap s; chanmodes :=
     chanmodes s; chantypes := chantypes s; linelen := linelen s;
     historyLimit := historyLimit s; prefixSymbols := prefixSymbols s;
     prefixModes := prefixModes s; monitor := monitor s; mem := mem s;
     users := users s; channels := channels s; chBatches := chBatches s;
     chReqs := chReqs s; targetsBatchID := targetsBatchID s; targetsBatch
     := targetsBatch s; searchBatchID := searchBatchID s; searchBatch :=
     searchBatch s; monitors := monitors s; pendingChannels :=
     pendingChannels s |}.
Definition set_nick (v : string) (s : Session) : Session :=
  {| out := out s; closed := closed s; registered := registered s; typings
     := typings s; typingStamps := typingStamps s; nick := v; nickCf :=
     nickCf s; user := user s; real := real s; acct := acct s; host :=
     host s; netID := netID s; auth := auth s; availableCaps :=
     availableCaps s; enabledCaps := enabledCaps s; casemap := casemap s;
     chanmodes := chanmodes s; chantypes := chantypes s; linelen :=
     linelen s; historyLimit := historyLimit s; prefixSymbols :=
     prefixSymbols s; prefixModes := prefixModes s; monitor := monitor s;
     mem := mem s; users := users s; channels := channels s; chBatches :=
     chBatches s; chReqs := chReqs s; targetsBatchID := targetsBatchID s;
     targetsBatch := targetsBatch s; searchBatchID := searchBatchID s;
     searchBatch := searchBatch s; monitors := monitors s; pendingChannels
     := pendingChannels s |}.
Definition set_nickCf (v : string) (s : Session) : Session :=
  {| out := out s; closed := closed s; registered := registered s; typings
     := typings s; typingStamps := typingStamps s; nick := nick s; nickCf
     := v; user := user s; real := real s; acct := acct s; host := host s;
     netID := netID s; auth := auth s; availableCaps := availableCaps s;
     enabledCaps := enabledCaps s; casemap := casemap s; chanmodes :=
     chanmodes s; chantypes := chantypes s; linelen := linelen s;
     historyLimit := historyLimit s; prefixSymbols := prefixSymbols s;
     prefixModes := prefixModes s; monitor := monitor s; mem := mem s;
     users := users s; channels := channels s; chBatches := chBatches s;
     chReqs := chReqs s; targetsBatchID := targetsBatchID s; targetsBatch
     := targetsBatch s; searchBatchID := searchBatchID s; searchBatch :=
     searchBatch s; monitors := monitors s; pendingChannels :=
     pendingChannels s |}.
Definition set_user (v : string) (s : Session) : Session :=
  {| out := out s; closed := closed s; registered := registered s; typings
     := typings s; typingStamps := typingStamps s; nick := nick s; nickCf
     := nickCf s; user := v; real := real s; acct := acct s; host := host
     s; netID := netID s; auth := auth s; availableCaps := availableCaps
     s; enabledCaps := enabledCaps s; casemap := casemap s; chanmodes :=
     chanmodes s; chantypes := chantypes s; linelen := linelen s;
     historyLimit := historyLimit s; prefixSymbols := prefixSymbols s;
     prefixModes := prefixModes s; monitor := monitor s; mem := mem s;
     users := users s; channels := channels s; chBatches := chBatches s;
     chReqs := chReqs s; targetsBatchID := targetsBatchID s; targetsBatch
     := targetsBatch s; searchBatchID := searchBatchID s; searchBatch :=
     searchBatch s; monitors := monitors s; pendingChannels :=
     pendingChannels s |}.
Definition set_real (v : string) (s : Session) : Session :=
  {| out := out s; closed := closed s; registered := registered s; typings
     := typings s; typingStamps := typingStamps s; nick := nick s; nickCf
     := nickCf s; user := user s; real := v; acct := acct s; host := host
     s; netID := netID s; auth := auth s; availableCaps := availableCaps
     s; enabledCaps := enabledCaps s; casemap := casemap s; chanmodes :=
     chanmodes s; chantypes := chantypes s; linelen := linelen s;
     historyLimit := historyLimit s; prefixSymbols := prefixSymbols s;
     prefixModes := prefixModes s; monitor := monitor s; mem := mem s;
     users := users s; channels := channels s; chBatches := chBatches s;
     chReqs := chReqs s; targetsBatchID := targetsBatchID s; targetsBatch
     := targetsBatch s; searchBatchID := searchBatchID s; searchBatch :=
     searchBatch s; monitors := monitors s; pendingChannels :=
     pendingChannels s |}.
Definition set_acct (v : string) (s : Session) : Session :=
  {| out := out s; closed := closed s; registered := registered s; typings
     := typings s; typingStamps := typingStamps s; nick := nick s; nickCf
     := nickCf s; user := user s; real := real s; acct := v; host := host
     s; netID := netID s; auth := auth s; availableCaps := availableCaps
     s; enabledCaps := enabledCaps s; casemap := casemap s; chanmodes :=
     chanmodes s; chantypes := chantypes s; linelen := linelen s;
     historyLimit := historyLimit s; prefixSymbols := prefixSymbols s;
     prefixModes := prefixModes s; monitor := monitor s; mem := mem s;
     users := users s; channels := channels s; chBatches := chBatches s;
     chReqs := chReqs s; targetsBatchID := targetsBatchID s; targetsBatch
     := targetsBatch s; searchBatchID := searchBatchID s; searchBatch :=
     searchBatch s; monitors := monitors s; pendingChannels :=
     pendingChannels s |}.
Definition set_host (v : string) (s : Session) : Session :=
  {| out := out s; closed := closed s; registered := registered s; typings
     := typings s; typingStamps := typingStamps s; nick := nick s; nickCf
     := nickCf s; user := user s; real := real s; acct := acct s; host :=
     v; netID := netID s; auth := auth s; availableCaps := availableCaps
     s; enabledCaps := enabledCaps s; casemap := casemap s; chanmodes :=
     chanmodes s; chantypes := chantypes s; linelen := linelen s;
     historyLimit := historyLimit s; prefixSymbols := prefixSymbols s;
     prefixModes := prefixModes s; monitor := monitor s; mem := mem s;
     users := users s; channels := channels s; chBatches := chBatches s;
     chReqs := chReqs s; targetsBatchID := targetsBatchID s; targetsBatch
     := targetsBatch s; searchBatchID := searchBatchID s; searchBatch :=
     searchBatch s; monitors := monitors s; pendingChannels :=
     pendingChannels s |}.
Definition set_netID (v : string) (s : Session) : Session :=
  {| out := out s; closed := closed s; registered := registered s; typings
     := typings s; typingStamps := typingStamps s; nick := nick s; nickCf
     := nickCf s; user := user s; real := real s; acct := acct s; host :=
     host s; netID := v; auth := auth s; availableCaps := availableCaps s;
     enabledCaps := enabledCaps s; casemap := casemap s; chanmodes :=
     chanmodes s; chantypes := chantypes s; linelen := linelen s;
     historyLimit := historyLimit s; prefixSymbols := prefixSymbols s;
     prefixModes := prefixModes s; monitor := monitor s; mem := mem s;
     users := users s; channels := channels s; chBatches := chBatches s;
     chReqs := chReqs s; targetsBatchID := targetsBatchID s; targetsBatch
     := targetsBatch s; searchBatchID := searchBatchID s; searchBatch :=
     searchBatch s; monitors := monitors s; pendingChannels :=
     pendingChannels s |}.
Definition set_auth (v : option SASLClient) (s : Session) : Session :=
  {| out := out s; closed := closed s; registered := registered s; typings
     := typings s; typingStamps := typingStamps s; nick := nick s; nickCf
     := nickCf s; user := user s; real := real s; acct := acct s; host :=
     host s; netID := netID s; auth := v; availableCaps := availableCaps
     s; enabledCaps := enabledCaps s; casemap := casemap s; chanmodes :=
     chanmodes s; chantypes := chantypes s; linelen := linelen s;
     historyLimit := historyLimit s; prefixSymbols := prefixSymbols s;
     prefixModes := prefixModes s; monitor := monitor s; mem := mem s;
     users := users s; channels := channels s; chBatches := chBatches s;
     chReqs := chReqs s; targetsBatchID := targetsBatchID s; targetsBatch
     := targetsBatch s; searchBatchID := searchBatchID s; searchBatch :=
     searchBatch s; monitors := monitors s; pendingChannels :=
     pendingChannels s |}.
Definition set_availableCaps (v : gmap string string) (s : Session) : Session :=
  {| out := out s; closed := closed s; registered := registered s; typings
     := typings s; typingStamps := typingStamps s; nick := nick s; nickCf
     := nickCf s; user := user s; real := real s; acct := acct s; host :=
     host s; netID := netID s; auth := auth s; availableCaps := v;
     enabledCaps := enabledCaps s; casemap := casemap s; chanmodes :=
     chanmodes s; chantypes := chantypes s; linelen := linelen s;
     historyLimit := historyLimit s; prefixSymbols := prefixSymbols s;
     prefixModes := prefixModes s; monitor := monitor s; mem := mem s;
     users := users s; channels := channels s; chBatches := chBatches s;
     chReqs := chReqs s; targetsBatchID := targetsBatchID s; targetsBatch
     := targetsBatch s; searchBatchID := searchBatchID s; searchBatch :=
     searchBatch s; monitors := monitors s; pendingChannels :=
     pendingChannels s |}.
Definition set_enabledCaps (v : gset string) (s : Session) : Session :=
  {| out := out s; closed := closed s; registered := registered s; typings
     := typings s; typingStamps := typingStamps s; nick := nick s; nickCf
     := nickCf s; user := user s; real := real s; acct := acct s; host :=
     host s; netID := netID s; auth := auth s; availableCaps :=
     availableCaps s; enabledCaps := v; casemap := casemap s; chanmodes :=
     chanmodes s; chantypes := chantypes s; linelen := linelen s;
     historyLimit := historyLimit s; prefixSymbols := prefixSymbols s;
     prefixModes := prefixModes s; monitor := monitor s; mem := mem s;
     users := users s; channels := channels s; chBatches := chBatches s;
     chReqs := chReqs s; targetsBatchID := targetsBatchID s; targetsBatch
     := targetsBatch s; searchBatchID := searchBatchID s; searchBatch :=
     searchBatch s; monitors := monitors s; pendingChannels :=
     pendingChannels s |}.
Definition set_casemap (v : string -> string) (s : Session) : Session :=
  {| out := out s; closed := closed s; registered := registered s; typings
     := typings s; typingStamps := typingStamps s; nick := nick s; nickCf
     := nickCf s; user := user s; real := real s; acct := acct s; host :=
     host s; netID := netID s; auth := auth s; availableCaps :=
     availableCaps s; enabledCaps := enabledCaps s; casemap := v;
     chanmodes := chanmodes s; chantypes := chantypes s; linelen :=
     linelen s; historyLimit := historyLimit s; prefixSymbols :=
     prefixSymbols s; prefixModes := prefixModes s; monitor := monitor s;
     mem := mem s; users := users s; channels := channels s; chBatches :=
     chBatches s; chReqs := chReqs s; targetsBatchID := targetsBatchID s;
     targetsBatch := targetsBatch s; searchBatchID := searchBatchID s;
     searchBatch := searchBatch s; monitors := monitors s; pendingChannels
     := pendingChannels s |}.
Definition set_chanmodes (v : list string) (s : Session) : Session :=
  {| out := out s; closed := closed s; registered := registered s; typings
     := typings s; typingStamps := typingStamps s; nick := nick s; nickCf
     := nickCf s; user := user s; real := real s; acct := acct s; host :=
     host s; netID := netID s; auth := auth s; availableCaps :=
     availableCaps s; enabledCaps := enabledCaps s; casemap := casemap s;
     chanmodes := v; chantypes := chantypes s; linelen := linelen s;
     historyLimit := historyLimit s; prefixSymbols := prefixSymbols s;
     prefixModes := prefixModes s; monitor := monitor s; mem := mem s;
     users := users s; channels := channels s; chBatches := chBatches s;
     chReqs := chReqs s; targetsBatchID := targetsBatchID s; targetsBatch
     := targetsBatch s; searchBatchID := searchBatchID s; searchBatch :=
     searchBatch s; monitors := monitors s; pendingChannels :=
     pendingChannels s |}.
Definition set_chantypes (v : string) (s : Session) : Session :=
  {| out := out s; closed := closed s; registered := registered s; typings
     := typings s; typingStamps := typingStamps s; nick := nick s; nickCf
     := nickCf s; user := user s; real := real s; acct := acct s; host :=
     host s; netID := netID s; auth := auth s; availableCaps :=
     availableCaps s; enabledCaps := enabledCaps s; casemap := casemap s;
     chanmodes := chanmodes s; chantypes := v; linelen := linelen s;
     historyLimit := historyLimit s; prefixSymbols := prefixSymbols s;
     prefixModes := prefixModes s; monitor := monitor s; mem := mem s;
     users := users s; channels := channels s; chBatches := chBatches s;
     chReqs := chReqs s; targetsBatchID := targetsBatchID s; targetsBatch
     := targetsBatch s; searchBatchID := searchBatchID s; searchBatch :=
     searchBatch s; monitors := monitors s; pendingChannels :=
     pendingChannels s |}.
Definition set_linelen (v : Z) (s : Session) : Session :=
  {| out := out s; closed := closed s; registered := registered s; typings
     := typings s; typingStamps := typingStamps s; nick := nick s; nickCf
     := nickCf s; user := user s; real := real s; acct := acct s; host :=
     host s; netID := netID s; auth := auth s; availableCaps :=
     availableCaps s; enabledCaps := enabledCaps s; casemap := casemap s;
     chanmodes := chanmodes s; chantypes := chantypes s; linelen := v;
     historyLimit := historyLimit s; prefixSymbols := prefixSymbols s;
     prefixModes := prefixModes s; monitor := monitor s; mem := mem s;
     users := users s; channels := channels s; chBatches := chBatches s;
     chReqs := chReqs s; targetsBatchID := targetsBatchID s; targetsBatch
     := targetsBatch s; searchBatchID := searchBatchID s; searchBatch :=
     searchBatch s; monitors := monitors s; pendingChannels :=
     pendingChannels s |}.
Definition set_historyLimit (v : Z) (s : Session) : Session :=
  {| out := out s; closed := closed s; registered := registered s; typings
     := typings s; typingStamps := typingStamps s; nick := nick s; nickCf
     := nickCf s; user := user s; real := real s; acct := acct s; host :=
     host s; netID := netID s; auth := auth s; availableCaps :=
     availableCaps s; enabledCaps := enabledCaps s; casemap := casemap s;
     chanmodes := chanmodes s; chantypes := chantypes s; linelen :=
     linelen s; historyLimit := v; prefixSymbols := prefixSymbols s;
     prefixModes := prefixModes s; monitor := monitor s; mem := mem s;
     users := users s; channels := channels s; chBatches := chBatches s;
     chReqs := chReqs s; targetsBatchID := targetsBatchID s; targetsBatch
     := targetsBatch s; searchBatchID := searchBatchID s; searchBatch :=
     searchBatch s; monitors := monitors s; pendingChannels :=
     pendingChannels s |}.
Definition set_prefixSymbols (v : string) (s : Session) : Session :=
  {| out := out s; closed := closed s; registered := registered s; typings
     := typings s; typingStamps := typingStamps s; nick := nick s; nickCf
     := nickCf s; user := user s; real := real s; acct := acct s; host :=
     host s; netID := netID s; auth := auth s; availableCaps :=
     availableCaps s; enabledCaps := enabledCaps s; casemap := casemap s;
     chanmodes := chanmodes s; chantypes := chantypes s; linelen :=
     linelen s; historyLimit := historyLimit s; prefixSymbols := v;
     prefixModes := prefixModes s; monitor := monitor s; mem := mem s;
     users := users s; channels := channels s; chBatches := chBatches s;
     chReqs := chReqs s; targetsBatchID := targetsBatchID s; targetsBatch
     := targetsBatch s; searchBatchID := searchBatchID s; searchBatch :=
     searchBatch s; monitors := monitors s; pendingChannels :=
     pendingChannels s |}.
Definition set_prefixModes (v : string) (s : Session) : Session :=
  {| out := out s; closed := closed s; registered := registered s; typings
     := typings s; typingStamps := typingStamps s; nick := nick s; nickCf
     := nickCf s; user := user s; real := real s; acct := acct s; host :=
     host s; netID := netID s; auth := auth s; availableCaps :=
     availableCaps s; enabledCaps := enabledCaps s; casemap := casemap s;
     chanmodes := chanmodes s; chantypes := chantypes s; linelen :=
     linelen s; historyLimit := historyLimit s; prefixSymbols :=
     prefixSymbols s; prefixModes := v; monitor := monitor s; mem := mem
     s; users := users s; channels := channels s; chBatches := chBatches
     s; chReqs := chReqs s; targetsBatchID := targetsBatchID s;
     targetsBatch := targetsBatch s; searchBatchID := searchBatchID s;
     searchBatch := searchBatch s; monitors := monitors s; pendingChannels
     := pendingChannels s |}.
Definition set_monitor (v : bool) (s : Session) : Session :=
  {| out := out s; closed := closed s; registered := registered s; typings
     := typings s; typingStamps := typingStamps s; nick := nick s; nickCf
     := nickCf s; user := user s; real := real s; acct := acct s; host :=
     host s; netID := netID s; auth := auth s; availableCaps :=
     availableCaps s; enabledCaps := enabledCaps s; casemap := casemap s;
     chanmodes := chanmodes s; chantypes := chantypes s; linelen :=
     linelen s; historyLimit := historyLimit s; prefixSymbols :=
     prefixSymbols s; prefixModes := prefixModes s; monitor := v; mem :=
     mem s; users := users s; channels := channels s; chBatches :=
     chBatches s; chReqs := chReqs s; targetsBatchID := targetsBatchID s;
     targetsBatch := targetsBatch s; searchBatchID := searchBatchID s;
     searchBatch := searchBatch s; monitors := monitors s; pendingChannels
     := pendingChannels s |}.
Definition set_mem (v : list User) (s : Session) : Session :=
  {| out := out s; closed := closed s; registered := registered s; typings
     := typings s; typingStamps := typingStamps s; nick := nick s; nickCf
     := nickCf s; user := user s; real := real s; acct := acct s; host :=
     host s; netID := netID s; auth := auth s; availableCaps :=
     availableCaps s; enabledCaps := enabledCaps s; casemap := casemap s;
     chanmodes := chanmodes s; chantypes := chantypes s; linelen :=
     linelen s; historyLimit := historyLimit s; prefixSymbols :=
     prefixSymbols s; prefixModes := prefixModes s; monitor := monitor s;
     mem := v; users := users s; channels := channels s; chBatches :=
     chBatches s; chReqs := chReqs s; targetsBatchID := targetsBatchID s;
     targetsBatch := targetsBatch s; searchBatchID := searchBatchID s;
     searchBatch := searchBatch s; monitors := monitors s; pendingChannels
     := pendingChannels s |}.
Definition set_users (v : gmap string ptr) (s : Session) : Session :=
  {| out := out s; closed := closed s; registered := registered s; typings
     := typings s; typingStamps := typingStamps s; nick := nick s; nickCf
     := nickCf s; user := user s; real := real s; acct := acct s; host :=
     host s; netID := netID s; auth := auth s; availableCaps :=
     availableCaps s; enabledCaps := enabledCaps s; casemap := casemap s;
     chanmodes := chanmodes s; chantypes := chantypes s; linelen :=
     linelen s; historyLimit := historyLimit s; prefixSymbols :=
     prefixSymbols s; prefixModes := prefixModes s; monitor := monitor s;
     mem := mem s; users := v; channels := channels s; chBatches :=
     chBatches s; chReqs := chReqs s; targetsBatchID := targetsBatchID s;
     targetsBatch := targetsBatch s; searchBatchID := searchBatchID s;
     searchBatch := searchBatch s; monitors := monitors s; pendingChannels
     := pendingChannels s |}.
Definition set_channels (v : gmap string Channel) (s : Session) : Session :=
  {| out := out s; closed := closed s; registered := registered s; typings
     := typings s; typingStamps := typingStamps s; nick := nick s; nickCf
     := nickCf s; user := user s; real := real s; acct := acct s; host :=
     host s; netID := netID s; auth := auth s; availableCaps :=
     availableCaps s; enabledCaps := enabledCaps s; casemap := casemap s;
     chanmodes := chanmodes s; chantypes := chantypes s; linelen :=
     linelen s; historyLimit := historyLimit s; prefixSymbols :=
     prefixSymbols s; prefixModes := prefixModes s; monitor := monitor s;
     mem := mem s; users := users s; channels := v; chBatches := chBatches
     s; chReqs := chReqs s; targetsBatchID := targetsBatchID s;
     targetsBatch := targetsBatch s; searchBatchID := searchBatchID s;
     searchBatch := searchBatch s; monitors := monitors s; pendingChannels
     := pendingChannels s |}.
Definition set_chBatches (v : gmap string HistoryEvent) (s : Session) : Session :=
  {| out := out s; closed := closed s; registered := registered s; typings
     := typings s; typingStamps := typingStamps s; nick := nick s; nickCf
     := nickCf s; user := user s; real := real s; acct := acct s; host :=
     host s; netID := netID s; auth := auth s; availableCaps :=
     availableCaps s; enabledCaps := enabledCaps s; casemap := casemap s;
     chanmodes := chanmodes s; chantypes := chantypes s; linelen :=
     linelen s; historyLimit := historyLimit s; prefixSymbols :=
     prefixSymbols s; prefixModes := prefixModes s; monitor := monitor s;
     mem := mem s; users := users s; channels := channels s; chBatches :=
     v; chReqs := chReqs s; targetsBatchID := targetsBatchID s;
     targetsBatch := targetsBatch s; searchBatchID := searchBatchID s;
     searchBatch := searchBatch s; monitors := monitors s; pendingChannels
     := pendingChannels s |}.
Definition set_chReqs (v : gset string) (s : Session) : Session :=
  {| out := out s; closed := closed s; registered := registered s; typings
     := typings s; typingStamps := typingStamps s; nick := nick s; nickCf
     := nickCf s; user := user s; real := real s; acct := acct s; host :=
     host s; netID := netID s; auth := auth s; availableCaps :=
     availableCaps s; enabledCaps := enabledCaps s; casemap := casemap s;
     chanmodes := chanmodes s; chantypes := chantypes s; linelen :=
     linelen s; historyLimit := historyLimit s; prefixSymbols :=
     prefixSymbols s; prefixModes := prefixModes s; monitor := monitor s;
     mem := mem s; users := users s; channels := channels s; chBatches :=
     chBatches s; chReqs := v; targetsBatchID := targetsBatchID s;
     targetsBatch := targetsBatch s; searchBatchID := searchBatchID s;
     searchBatch := searchBatch s; monitors := monitors s; pendingChannels
     := pendingChannels s |}.
Definition set_targetsBatchID (v : string) (s : Session) : Session :=
  {| out := out s; closed := closed s; registered := registered s; typings
     := typings s; typingStamps := typingStamps s; nick := nick s; nickCf
     := nickCf s; user := user s; real := real s; acct := acct s; host :=
     host s; netID := netID s; auth := auth s; availableCaps :=
     availableCaps s; enabledCaps := enabledCaps s; casemap := casemap s;
     chanmodes := chanmodes s; chantypes := chantypes s; linelen :=
     linelen s; historyLimit := historyLimit s; prefixSymbols :=
     prefixSymbols s; prefixModes := prefixModes s; monitor := monitor s;
     mem := mem s; users := users s; channels := channels s; chBatches :=
     chBatches s; chReqs := chReqs s; targetsBatchID := v; targetsBatch :=
     targetsBatch s; searchBatchID := searchBatchID s; searchBatch :=
     searchBatch s; monitors := monitors s; pendingChannels :=
     pendingChannels s |}.
Definition set_targetsBatch (v : option (gmap string Z)) (s : Session) : Session :=
  {| out := out s; closed := closed s; registered := registered s; typings
     := typings s; typingStamps := typingStamps s; nick := nick s; nickCf
     := nickCf s; user := user s; real := real s; acct := acct s; host :=
     host s; netID := netID s; auth := auth s; availableCaps :=
     availableCaps s; enabledCaps := enabledCaps s; casemap := casemap s;
     chanmodes := chanmodes s; chantypes := chantypes s; linelen :=
     linelen s; historyLimit := historyLimit s; prefixSymbols :=
     prefixSymbols s; prefixModes := prefixModes s; monitor := monitor s;
     mem := mem s; users := users s; channels := channels s; chBatches :=
     chBatches s; chReqs := chReqs s; targetsBatchID := targetsBatchID s;
     targetsBatch := v; searchBatchID := searchBatchID s; searchBatch :=
     searchBatch s; monitors := monitors s; pendingChannels :=
     pendingChannels s |}.
Definition set_searchBatchID (v : string) (s : Session) : Session :=
  {| out := out s; closed := closed s; registered := registered s; typings
     := typings s; typingStamps := typingStamps s; nick := nick s; nickCf
     := nickCf s; user := user s; real := real s; acct := acct s; host :=
     host s; netID := netID s; auth := auth s; availableCaps :=
     availableCaps s; enabledCaps := enabledCaps s; casemap := casemap s;
     chanmodes := chanmodes s; chantypes := chantypes s; linelen :=
     linelen s; historyLimit := historyLimit s; prefixSymbols :=
     prefixSymbols s; prefixModes := prefixModes s; monitor := monitor s;
     mem := mem s; users := users s; channels := channels s; chBatches :=
     chBatches s; chReqs := chReqs s; targetsBatchID := targetsBatchID s;
     targetsBatch := targetsBatch s; searchBatchID := v; searchBatch :=
     searchBatch s; monitors := monitors s; pendingChannels :=
     pendingChannels s |}.
Definition set_searchBatch (v : list MessageEvent) (s : Session) : Session :=
  {| out := out s; closed := closed s; registered := registered s; typings
     := typings s; typingStamps := typingStamps s; nick := nick s; nickCf
     := nickCf s; user := user s; real := real s; acct := acct s; host :=
     host s; netID := netID s; auth := auth s; availableCaps :=
     availableCaps s; enabledCaps := enabledCaps s; casemap := casemap s;
     chanmodes := chanmodes s; chantypes := chantypes s; linelen :=
     linelen s; historyLimit := historyLimit s; prefixSymbols :=
     prefixSymbols s; prefixModes := prefixModes s; monitor := monitor s;
     mem := mem s; users := users s; channels := channels s; chBatches :=
     chBatches s; chReqs := chReqs s; targetsBatchID := targetsBatchID s;
     targetsBatch := targetsBatch s; searchBatchID := searchBatchID s;
     searchBatch := v; monitors := monitors s; pendingChannels :=
     pendingChannels s |}.
Definition set_monitors (v : gset string) (s : Session) : Session :=
  {| out := out s; closed := closed s; registered := registered s; typings
     := typings s; typingStamps := typingStamps s; nick := nick s; nickCf
     := nickCf s; user := user s; real := real s; acct := acct s; host :=
     host s; netID := netID s; auth := auth s; availableCaps :=
     availableCaps s; enabledCaps := enabledCaps s; casemap := casemap s;
     chanmodes := chanmodes s; chantypes := chantypes s; linelen :=
     linelen s; historyLimit := historyLimit s; prefixSymbols :=
     prefixSymbols s; prefixModes := prefixModes s; monitor := monitor s;
     mem := mem s; users := users s; channels := channels s; chBatches :=
     chBatches s; chReqs := chReqs s; targetsBatchID := targetsBatchID s;
     targetsBatch := targetsBatch s; searchBatchID := searchBatchID s;
     searchBatch := searchBatch s; monitors := v; pendingChannels :=
     pendingChannels s |}.
Definition set_pendingChannels (v : gmap string Z) (s : Session) : Session :=
  {| out := out s; closed := closed s; registered := registered s; typings
     := typings s; typingStamps := typingStamps s; nick := nick s; nickCf
     := nickCf s; user := user s; real := real s; acct := acct s; host :=
     host s; netID := netID s; auth := auth s; availableCaps :=
     availableCaps s; enabledCaps := enabledCaps s; casemap := casemap s;
     chanmodes := chanmodes s; chantypes := chantypes s; linelen :=
     linelen s; historyLimit := historyLimit s; prefixSymbols :=
     prefixSymbols s; prefixModes := prefixModes s; monitor := monitor s;
     mem := mem s; users := users s; channels := channels s; chBatches :=
     chBatches s; chReqs := chReqs s; targetsBatchID := targetsBatchID s;
     targetsBatch := targetsBatch s; searchBatchID := searchBatchID s;
     searchBatch := searchBatch s; monitors := monitors s; pendingChannels
     := v |}.


(** Updates of a [Channel] value. *)
Definition Channel_set_Members (v : gmap ptr string) (c : Channel) : Channel :=
  {| Channel_Name := Channel_Name c; Members := v; Topic := Topic c;
     TopicWho := TopicWho c; TopicTime := TopicTime c; complete := complete c |}.

Definition Channel_set_Topic (v : string) (c : Channel) : Channel :=
  {| Channel_Name := Channel_Name c; Members := Members c; Topic := v;
     TopicWho := TopicWho c; TopicTime := TopicTime c; complete := complete c |}.

Definition Channel_set_TopicWho (v : option Prefix) (c : Channel) : Channel :=
  {| Channel_Name := Channel_Name c; Members := Members c; Topic := Topic c;
     TopicWho := v; TopicTime := TopicTime c; complete := complete c |}.

Definition Channel_set_TopicTime (v : Time) (c : Channel) : Channel :=
  {| Channel_Name := Channel_Name c; Members := Members c; Topic := Topic c;
     TopicWho := TopicWho c; TopicTime := v; complete := complete c |}.

Definition Channel_set_complete (v : bool) (c : Channel) : Channel :=
  {| Channel_Name := Channel_Name c; Members := Members c; Topic := Topic c;
     TopicWho := TopicWho c; TopicTime := TopicTime c; complete := v |}.

(** [Channel{Name: name, Members: map[*User]string{}}] *)
Definition Channel_new (name : string) : Channel :=
  {| Channel_Name := name; Members := ∅; Topic := ""; TopicWho := None;
     TopicTime := 0; complete := false |}.

(** Updates of a [User] record. *)
Definition User_set_Name (v : Prefix) (u : User) : User :=
  {| User_Name := v; User_Away := User_Away u;
     User_Disconnected := User_Disconnected u |}.

Definition User_set_Away (v : bool) (u : User) : User :=
  {| User_Name := User_Name u; User_Away := v;
     User_Disconnected := User_Disconnected u |}.

Definition User_set_Disconnected (v : bool) (u : User) : User :=
  {| User_Name := User_Name u; User_Away := User_Away u;
     User_Disconnected := v |}.

(** [&User{Name: name}] *)
Definition User_new (name : Prefix) : User :=
  {| User_Name := name; User_Away := false; User_Disconnected := false |}.

(** *** The store of user records *)

(** [*p]: a pointer outside the store is dereferenced like nil. *)
Definition deref (s : Session) (p : ptr) : Outcome User :=
  match mem s !! p with
  | Some u => Done u
  | None => Panic
  end.

(** [*p = u] *)
Definition store (p : ptr) (u : User) (s : Session) : Session :=
  set_mem (<[p := u]> (mem s)) s.

(** [&User{...}]: a fresh record. *)
Definition alloc (u : User) (s : Session) : ptr * Session :=
  (length (mem s), set_mem (mem s ++ [u])%list s).

(** [if _, ok := s.users[nickCf]; !ok { s.users[nickCf] = &User{Name: name} }],
    and the pointer [s.users[nickCf]] afterwards. *)
Definition ensureUser (nickCf : string) (name : Prefix) (s : Session)
  : ptr * Session :=
  match users s !! nickCf with
  | Some p => (p, s)
  | None =>
      let '(p, s1) := alloc (User_new name) s in
      (p, set_users (<[nickCf := p]> (users s1)) s1)
  end.

(** *** Accessors *)

(** [s.out <- msg]; sending on the channel after [Close] panics. *)
Definition send (msg : Message) (s : Session) : Outcome Session :=
  if closed s then Panic else Done (set_out (out s ++ [msg])%list s).

Fixpoint sendAll (msgs : list Message) (s : Session) : Outcome Session :=
  match msgs with
  | [] => Done s
  | m :: rest => do s1 <- send m s; sendAll rest s1
  end.

Definition HasCapability (s : Session) (capability : string) : bool :=
  bool_decide (capability ∈ enabledCaps s).

Definition Casemap (s : Session) (name : string) : string := casemap s name.

Definition IsMe (s : Session) (nick : string) : bool :=
  nickCf s == casemap s nick.

(** *** Registration *)

Definition endRegistration (s : Session) : Outcome Session :=
  if registered s then Done s
  else if negb (netID s == "") then
    sendAll [NewMessage "BOUNCER" ["BIND"; netID s]; NewMessage "CAP" ["END"]] s
  else
    sendAll [NewMessage "CAP" ["END"]; NewMessage "BOUNCER" ["LISTNETWORKS"]] s.

Record SessionParams : Type := {
  Nickname : string;
  Username : string;
  RealName : string;
  NetID : string;
  Auth : option SASLClient;
}.

(** The [Session] literal of [NewSession]. *)
Definition Session_init (params : SessionParams) : Session :=
  {| out := []; closed := false; registered := false;
     typings := NewTypings; typingStamps := ∅;
     nick := Nickname params; nickCf := CasemapASCII (Nickname params);
     user := Username params; real := RealName params; acct := "";
     host := ""; netID := NetID params; auth := Auth params;
     availableCaps := ∅; enabledCaps := ∅;
     casemap := CasemapRFC1459; chanmodes := [""; ""; ""; ""];
     chantypes := "#&"; linelen := 512; historyLimit := 100;
     prefixSymbols := "@+"; prefixModes := "ov"; monitor := false;
     mem := []; users := ∅; channels := ∅; chBatches := ∅; chReqs := ∅;
     targetsBatchID := ""; targetsBatch := None;
     searchBatchID := ""; searchBatch := [];
     monitors := ∅; pendingChannels := ∅ |}.

(** [NewSession].  The capabilities are requested in the order in which
    the set is enumerated; Go leaves that order unspecified. *)
Definition NewSession (params : SessionParams) : Outcome Session :=
  do s <- send (NewMessage "CAP" ["LS"; "302"]) (Session_init params);
  do s <- sendAll (map (fun c => NewMessage "CAP" ["REQ"; c])
                       (elements SupportedCapabilities)) s;
  do s <- send (NewMessage "NICK" [nick s]) s;
  do s <- send (NewMessage "USER" [user s; "0"; "*"; real s]) s;
  do s <-
    match auth s with
    | Some a =>
        if Early a then
          do s <- send (NewMessage "AUTHENTICATE" [Handshake a]) s;
          do s <- send (NewMessage "AUTHENTICATE"
                          [match Respond a "+" with
                           | Some res => res
                           | None => "*"
                           end]) s;
          Done (set_auth None s)
        else Done s
    | None => Done s
    end;
  match auth s with
  | None => endRegistration s
  | Some _ => Done s
  end.

Definition Close (s : Session) : Session :=
  if closed s then s
  else set_typings (Typings_Close (typings s)) (set_closed true s).

(** *** Outbound builders *)

Definition Join (channel key : string) (now : Time) (s : Session)
  : Outcome Session :=
  let channelCf := Casemap s channel in
  let s1 := set_pendingChannels (<[channelCf := now]> (pendingChannels s)) s in
  if key == "" then send (NewMessage "JOIN" [channel]) s1
  else send (NewMessage "JOIN" [channel; key]) s1.

(** The inner loop of [splitChunks],
    [for min <= i && !utf8.RuneStart(s[i]) { i-- }]; it runs at most
    [i - min + 1] times and [k] is a bound on its iterations. *)
Fixpoint splitChunks_back (k : nat) (s : string) (min i : Z) : Outcome Z :=
  match k with
  | O => Done i
  | S k' =>
      if min <=? i then
        do b <- GoString.index s i;
        if utf8.RuneStart b then Done i
        else splitChunks_back k' s min (i - 1)
      else Done i
  end.

(** The outer loop [for chunkLen < len(s)].  Nothing in the code bounds
    its iterations, so the model counts them: [None] means that [fuel]
    iterations were not enough. *)
Fixpoint splitChunks_loop (fuel : nat) (s : string) (chunkLen : Z)
    (chunks : list string) : option (Outcome (list string)) :=
  match fuel with
  | O => None
  | S fuel' =>
      if chunkLen <? GoString.len s then
        let min := chunkLen - utf8.UTFMax in
        match splitChunks_back (S (Z.to_nat (chunkLen - min + 1))) s min chunkLen with
        | Done i =>
            match GoString.slice_to s i, GoString.slice_from s i with
            | Done chunk, Done rest =>
                splitChunks_loop fuel' rest chunkLen (chunks ++ [chunk])%list
            | _, _ => Some Panic
            end
        | Panic => Some Panic
        end
      else
        Some (Done (if GoString.len s =? 0 then chunks else (chunks ++ [s])%list))
  end.

Definition splitChunks (fuel : nat) (s : string) (chunkLen : Z)
  : option (Outcome (list string)) :=
  if chunkLen <=? 0 then Some (Done [s])
  else splitChunks_loop fuel s chunkLen [].

(** Go's [int] has 64 bits: a difference outside of them wraps around. *)
Definition int_wrap (z : Z) : Z := (z + 2 ^ 63) mod 2 ^ 64 - 2 ^ 63.

Definition int_sub (a b : Z) : Z := int_wrap (a - b).

(** The variable [maxMessageLen] of [PrivMsg]; 16 is the length of the
    literal, which ends in a carriage return and a line feed. *)
Definition maxMessageLen (s : Session) (target : string) : Z :=
  let hostLen :=
    if GoString.len (host s) =? 0 then GoString.len "255.255.255.255"
    else GoString.len (host s) in
  int_sub
    (int_sub
       (int_sub
          (int_sub
             (int_sub (linelen s) (GoString.len ":!@ PRIVMSG  :" + 2))
             (GoString.len (nick s)))
          (GoString.len (user s)))
       hostLen)
    (GoString.len target).

Definition PrivMsg (fuel : nat) (target content : string) (s : Session)
  : option (Outcome Session) :=
  match splitChunks fuel content (maxMessageLen s target) with
  | None => None
  | Some Panic => Some Panic
  | Some (Done chunks) =>
      Some (do s1 <- sendAll (map (fun chunk => NewMessage "PRIVMSG" [target; chunk])
                                  chunks) s;
            let targetCf := Casemap s1 target in
            Done (set_typingStamps (delete targetCf (typingStamps s1)) s1))
  end.

(** [Typing].  [now.Sub(t.Last).Seconds() < 3.0] holds exactly when the
    difference is below 3e9 nanoseconds.  The limiter of a stamp is a
    pointer that only this stamp holds, so the effect of [Allow] on it is
    written back into the stamp. *)
Definition Typing (target : string) (now : Time) (s : Session)
  : Outcome Session :=
  if negb (HasCapability s "message-tags") then Done s
  else
    let targetCf := casemap s target in
    let active lim :=
      send (WithTag "+typing" "active" (NewMessage "TAGMSG" [target]))
           (set_typingStamps
              (<[targetCf := {| Last := now; Type_ := TypingActive; Limit := lim |}]>
                 (typingStamps s)) s) in
    match typingStamps s !! targetCf with
    | Some t =>
        if (Type_ t =? TypingActive) && (now - Last t <? 3 * Second) then Done s
        else
          let '(ok, lim) := Limiter_Allow (Limit t) now in
          if ok then active lim
          else
            Done (set_typingStamps
                    (<[targetCf := {| Last := Last t; Type_ := Type_ t; Limit := lim |}]>
                       (typingStamps s)) s)
    | None => active (Limiter_Reserve (NewLimiter 1 3 5) now)
    end.

Definition TypingStop (target : string) (now : Time) (s : Session)
  : Outcome Session :=
  if negb (HasCapability s "message-tags") then Done s
  else
    let targetCf := casemap s target in
    let done lim :=
      send (WithTag "+typing" "done" (NewMessage "TAGMSG" [target]))
           (set_typingStamps
              (<[targetCf := {| Last := now; Type_ := TypingDone; Limit := lim |}]>
                 (typingStamps s)) s) in
    match typingStamps s !! targetCf with
    | Some t =>
        if Type_ t =? TypingDone then Done s
        else
          let '(ok, lim) := Limiter_Allow (Limit t) now in
          if ok then done lim
          else
            Done (set_typingStamps
                    (<[targetCf := {| Last := Last t; Type_ := Type_ t; Limit := lim |}]>
                       (typingStamps s)) s)
    | None => done (Limiter_Reserve (NewLimiter 1 1 5) now)
    end.

Definition MonitorAdd (target : string) (s : Session) : Outcome Session :=
  let targetCf := casemap s target in
  if bool_decide (targetCf ∈ monitors s) then Done s
  else
    let s1 := set_monitors ({[targetCf]} ∪ monitors s) s in
    if monitor s1 then send (NewMessage "MONITOR" ["+"; target]) s1 else Done s1.

Definition MonitorRemove (target : string) (s : Session) : Outcome Session :=
  let targetCf := casemap s target in
  if bool_decide (targetCf ∈ monitors s) then
    let s1 := set_monitors (monitors s ∖ {[targetCf]}) s in
    if monitor s1 then send (NewMessage "MONITOR" ["-"; target]) s1 else Done s1
  else Done s.

(** *** History requests *)

Record HistoryRequest : Type := {
  target : string;
  command : string;
  bounds : list string;
  limit : Z;
}.

Definition NewHistoryRequest (s : Session) (target : string) : HistoryRequest :=
  {| target := target; command := ""; bounds := []; limit := historyLimit s |}.

Definition WithLimit (s : Session) (lim : Z) (r : HistoryRequest)
  : HistoryRequest :=
  {| target := target r; command := command r; bounds := bounds r;
     limit := if lim <? historyLimit s then lim else historyLimit s |}.

Definition doRequest (r : HistoryRequest) (s : Session) : Outcome Session :=
  if negb (HasCapability s "draft/chathistory") then Done s
  else
    let targetCf := casemap s (target r) in
    if bool_decide (targetCf ∈ chReqs s) then Done s
    else
      let s1 := set_chReqs ({[targetCf]} ∪ chReqs s) s in
      let args :=
        ([command r] ++ (if target r == "" then [] else [target r])
         ++ bounds r ++ [strconv.Itoa (limit r)])%list in
      send (NewMessage "CHATHISTORY" args) s1.

Definition After (t : Time) (r : HistoryRequest) (s : Session)
  : Outcome Session :=
  doRequest {| target := target r; command := "AFTER";
               bounds := [formatTimestamp t]; limit := limit r |} s.

Definition Before (t : Time) (r : HistoryRequest) (s : Session)
  : Outcome Session :=
  doRequest {| target := target r; command := "BEFORE";
               bounds := [formatTimestamp t]; limit := limit r |} s.

Definition Targets (start end_ : Time) (r : HistoryRequest) (s : Session)
  : Outcome Session :=
  doRequest {| target := ""; command := "TARGETS";
               bounds := [formatTimestamp start; formatTimestamp end_];
               limit := limit r |} s.

(** *** Roster clean-up *)

(** [for _, c := range s.channels { if _, ok := c.Members[parted]; ok ... }] *)
Definition inSomeChannel (parted : ptr) (chans : gmap string Channel) : bool :=
  existsb (fun kc => bool_decide (is_Some (Members (snd kc) !! parted)))
          (map_to_list chans).

Definition cleanUser (parted : ptr) (s : Session) : Outcome Session :=
  do u <- deref s parted;
  let nameCf := Casemap s (Prefix_Name (User_Name u)) in
  if bool_decide (nameCf ∈ monitors s) then Done s
  else if inSomeChannel parted (channels s) then Done s
  else Done (set_users (delete nameCf (users s)) s).

(** [for u := range members { s.cleanUser(u) }] *)
Fixpoint cleanUsers (members : list ptr) (s : Session) : Outcome Session :=
  match members with
  | [] => Done s
  | u :: rest => do s1 <- cleanUser u s; cleanUsers rest s1
  end.

(** *** ISUPPORT *)

(** [for i := 0; i < len(types) && i < len(s.chanmodes); i++
       { s.chanmodes[i] = types[i] }] *)
Definition chanmodes_assign (types chanmodes : list string) : list string :=
  foldl (fun acc it => <[fst it := snd it]> acc) chanmodes
        (zip (seq 0 (length chanmodes)) types).

(** The body of the loop of [updateFeatures], for one token. *)
Definition updateFeature (f : string) (s : Session) : Outcome Session :=
  if (f == "") || (f == "-") || (f == "=") || (f == "-=") then Done s
  else
    do (add, f) <-
      (if GoString.HasPrefix f "-"
       then do f' <- GoString.slice_from f 1; Done (false, f')
       else Done (true, f));
    let kv := GoString.SplitN "=" 1 f in
    let key := strings.ToUpper (nth 0 kv "") in
    let value := if (1 <? length kv)%nat then nth 1 kv "" else "" in
    if negb add then Done s   (* TODO support ISUPPORT negations *)
    else if key == "BOUNCER_NETID" then Done (set_netID value s)
    else if key == "CASEMAPPING" then
      if value == "ascii" then Done (set_casemap CasemapASCII s)
      else Done (set_casemap CasemapRFC1459 s)
    else if key == "CHANMODES" then
      let types := GoString.SplitN "," 4 value in
      Done (set_chanmodes (chanmodes_assign types (chanmodes s)) s)
    else if key == "CHANTYPES" then Done (set_chantypes value s)
    else if key == "CHATHISTORY" then
      match strconv.Atoi value with
      | Some historyLimit => Done (set_historyLimit historyLimit s)
      | None => Done s
      end
    else if key == "LINELEN" then
      match strconv.Atoi value with
      | Some linelen => if linelen =? 0 then Done s else Done (set_linelen linelen s)
      | None => Done s
      end
    else if key == "MONITOR" then
      match strconv.Atoi value with
      | Some monitor => if 0 <? monitor then Done (set_monitor true s) else Done s
      | None => Done s
      end
    else if key == "PREFIX" then
      let s1 :=
        if value == "" then set_prefixSymbols "" (set_prefixModes "" s) else s in
      if negb (GoString.len value mod 2 =? 0) then Done s1
      else if existsb (fun b => unicode.MaxASCII <? b) (GoString.bytes value)
      then Done s1
      else
        let numPrefixes := GoString.len value / 2 - 1 in
        do modes <- GoString.slice value 1 (numPrefixes + 1);
        do symbols <- GoString.slice_from value (numPrefixes + 2);
        Done (set_prefixSymbols symbols (set_prefixModes modes s1))
    else Done s.

Fixpoint updateFeatures (features : list string) (s : Session)
  : Outcome Session :=
  match features with
  | [] => Done s
  | f :: rest => do s1 <- updateFeature f s; updateFeatures rest s1
  end.


(** ** The dispatch of inbound messages *)

(** What a handler returns: the session after the call, the event (or
    nil) and the error (or nil); or a panic. *)
Definition Result : Type := Outcome (Session * option Event * option error).

Definition ret_nil (s : Session) : Result := Done (s, None, None).
Definition ret_event (ev : Event) (s : Session) : Result := Done (s, Some ev, None).
Definition ret_error (e : error) (s : Session) : Result := Done (s, None, Some e).

(** The case labels of the [switch msg.Command] of
    [handleMessageRegistered]. *)
Inductive Case : Type :=
| caseAUTHENTICATE | caseLoggedin | caseSaslEnd | caseWelcome | caseIsupport
| caseWhoreply | caseEndofwho | caseCAP | caseJOIN | casePART | caseKICK
| caseQUIT | caseMononline | caseMonoffline | caseNamreply | caseEndofnames
| caseTopic | caseTopicwhotime | caseNotopic | caseTOPIC | caseMODE
| caseINVITE | caseInviting | caseAWAY | casePRIVMSG | caseTAGMSG | caseBATCH
| caseNICK | caseREAD | caseBOUNCER | casePING | caseERROR | caseFAIL
| caseMonlistisfull | caseDefault.

Definition switch (cmd : string) : Case :=
  if cmd == "AUTHENTICATE" then caseAUTHENTICATE
  else if cmd == rplLoggedin then caseLoggedin
  else if (cmd == errNicklocked) || (cmd == errSaslfail) || (cmd == errSasltoolong)
          || (cmd == errSaslaborted) || (cmd == errSaslalready)
          || (cmd == rplSaslmechs) then caseSaslEnd
  else if cmd == rplWelcome then caseWelcome
  else if cmd == rplIsupport then caseIsupport
  else if cmd == rplWhoreply then caseWhoreply
  else if cmd == rplEndofwho then caseEndofwho
  else if cmd == "CAP" then caseCAP
  else if cmd == "JOIN" then caseJOIN
  else if cmd == "PART" then casePART
  else if cmd == "KICK" then caseKICK
  else if cmd == "QUIT" then caseQUIT
  else if cmd == rplMononline then caseMononline
  else if cmd == rplMonoffline then caseMonoffline
  else if cmd == rplNamreply then caseNamreply
  else if cmd == rplEndofnames then caseEndofnames
  else if cmd == rplTopic then caseTopic
  else if cmd == rplTopicwhotime then caseTopicwhotime
  else if cmd == rplNotopic then caseNotopic
  else if cmd == "TOPIC" then caseTOPIC
  else if cmd == "MODE" then caseMODE
  else if cmd == "INVITE" then caseINVITE
  else if cmd == rplInviting then caseInviting
  else if cmd == "AWAY" then caseAWAY
  else if (cmd == "PRIVMSG") || (cmd == "NOTICE") then casePRIVMSG
  else if cmd == "TAGMSG" then caseTAGMSG
  else if cmd == "BATCH" then caseBATCH
  else if cmd == "NICK" then caseNICK
  else if cmd == "READ" then caseREAD
  else if cmd == "BOUNCER" then caseBOUNCER
  else if cmd == "PING" then casePING
  else if cmd == "ERROR" then caseERROR
  else if (cmd == "FAIL") || (cmd == "WARN") || (cmd == "NOTE") then caseFAIL
  else if cmd == errMonlistisfull then caseMonlistisfull
  else caseDefault.

(** [newMessageEvent]: on an error the zero [MessageEvent] is returned
    with it. *)
Definition newMessageEvent (msg : Message) (now : Time) (s : Session)
  : MessageEvent * option error :=
  match Prefix_of msg with
  | None => (MessageEvent_zero, Some errMissingPrefix)
  | Some pfx =>
      match ParseParams msg 2 with
      | Some e => (MessageEvent_zero, Some e)
      | None =>
          let target := param msg 0 in
          let content := param msg 1 in
          let targetCf := Casemap s target in
          match channels s !! targetCf with
          | Some c =>
              ({| MessageEvent_User := Prefix_Name pfx;
                  MessageEvent_Target := Channel_Name c;
                  MessageEvent_TargetIsChannel := true;
                  MessageEvent_Command := Command msg;
                  MessageEvent_Content := content;
                  MessageEvent_Time := TimeOrNow msg now |}, None)
          | None =>
              ({| MessageEvent_User := Prefix_Name pfx;
                  MessageEvent_Target := target;
                  MessageEvent_TargetIsChannel := false;
                  MessageEvent_Command := Command msg;
                  MessageEvent_Content := content;
                  MessageEvent_Time := TimeOrNow msg now |}, None)
          end
      end
  end.

(** [s.channels[channelCf].Members] is a Go map, shared by every copy of
    the [Channel] value: an update of it through a copy is an update of
    the entry of [s.channels]. *)
Definition updateMembers (channelCf : string) (c : Channel)
    (members : gmap ptr string) (s : Session) : Session :=
  set_channels (<[channelCf := Channel_set_Members members c]> (channels s)) s.

(** The loop of the CAP ACK case. *)
Fixpoint capAck (caps : list Cap) (s : Session) : Outcome Session :=
  match caps with
  | [] => Done s
  | c :: rest =>
      let s1 :=
        if Cap_Enable c
        then set_enabledCaps ({[Cap_Name c]} ∪ enabledCaps s) s
        else set_enabledCaps (enabledCaps s ∖ {[Cap_Name c]}) s in
      do s2 <-
        match auth s1 with
        | Some a =>
            if Cap_Name c == "sasl"
            then send (NewMessage "AUTHENTICATE" [Handshake a]) s1
            else if negb (bool_decide (channels s1 = ∅))
                    && (Cap_Name c == "multi-prefix")
            then sendAll (map (fun kc => NewMessage "NAMES" [fst kc])
                              (map_to_list (channels s1))) s1
            else Done s1
        | None =>
            if negb (bool_decide (channels s1 = ∅))
               && (Cap_Name c == "multi-prefix")
            then sendAll (map (fun kc => NewMessage "NAMES" [fst kc])
                              (map_to_list (channels s1))) s1
            else Done s1
        end;
      capAck rest s2
  end.

(** The loop of the CAP NEW case. *)
Fixpoint capNew (caps : list Cap) (s : Session) : Outcome Session :=
  match caps with
  | [] => Done s
  | c :: rest =>
      let s1 := set_availableCaps (<[Cap_Name c := Cap_Value c]> (availableCaps s)) s in
      if negb (bool_decide (Cap_Name c ∈ SupportedCapabilities)) then capNew rest s1
      else if bool_decide (Cap_Name c ∈ enabledCaps s1) then capNew rest s1
      else do s2 <- send (NewMessage "CAP" ["REQ"; Cap_Name c]) s1; capNew rest s2
  end.

(** The loop of the CAP DEL case. *)
Fixpoint capDel (caps : list Cap) (s : Session) : Session :=
  match caps with
  | [] => s
  | c :: rest =>
      capDel rest
        (set_enabledCaps (enabledCaps s ∖ {[Cap_Name c]})
           (set_availableCaps (delete (Cap_Name c) (availableCaps s)) s))
  end.

(** The loop of the QUIT case over [s.channels]; [chans] is the slice
    [channels] being appended to. *)
Fixpoint quitLoop (u : ptr) (nickCf : string) (entries : list (string * Channel))
    (chans : list string) (s : Session) : Outcome (Session * list string) :=
  match entries with
  | [] => Done (s, chans)
  | (channelCf, c) :: rest =>
      if bool_decide (is_Some (Members c !! u)) then
        let s1 := updateMembers channelCf c (delete u (Members c)) s in
        do s2 <- cleanUser u s1;
        let s3 := set_typings (Typings_Done (typings s2) channelCf nickCf) s2 in
        quitLoop u nickCf rest (chans ++ [Channel_Name c])%list s3
      else quitLoop u nickCf rest chans s
  end.

(** The loops of the RPL_MONONLINE and RPL_MONOFFLINE cases;
    [online] tells which of the two numerics is handled. *)
Fixpoint monitorLoop (online : bool) (targets : list string) (s : Session)
  : Outcome (Session * option Event) :=
  match targets with
  | [] => Done (s, None)
  | target :: rest =>
      match ParsePrefix target with
      | None => monitorLoop online rest s
      | Some prefix =>
          let nickCf := casemap s (Prefix_Name prefix) in
          if bool_decide (nickCf ∈ monitors s) then
            let '(p, s1) := ensureUser nickCf prefix s in
            do u <- deref s1 p;
            if online then
              if User_Disconnected u then
                Done (store p (User_set_Disconnected false u) s1,
                      Some (UserOnlineEvent (Prefix_Name (User_Name u))))
              else monitorLoop online rest s1
            else
              if negb (User_Disconnected u) then
                Done (store p (User_set_Disconnected true u) s1,
                      Some (UserOfflineEvent (Prefix_Name (User_Name u))))
              else monitorLoop online rest s1
          else monitorLoop online rest s
      end
  end.

(** The loop of the RPL_NAMREPLY case; [members] is the member map of the
    channel. *)
Fixpoint namesLoop (names : list Member) (members : gmap ptr string)
    (s : Session) : Session * gmap ptr string :=
  match names with
  | [] => (s, members)
  | name :: rest =>
      let nickCf := Casemap s (Prefix_Name (Member_Name name)) in
      let '(p, s1) := ensureUser nickCf (Member_Name name) s in
      namesLoop rest (<[p := Member_PowerLevel name]> members) s1
  end.

(** [sort.Slice] of the MODE case: the symbols ordered by their index in
    [s.prefixSymbols].  Elements of equal rank keep their order, as with
    the insertion sort that Go applies to short slices. *)
Fixpoint insertByRank (symbols : string) (b : ascii) (l : list ascii)
  : list ascii :=
  match l with
  | [] => [b]
  | x :: rest =>
      if GoString.IndexByte symbols b <? GoString.IndexByte symbols x
      then b :: x :: rest
      else x :: insertByRank symbols b rest
  end.

Definition sortByRank (symbols : string) (l : list ascii) : list ascii :=
  foldl (fun acc b => insertByRank symbols b acc) [] l.

(** [append(m[:j], m[j+1:]...)] *)
Definition removeAt (j : nat) (l : list ascii) : list ascii :=
  (take j l ++ drop (S j) l)%list.

(** The loop of the MODE case over the parsed changes. *)
Fixpoint modeLoop (changes : list ModeChange) (members : gmap ptr string)
    (s : Session) : Outcome (gmap ptr string) :=
  match changes with
  | [] => Done members
  | change :: rest =>
      let i := GoString.IndexByte (prefixModes s) (ModeChange_Mode change) in
      if i <? 0 then modeLoop rest members s
      else
        let nickCf := Casemap s (ModeChange_Param change) in
        match users s !! nickCf with
        | None => modeLoop rest members s   (* a nil [*User] is in no member map *)
        | Some user =>
            match members !! user with
            | None => modeLoop rest members s
            | Some membership =>
                do sym <- GoString.index (prefixSymbols s) i;
                let symbol := GoString.of_byte sym in
                let old := list_ascii_of_string membership in
                let newMembership :=
                  if ModeChange_Enable change
                  then sortByRank (prefixSymbols s) (old ++ [symbol])%list
                  else
                    let j := GoString.IndexByte membership symbol in
                    if 0 <=? j then removeAt (Z.to_nat j) old else [] in
                modeLoop rest
                  (<[user := string_of_list_ascii newMembership]> members) s
            end
        end
  end.

Definition handleMessageRegistered (msg : Message) (playback : bool)
    (now : Time) (s : Session) : Result :=
  match switch (Command msg) with
  | caseAUTHENTICATE =>
      match auth s with
      | None => ret_nil s
      | Some a =>
          match ParseParams msg 1 with
          | Some e => ret_error e s
          | None =>
              let payload := param msg 0 in
              do s1 <- send (NewMessage "AUTHENTICATE"
                               [match Respond a payload with
                                | Some res => res
                                | None => "*"
                                end]) s;
              ret_nil s1
          end
      end
  | caseLoggedin =>
      match ParseParams msg 3 with
      | Some e => ret_error e s
      | None =>
          let nuh := param msg 1 in
          let s1 := set_acct (param msg 2) s in
          match ParsePrefix nuh with
          | None => Panic   (* [prefix.User] on a nil [*Prefix] *)
          | Some prefix =>
              ret_nil (set_host (Prefix_Host prefix)
                         (set_user (Prefix_User prefix) s1))
          end
      end
  | caseSaslEnd =>
      do s1 <- match auth s with
               | Some _ => endRegistration s
               | None => Done s
               end;
      do rest <- Params_from msg 1;
      ret_event (ErrorEvent SeverityFail (Command msg)
                   ("Registration failed: " ++ GoString.Join rest " ")) s1
  | caseWelcome =>
      match ParseParams msg 1 with
      | Some e => ret_error e s
      | None =>
          let s1 := set_nick (param msg 0) s in
          let s2 := set_nickCf (Casemap s1 (nick s1)) s1 in
          let s3 := set_registered true s2 in
          let '(p, s4) :=
            alloc (User_new {| Prefix_Name := nick s3; Prefix_User := user s3;
                               Prefix_Host := host s3 |}) s3 in
          let s5 := set_users (<[nickCf s4 := p]> (users s4)) s4 in
          if host s5 == ""
          then do s6 <- send (NewMessage "WHO" [nick s5]) s5; ret_nil s6
          else ret_nil s5
      end
  | caseIsupport =>
      if (length (Params msg) <? 3)%nat
      then ret_error (errNotEnoughParams (Command msg) 3) s
      else
        do s1 <- updateFeatures
                   (take (length (Params msg) - 2) (drop 1 (Params msg))) s;
        ret_event RegisteredEvent s1
  | caseWhoreply =>
      match ParseParams msg 8 with
      | Some e => ret_error e s
      | None =>
          let username := param msg 2 in
          let host_ := param msg 3 in
          let nick_ := param msg 5 in
          let flags := param msg 6 in
          let nickCf_ := Casemap s nick_ in
          do f0 <- GoString.index flags 0;
          let away := f0 =? 71 in
          let s1 :=
            if nickCf s == nickCf_
            then set_host host_ (set_user username s) else s in
          match users s1 !! nickCf_ with
          | Some p => do u <- deref s1 p; ret_nil (store p (User_set_Away away u) s1)
          | None => ret_nil s1
          end
      end
  | caseEndofwho => ret_nil s
  | caseCAP =>
      match ParseParams msg 3 with
      | Some e => ret_error e s
      | None =>
          let subcommand := param msg 1 in
          let caps := param msg 2 in
          if subcommand == "ACK" then
            do s1 <- capAck (ParseCaps caps) s; ret_nil s1
          else if subcommand == "NAK" then ret_nil s
          else if subcommand == "NEW" then
            do s1 <- capNew (ParseCaps caps) s; ret_nil s1
          else if subcommand == "DEL" then ret_nil (capDel (ParseCaps caps) s)
          else ret_nil s
      end
  | caseJOIN =>
      match Prefix_of msg with
      | None => ret_error errMissingPrefix s
      | Some pfx =>
          match ParseParams msg 1 with
          | Some e => ret_error e s
          | None =>
              let channel := param msg 0 in
              if playback then
                ret_event (UserJoinEvent (Prefix_Name pfx) channel
                                         (TimeOrNow msg now)) s
              else
                let nickCf_ := Casemap s (Prefix_Name pfx) in
                let channelCf := Casemap s channel in
                if IsMe s nickCf_ then
                  let s1 := set_channels
                              (<[channelCf := Channel_new (param msg 0)]>
                                 (channels s)) s in
                  if HasCapability s1 "away-notify"
                  then do s2 <- send (NewMessage "WHO" [channel]) s1; ret_nil s2
                  else ret_nil s1
                else
                  match channels s !! channelCf with
                  | Some c =>
                      let '(p, s1) := ensureUser nickCf_ pfx s in
                      let s2 := updateMembers channelCf c
                                  (<[p := ""]> (Members c)) s1 in
                      ret_event (UserJoinEvent (Prefix_Name pfx) (Channel_Name c)
                                               (TimeOrNow msg now)) s2
                  | None => ret_nil s
                  end
          end
      end
  | casePART =>
      match Prefix_of msg with
      | None => ret_error errMissingPrefix s
      | Some pfx =>
          match ParseParams msg 1 with
          | Some e => ret_error e s
          | None =>
              let channel := param msg 0 in
              if playback then
                ret_event (UserPartEvent (Prefix_Name pfx) channel
                                         (TimeOrNow msg now)) s
              else
                let nickCf_ := Casemap s (Prefix_Name pfx) in
                let channelCf := Casemap s channel in
                if IsMe s nickCf_ then
                  match channels s !! channelCf with
                  | Some c =>
                      let s1 := set_channels (delete channelCf (channels s)) s in
                      do s2 <- cleanUsers (map fst (map_to_list (Members c))) s1;
                      ret_event (SelfPartEvent (Channel_Name c)) s2
                  | None => ret_nil s
                  end
                else
                  match channels s !! channelCf with
                  | Some c =>
                      match users s !! nickCf_ with
                      | Some u =>
                          let s1 := updateMembers channelCf c
                                      (delete u (Members c)) s in
                          do s2 <- cleanUser u s1;
                          let s3 := set_typings
                                      (Typings_Done (typings s2) channelCf nickCf_)
                                      s2 in
                          do rec <- deref s3 u;
                          ret_event (UserPartEvent (Prefix_Name (User_Name rec))
                                       (Channel_Name c) (TimeOrNow msg now)) s3
                      | None => ret_nil s
                      end
                  | None => ret_nil s
                  end
          end
      end
  | caseKICK =>
      match ParseParams msg 2 with
      | Some e => ret_error e s
      | None =>
          let channel := param msg 0 in
          let nick_ := param msg 1 in
          if playback then
            ret_event (UserPartEvent nick_ channel (TimeOrNow msg now)) s
          else
            let nickCf_ := Casemap s nick_ in
            let channelCf := Casemap s channel in
            if IsMe s nickCf_ then
              match channels s !! channelCf with
              | Some c =>
                  let s1 := set_channels (delete channelCf (channels s)) s in
                  do s2 <- cleanUsers (map fst (map_to_list (Members c))) s1;
                  ret_event (SelfPartEvent (Channel_Name c)) s2
              | None => ret_nil s
              end
            else
              match channels s !! channelCf with
              | Some c =>
                  match users s !! nickCf_ with
                  | Some u =>
                      let s1 := updateMembers channelCf c
                                  (delete u (Members c)) s in
                      do s2 <- cleanUser u s1;
                      let s3 := set_typings
                                  (Typings_Done (typings s2) channelCf nickCf_)
                                  s2 in
                      ret_event (UserPartEvent nick_ (Channel_Name c)
                                               (TimeOrNow msg now)) s3
                  | None => ret_nil s
                  end
              | None => ret_nil s
              end
      end
  | caseQUIT =>
      match Prefix_of msg with
      | None => ret_error errMissingPrefix s
      | Some pfx =>
          if playback then
            ret_event (UserQuitEvent (Prefix_Name pfx) [] (TimeOrNow msg now)) s
          else
            let nickCf_ := Casemap s (Prefix_Name pfx) in
            match users s !! nickCf_ with
            | Some u =>
                do rec <- deref s u;
                let s1 := store u (User_set_Disconnected true rec) s in
                do (s2, chans) <-
                  quitLoop u nickCf_ (map_to_list (channels s1)) [] s1;
                do rec2 <- deref s2 u;
                ret_event (UserQuitEvent (Prefix_Name (User_Name rec2)) chans
                                         (TimeOrNow msg now)) s2
            | None => ret_nil s
            end
      end
  | caseMononline =>
      do targets <- Params_index msg 1;
      do (s1, ev) <- monitorLoop true (GoString.Split "," targets) s;
      Done (s1, ev, None)
  | caseMonoffline =>
      do targets <- Params_index msg 1;
      do (s1, ev) <- monitorLoop false (GoString.Split "," targets) s;
      Done (s1, ev, None)
  | caseNamreply =>
      match ParseParams msg 4 with
      | Some e => ret_error e s
      | None =>
          let channel := param msg 2 in
          let names := param msg 3 in
          let channelCf := Casemap s channel in
          match channels s !! channelCf with
          | Some c =>
              let '(s1, members) :=
                namesLoop (ParseNameReply names (prefixSymbols s)) (Members c) s in
              ret_nil (updateMembers channelCf c members s1)
          | None => ret_nil s
          end
      end
  | caseEndofnames =>
      match ParseParams msg 2 with
      | Some e => ret_error e s
      | None =>
          let channel := param msg 1 in
          let channelCf := Casemap s channel in
          match channels s !! channelCf with
          | Some c =>
              if negb (complete c) then
                let c1 := Channel_set_complete true c in
                let s1 := set_channels (<[channelCf := c1]> (channels s)) s in
                let requested :=
                  match pendingChannels s1 !! channelCf with
                  | Some stamp => now - stamp <? 5 * Second
                  | None => false
                  end in
                ret_event (SelfJoinEvent (Channel_Name c1) requested (Topic c1)) s1
              else ret_nil s
          | None => ret_nil s
          end
      end
  | caseTopic =>
      match ParseParams msg 3 with
      | Some e => ret_error e s
      | None =>
          let channel := param msg 1 in
          let topic := param msg 2 in
          let channelCf := Casemap s channel in
          match channels s !! channelCf with
          | Some c =>
              ret_nil (set_channels
                         (<[channelCf := Channel_set_Topic topic c]> (channels s)) s)
          | None => ret_nil s
          end
      end
  | caseTopicwhotime =>
      match ParseParams msg 4 with
      | Some e => ret_error e s
      | None =>
          let channel := param msg 1 in
          let topicWho := param msg 2 in
          let topicTime := param msg 3 in
          let channelCf := Casemap s channel in
          let t := fst (strconv.ParseInt topicTime) in
          match channels s !! channelCf with
          | Some c =>
              ret_nil (set_channels
                         (<[channelCf :=
                              Channel_set_TopicTime (t * Second)
                                (Channel_set_TopicWho (ParsePrefix topicWho) c)]>
                            (channels s)) s)
          | None => ret_nil s
          end
      end
  | caseNotopic =>
      match ParseParams msg 2 with
      | Some e => ret_error e s
      | None =>
          let channel := param msg 1 in
          let channelCf := Casemap s channel in
          match channels s !! channelCf with
          | Some c =>
              ret_nil (set_channels
                         (<[channelCf := Channel_set_Topic "" c]> (channels s)) s)
          | None => ret_nil s
          end
      end
  | caseTOPIC =>
      match Prefix_of msg with
      | None => ret_error errMissingPrefix s
      | Some pfx =>
          match ParseParams msg 2 with
          | Some e => ret_error e s
          | None =>
              let channel := param msg 0 in
              let topic := param msg 1 in
              if playback then
                ret_event (TopicChangeEvent channel topic (TimeOrNow msg now)) s
              else
                let channelCf := Casemap s channel in
                match channels s !! channelCf with
                | Some c =>
                    let c1 := Channel_set_TopicTime (TimeOrNow msg now)
                                (Channel_set_TopicWho (Some pfx)
                                   (Channel_set_Topic topic c)) in
                    ret_event (TopicChangeEvent (Channel_Name c1) (Topic c1)
                                                (TimeOrNow msg now))
                              (set_channels (<[channelCf := c1]> (channels s)) s)
                | None => ret_nil s
                end
          end
      end
  | caseMODE =>
      match ParseParams msg 2 with
      | Some e => ret_error e s
      | None =>
          let channel := param msg 0 in
          let mode := GoString.Join (drop 1 (Params msg)) " " in
          if playback then
            ret_event (ModeChangeEvent channel mode (TimeOrNow msg now)) s
          else
            let channelCf := Casemap s channel in
            match channels s !! channelCf with
            | Some c =>
                match ParseChannelMode (param msg 1) (drop 2 (Params msg))
                        (chanmodes s) (prefixModes s) with
                | inl e => ret_error (errChannelMode e) s
                | inr modeChanges =>
                    do members <- modeLoop modeChanges (Members c) s;
                    ret_event (ModeChangeEvent (Channel_Name c) mode
                                               (TimeOrNow msg now))
                              (updateMembers channelCf c members s)
                end
            | None => ret_nil s
            end
      end
  | caseINVITE =>
      match Prefix_of msg with
      | None => ret_error errMissingPrefix s
      | Some pfx =>
          match ParseParams msg 2 with
          | Some e => ret_error e s
          | None =>
              ret_event (InviteEvent (Prefix_Name pfx) (param msg 0) (param msg 1)) s
          end
      end
  | caseInviting =>
      match ParseParams msg 3 with
      | Some e => ret_error e s
      | None => ret_event (InviteEvent (nick s) (param msg 1) (param msg 2)) s
      end
  | caseAWAY =>
      match Prefix_of msg with
      | None => ret_error errMissingPrefix s
      | Some pfx =>
          let nickCf_ := Casemap s (Prefix_Name pfx) in
          match users s !! nickCf_ with
          | Some p =>
              do u <- deref s p;
              ret_nil (store p (User_set_Away (length (Params msg) =? 1)%nat u) s)
          | None => ret_nil s
          end
      end
  | casePRIVMSG =>
      match Prefix_of msg with
      | None => ret_error errMissingPrefix s
      | Some pfx =>
          match ParseParams msg 1 with
          | Some e => ret_error e s
          | None =>
              let target := param msg 0 in
              let s1 :=
                if playback then s
                else
                  let targetCf := casemap s target in
                  let nickCf_ := casemap s (Prefix_Name pfx) in
                  set_typings (Typings_Done (typings s) targetCf nickCf_) s in
              let '(ev, err) := newMessageEvent msg now s1 in
              Done (s1, Some (EvMessage ev), err)
          end
      end
  | caseTAGMSG =>
      if playback then ret_nil s
      else
        match Prefix_of msg with
        | None => ret_error errMissingPrefix s
        | Some pfx =>
            match ParseParams msg 1 with
            | Some e => ret_error e s
            | None =>
                let target := param msg 0 in
                let targetCf := casemap s target in
                let nickCf_ := casemap s (Prefix_Name pfx) in
                if IsMe s (Prefix_Name pfx) then ret_nil s
                else
                  match Tags msg !! "+typing" with
                  | Some t =>
                      if t == "active" then
                        ret_nil (set_typings
                                   (Typings_Active (typings s) targetCf nickCf_) s)
                      else if (t == "paused") || (t == "done") then
                        ret_nil (set_typings
                                   (Typings_Done (typings s) targetCf nickCf_) s)
                      else ret_nil s
                  | None => ret_nil s
                  end
            end
        end
  | caseBATCH =>
      match ParseParams msg 1 with
      | Some e => ret_error e s
      | None =>
          let id := param msg 0 in
          if GoString.len id =? 0 then ret_error errEmptyBatchID s
          else
            do id0 <- GoString.index id 0;
            let batchStart := id0 =? 43 in
            do id <- GoString.slice_from id 1;
            if batchStart then
              match ParseParams msg 2 with
              | Some e => ret_error e s
              | None =>
                  let name := param msg 1 in
                  if name == "chathistory" then
                    match ParseParams msg 3 with
                    | Some e => ret_error e s
                    | None =>
                        let target := param msg 2 in
                        ret_nil (set_chBatches
                                   (<[id := {| HistoryEvent_Target := target;
                                               HistoryEvent_Messages := [] |}]>
                                      (chBatches s)) s)
                    end
                  else if name == "draft/chathistory-targets" then
                    ret_nil (set_targetsBatch (Some ∅) (set_targetsBatchID id s))
                  else if name == "soju.im/search" then
                    ret_nil (set_searchBatch [] (set_searchBatchID id s))
                  else ret_nil s
              end
            else
              match chBatches s !! id with
              | Some b =>
                  let s1 := set_chBatches (delete id (chBatches s)) s in
                  let s2 := set_chReqs
                              (chReqs s1 ∖ {[Casemap s1 (HistoryEvent_Target b)]})
                              s1 in
                  ret_event (HistoryEvent_event b) s2
              | None =>
                  if targetsBatchID s == id then
                    let s1 := set_targetsBatchID "" s in
                    let s2 := set_chReqs (chReqs s1 ∖ {[""]}) s1 in
                    ret_event (EvHistoryTargets (targetsBatch s2)) s2
                  else if searchBatchID s == id then
                    let s1 := set_searchBatchID "" s in
                    ret_event (EvSearch (searchBatch s1)) s1
                  else ret_nil s
              end
      end
  | caseNICK =>
      match Prefix_of msg with
      | None => ret_error errMissingPrefix s
      | Some pfx =>
          match ParseParams msg 1 with
          | Some e => ret_error e s
          | None =>
              let nick_ := param msg 0 in
              if playback then
                ret_event (UserNickEvent nick_ (Prefix_Name pfx)
                                         (TimeOrNow msg now)) s
              else
                let nickCf_ := Casemap s (Prefix_Name pfx) in
                let newNick := nick_ in
                let newNickCf := Casemap s newNick in
                match users s !! nickCf_ with
                | Some formerUser =>
                    do rec <- deref s formerUser;
                    let name :=
                      {| Prefix_Name := newNick;
                         Prefix_User := Prefix_User (User_Name rec);
                         Prefix_Host := Prefix_Host (User_Name rec) |} in
                    let s1 := store formerUser (User_set_Name name rec) s in
                    let s2 := set_users (delete nickCf_ (users s1)) s1 in
                    let s3 := set_users (<[newNickCf := formerUser]> (users s2)) s2 in
                    if IsMe s3 (Prefix_Name pfx) then
                      ret_event (SelfNickEvent (Prefix_Name pfx))
                                (set_nickCf newNickCf (set_nick newNick s3))
                    else
                      ret_event (UserNickEvent nick_ (Prefix_Name pfx)
                                               (TimeOrNow msg now)) s3
                | None => ret_nil s
                end
          end
      end
  | caseREAD =>
      if (length (Params msg) <? 2)%nat then ret_nil s
      else
        match ParseParams msg 2 with
        | Some e => ret_error e s
        | None =>
            let target := param msg 0 in
            let timestamp := param msg 1 in
            if negb (GoString.HasPrefix timestamp "timestamp=") then ret_nil s
            else
              match parseTimestamp (GoString.TrimPrefix timestamp "timestamp=") with
              | Some t => ret_event (ReadEvent target t) s
              | None => ret_nil s
              end
        end
  | caseBOUNCER =>
      if (length (Params msg) <? 3)%nat then ret_nil s
      else if negb (param msg 0 == "NETWORK") || negb (netID s == "") then ret_nil s
      else
        let id := param msg 1 in
        let attrs := parseTags (param msg 2) in
        ret_event (BouncerNetworkEvent id (default "" (attrs !! "name"))) s
  | casePING =>
      match ParseParams msg 1 with
      | Some e => ret_error e s
      | None => do s1 <- send (NewMessage "PONG" [param msg 0]) s; ret_nil s1
      end
  | caseERROR => ret_nil (Close s)
  | caseFAIL =>
      match ParseParams msg 2 with
      | Some e => ret_error e s
      | None =>
          let code := param msg 1 in
          let severity :=
            if Command msg == "FAIL" then SeverityFail
            else if Command msg == "WARN" then SeverityWarn
            else SeverityNote in
          ret_event (ErrorEvent severity code
                       (GoString.Join (drop 2 (Params msg)) " ")) s
      end
  | caseMonlistisfull => ret_nil s
  | caseDefault =>
      if IsReply msg then
        if (length (Params msg) <? 2)%nat
        then ret_error (errNotEnoughParams (Command msg) 2) s
        else if (Command msg == errUnknowncommand) && (param msg 1 == "BOUNCER")
        then ret_nil s
        else
          ret_event (ErrorEvent (ReplySeverity (Command msg)) (Command msg)
                       (GoString.Join (drop 1 (Params msg)) " ")) s
      else ret_nil s
  end.

(** [handleRegistered]: messages tagged with the id of an open batch are
    played back into its accumulator. *)
Definition handleRegistered (msg : Message) (now : Time) (s : Session) : Result :=
  match Tags msg !! "batch" with
  | None => handleMessageRegistered msg false now s
  | Some id =>
      if id == targetsBatchID s then
        match ParseParams msg 3 with
        | Some e => ret_error e s
        | None =>
            let target := param msg 1 in
            let timestamp := param msg 2 in
            match parseTimestamp timestamp with
            | None => ret_nil s
            | Some t =>
                match targetsBatch s with
                | None => Panic   (* assignment to an entry of a nil map *)
                | Some targets =>
                    handleMessageRegistered msg false now
                      (set_targetsBatch (Some (<[target := t]> targets)) s)
                end
            end
        end
      else if id == searchBatchID s then
        do (s1, ev, err) <- handleMessageRegistered msg true now s;
        match err with
        | Some e => ret_error e s1
        | None =>
            match ev with
            | Some (EvMessage m) =>
                ret_nil (set_searchBatch (searchBatch s1 ++ [m])%list s1)
            | _ => handleMessageRegistered msg false now s1
            end
        end
      else
        match chBatches s !! id with
        | Some b =>
            do (s1, ev, err) <- handleMessageRegistered msg true now s;
            match err with
            | Some e => ret_error e s1
            | None =>
                match ev with
                | Some e =>
                    ret_nil (set_chBatches
                               (<[id := {| HistoryEvent_Target := HistoryEvent_Target b;
                                           HistoryEvent_Messages :=
                                             (HistoryEvent_Messages b ++ [e])%list |}]>
                                  (chBatches s1)) s1)
                | None => handleMessageRegistered msg false now s1
                end
            end
        | None => handleMessageRegistered msg false now s
        end
  end.

Definition handleUnregistered (msg : Message) (now : Time) (s : Session) : Result :=
  if Command msg == errNicknameinuse then
    match ParseParams msg 2 with
    | Some e => ret_error e s
    | None => do s1 <- send (NewMessage "NICK" [param msg 1 ++ "_"]) s; ret_nil s1
    end
  else if Command msg == rplSaslsuccess then
    match auth s with
    | Some _ => do s1 <- endRegistration s; ret_nil s1
    | None => ret_nil s
    end
  else handleRegistered msg now s.

Definition HandleMessage (msg : Message) (now : Time) (s : Session) : Result :=
  if registered s then handleRegistered msg now s
  else handleUnregistered msg now s.

End Session.

(** ** A reference implementation of the collaborators

    A small tokenizer, typing tracker and limiter with which the model
    runs on concrete inputs.  Nothing proved for all collaborators depends
    on it. *)

Module Reference.

Definition lower (c : ascii) : ascii :=
  let b := GoString.byte c in
  if (65 <=? b) && (b <=? 90) then GoString.of_byte (b + 32) else c.

Fixpoint mapBytes (f : ascii -> ascii) (s : string) : string :=
  match s with
  | EmptyString => EmptyString
  | String c s' => String (f c) (mapBytes f s')
  end.

Definition casemapASCII (name : string) : string := mapBytes lower name.

Definition casemapRFC1459 (name : string) : string :=
  mapBytes (fun c =>
              let b := GoString.byte c in
              if b =? 91 then "{"%char
              else if b =? 93 then "}"%char
              else if b =? 92 then "|"%char
              else if b =? 126 then "^"%char
              else lower c) name.

(** [nick!user@host] *)
Definition parsePrefix (s : string) : option Prefix :=
  if s == "" then None
  else
    match GoString.cut "!" s with
    | Some (n, uh) =>
        match GoString.cut "@" uh with
        | Some (u, h) => Some {| Prefix_Name := n; Prefix_User := u; Prefix_Host := h |}
        | None => Some {| Prefix_Name := n; Prefix_User := uh; Prefix_Host := "" |}
        end
    | None =>
        match GoString.cut "@" s with
        | Some (n, h) => Some {| Prefix_Name := n; Prefix_User := ""; Prefix_Host := h |}
        | None => Some {| Prefix_Name := s; Prefix_User := ""; Prefix_Host := "" |}
        end
    end.

Definition parseCap (tok : string) : Cap :=
  let '(enable, tok) :=
    match tok with
    | String "-" rest => (false, rest)
    | _ => (true, tok)
    end in
  match GoString.cut "=" tok with
  | Some (n, v) => {| Cap_Name := n; Cap_Value := v; Cap_Enable := enable |}
  | None => {| Cap_Name := tok; Cap_Value := ""; Cap_Enable := enable |}
  end.

Definition parseCaps (caps : string) : list Cap :=
  map parseCap (filter (fun tok => tok ≠ "") (GoString.Split " " caps)).

Fixpoint splitPower (fuel : nat) (symbols name power : string) : string * string :=
  match fuel, name with
  | S fuel', String c rest =>
      if 0 <=? GoString.IndexByte symbols c
      then splitPower fuel' symbols rest (power ++ String c "")
      else (power, name)
  | _, _ => (power, name)
  end.

Definition parseNameReply (names symbols : string) : list Member :=
  omap (fun tok =>
          let '(power, nuh) := splitPower (String.length tok) symbols tok "" in
          match parsePrefix nuh with
          | Some p => Some {| Member_PowerLevel := power; Member_Name := p |}
          | None => None
          end)
       (GoString.Split " " names).

(** Mode letters of [prefixModes] take a parameter, the others do not. *)
Fixpoint parseModes (letters : list ascii) (enable : bool) (args : list string)
    (prefixModes : string) : string + list ModeChange :=
  match letters with
  | [] => inr []
  | c :: rest =>
      if Ascii.eqb c "+" then parseModes rest true args prefixModes
      else if Ascii.eqb c "-" then parseModes rest false args prefixModes
      else if 0 <=? GoString.IndexByte prefixModes c then
        match args with
        | a :: args' =>
            match parseModes rest enable args' prefixModes with
            | inr l => inr ({| ModeChange_Enable := enable; ModeChange_Mode := c;
                               ModeChange_Param := a |} :: l)
            | inl e => inl e
            end
        | [] => inl "missing mode parameter"
        end
      else
        match parseModes rest enable args prefixModes with
        | inr l => inr ({| ModeChange_Enable := enable; ModeChange_Mode := c;
                           ModeChange_Param := "" |} :: l)
        | inl e => inl e
        end
  end.

Definition isDigit (c : ascii) : bool :=
  let b := GoString.byte c in (48 <=? b) && (b <=? 57).

(** A limiter without refill: [burst] tokens, one per allowed event. *)
#[global] Instance collaborators : Collaborators := {|
  CasemapASCII := casemapASCII;
  CasemapRFC1459 := casemapRFC1459;
  ParsePrefix := parsePrefix;
  ParseCaps := parseCaps;
  ParseNameReply := parseNameReply;
  ParseChannelMode := fun mode args _ prefixModes =>
    parseModes (list_ascii_of_string mode) true args prefixModes;
  parseTimestamp := strconv.Atoi;
  parseTags := fun _ => ∅;
  formatTags := fun _ => "";
  TimeOrNow := fun _ now => now;
  IsReply := fun msg =>
    (String.length (Command msg) =? 3)%nat
    && forallb isDigit (list_ascii_of_string (Command msg));
  ReplySeverity := fun code =>
    match code with
    | String "4" _ | String "5" _ => SeverityFail
    | _ => SeverityNote
    end;
  formatTimestamp := fun t => "timestamp=" ++ strconv.Itoa t;
  Typings := gset (string * string);
  NewTypings := ∅;
  Typings_Active := fun t target nick => {[(target, nick)]} ∪ t;
  Typings_Done := fun t target nick => t ∖ {[(target, nick)]};
  Typings_Close := fun _ => ∅;
  Limiter := Z;
  NewLimiter := fun _ _ burst => burst;
  Limiter_Allow := fun tokens _ =>
    if 1 <=? tokens then (true, tokens - 1) else (false, tokens);
  Limiter_Reserve := fun tokens _ => tokens - 1;
|}.

Definition params : SessionParams :=
  {| Nickname := "me"; Username := "me"; RealName := "Me"; NetID := "";
     Auth := None |}.

(** The session of the nick [me], before anything is sent. *)
Definition session : Session := Session_init params.

Definition msg (prefix : string) (command : string) (params : list string)
  : Message :=
  {| Tags := ∅; Prefix_of := parsePrefix prefix; Command := command;
     Params := params |}.

(** The session after the welcome and the join of [#c], with [alice] in
    the channel. *)
Definition joined : Session :=
  set_channels
    {[ "#c" := Channel_set_Members {[ 1%nat := "" ]} (Channel_new "#c") ]}
    (set_users {[ "me" := 0%nat; "alice" := 1%nat ]}
       (set_mem [User_new {| Prefix_Name := "me"; Prefix_User := "me";
                             Prefix_Host := "" |};
                 User_new {| Prefix_Name := "alice"; Prefix_User := "a";
                             Prefix_Host := "example.org" |}]
          (set_registered true session))).

(** The two bytes of U+00E9 and the four bytes of U+1F600. *)
Definition e_acute : string := GoString.of_bytes [195; 169].
Definition grinning_face : string := GoString.of_bytes [240; 159; 152; 128].

(** Feed messages to [HandleMessage], all at time [now]; the events
    returned, in order, with the final session. *)
Fixpoint run (msgs : list Message) (now : Time) (s : Session)
  : Outcome (Session * list (option Event * option error)) :=
  match msgs with
  | [] => Done (s, [])
  | m :: rest =>
      do (s1, ev, err) <- HandleMessage m now s;
      do (s2, evs) <- run rest now s1;
      Done (s2, (ev, err) :: evs)
  end.

End Reference.

(** ** Notions used to state the properties *)

Section Notions.

Context {C : Collaborators}.

(** The user record behind [u] is a member of some joined channel. *)
Definition hasMembership (u : ptr) (s : Session) : Prop :=
  exists (k : string) (c : Channel),
    channels s !! k = Some c /\ is_Some (Members c !! u).

(** The user record behind [u] is in the users map. *)
Definition inRoster (u : ptr) (s : Session) : Prop :=
  exists k : string, users s !! k = Some u.

(** The roster holds the record behind [u] under the casemapped name of
    the record and under no other key (section 3 of the specification:
    users are keyed by casemapped nickname). *)
Definition keyedByName (u : ptr) (s : Session) : Prop :=
  exists rec : User,
    mem s !! u = Some rec
    /\ forall k : string,
        users s !! k = Some u <-> k = casemap s (Prefix_Name (User_Name rec)).

(** [keyedByName], computed. *)
Definition keyedByNameb (u : ptr) (s : Session) : bool :=
  match mem s !! u with
  | Some rec =>
      let key := casemap s (Prefix_Name (User_Name rec)) in
      bool_decide (users s !! key = Some u)
      && forallb (fun kp => if (snd kp =? u)%nat then fst kp == key else true)
                 (map_to_list (users s))
  | None => false
  end.


(** The message is a live JOIN of the user of the session: the one message
    that stores a fresh channel, whose flag is unset. *)
Definition selfJoin (msg : Message) (playback : bool) (s : Session) : Prop :=
  switch (Command msg) = caseJOIN /\ playback = false
  /\ exists pfx : Prefix,
       Prefix_of msg = Some pfx
       /\ IsMe s (Casemap s (Prefix_Name pfx)) = true.


(** The entry of a channel after the QUIT loop has visited it. *)
Definition withoutMember (u : ptr) (c : Channel) : Channel :=
  Channel_set_Members (delete u (Members c)) c.

(** The casemapped name of the record behind [u] is monitored. *)
Definition monitored (u : ptr) (s : Session) : Prop :=
  exists rec : User,
    mem s !! u = Some rec
    /\ casemap s (Prefix_Name (User_Name rec)) ∈ monitors s.

(** The messages sent between two states of the session. *)
Definition sentBetween (s s' : Session) (msgs : list Message) : Prop :=
  out s' = (out s ++ msgs)%list.


(** The typing notifications that [Typing] and [TypingStop] send. *)
Definition typingActive (target : string) : Message :=
  WithTag "+typing" "active" (NewMessage "TAGMSG" [target]).

Definition typingDone (target : string) : Message :=
  WithTag "+typing" "done" (NewMessage "TAGMSG" [target]).

End Notions.

(** A byte, as [GoString.bytes] yields them. *)
Definition isByte (b : Z) : Prop := 0 <= b < 256.

(** A decoding step that did not fall back on an invalid byte. *)
Definition okRune (rw : Z * Z) : bool :=
  negb ((fst rw =? utf8.RuneError) && (snd rw =? 1)).

(** A chunk within the limit that is valid UTF-8 by itself: it begins and
    ends at character boundaries. *)
Definition chunkOk (chunkLen : Z) (c : string) : Prop :=
  GoString.len c <= chunkLen /\ utf8.ValidString c = true.


(** ** The rest of the interface of the session

    The queries and the builders of outbound messages that the handlers
    do not call. *)

Section Interface.

Context {C : Collaborators}.

(** [Users]: the nicknames of all known users, in the order in which the
    map is enumerated. *)
Fixpoint userNames (ps : list ptr) (s : Session) : Outcome (list string) :=
  match ps with
  | [] => Done []
  | p :: rest =>
      do u <- deref s p;
      do names <- userNames rest s;
      Done (Prefix_Name (User_Name u) :: names)
  end.

Definition Users (s : Session) : Outcome (list string) :=
  userNames (map snd (map_to_list (users s))) s.

(** [ChannelsSharedWith]: a nil slice is the empty list. *)
Definition ChannelsSharedWith (name : string) (s : Session)
  : Outcome (list string) :=
  match users s !! Casemap s name with
  | Some p =>
      do u <- deref s p;
      if negb (User_Disconnected u) then
        Done (omap (fun kc =>
                      if bool_decide (is_Some (Members (snd kc) !! p))
                      then Some (Channel_Name (snd kc)) else None)
                   (map_to_list (channels s)))
      else Done []
  | None => Done []
  end.

(** [Topic]: the zero values for a channel that is not joined. *)
Definition Session_Topic (channel : string) (s : Session)
  : string * option Prefix * Time :=
  match channels s !! Casemap s channel with
  | Some c => (Topic c, TopicWho c, TopicTime c)
  | None => ("", None, 0)
  end.

Definition SendRaw (raw : string) (s : Session) : Outcome Session :=
  send (NewMessage raw []) s.

Definition Part (channel reason : string) (s : Session) : Outcome Session :=
  send (NewMessage "PART" [channel; reason]) s.

Definition ChangeTopic (channel topic : string) (s : Session)
  : Outcome Session :=
  send (NewMessage "TOPIC" [channel; topic]) s.

Definition Quit (reason : string) (s : Session) : Outcome Session :=
  send (NewMessage "QUIT" [reason]) s.

Definition ChangeNick (nick : string) (s : Session) : Outcome Session :=
  send (NewMessage "NICK" [nick]) s.

Definition ChangeMode (channel flags : string) (args : list string)
    (s : Session) : Outcome Session :=
  send (NewMessage "MODE" ([channel; flags] ++ args)%list) s.

Definition Search (target text : string) (s : Session) : Outcome Session :=
  if negb (bool_decide ("soju.im/search" ∈ enabledCaps s)) then Done s
  else
    let attrs : gmap string string := <["text" := text]> ∅ in
    let attrs := if negb (target == "") then <["in" := target]> attrs else attrs in
    send (NewMessage "SEARCH" [formatTags attrs]) s.

Definition ReadGet (target : string) (s : Session) : Outcome Session :=
  if bool_decide ("soju.im/read" ∈ enabledCaps s)
  then send (NewMessage "READ" [target]) s
  else Done s.

Definition ReadSet (target : string) (timestamp : Time) (s : Session)
  : Outcome Session :=
  if bool_decide ("soju.im/read" ∈ enabledCaps s)
  then send (NewMessage "READ" [target; formatTimestamp timestamp]) s
  else Done s.

Definition Invite (nick channel : string) (s : Session) : Outcome Session :=
  send (NewMessage "INVITE" [nick; channel]) s.

Definition Kick (nick channel comment : string) (s : Session)
  : Outcome Session :=
  if comment == "" then send (NewMessage "KICK" [channel; nick]) s
  else send (NewMessage "KICK" [channel; nick; comment]) s.

(** Feed messages to [handleRegistered], each at its own time; the events
    and errors returned, in order, with the final session. *)
Fixpoint handleAll (msgs : list (Message * Time)) (s : Session)
  : Outcome (Session * list (option Event * option error)) :=
  match msgs with
  | [] => Done (s, [])
  | (m, now) :: rest =>
      do (s1, ev, err) <- handleRegistered m now s;
      do (s2, evs) <- handleAll rest s1;
      Done (s2, (ev, err) :: evs)
  end.

End Interface.

(** ** Notions used to state the properties of the interface *)

Section MoreNotions.

Context {C : Collaborators}.

(** The cases of [handleMessageRegistered] that look at [playback]. *)
Definition replayed : list Case :=
  [caseJOIN; casePART; caseKICK; caseQUIT; caseNICK; caseTOPIC; caseMODE;
   casePRIVMSG; caseTAGMSG].

(** A PRIVMSG or NOTICE with its sender, target and content, tagged as
    part of the batch [id]. *)
Definition batchedMessage (id : string) (m : Message) : Prop :=
  Tags m !! "batch" = Some id
  /\ switch (Command m) = casePRIVMSG
  /\ is_Some (Prefix_of m)
  /\ (2 <= length (Params m))%nat.

(** The event of a batched message. *)
Definition batchedEvent (s : Session) (mt : Message * Time) : MessageEvent :=
  fst (newMessageEvent (fst mt) (snd mt) s).

(** An entry of a chathistory-targets batch: a message that is not a
    numeric reply and that no case of the dispatch knows, with a target
    and a timestamp after its first parameter, tagged as part of the
    batch [id]. *)
Definition batchedTarget (id : string) (m : Message) : Prop :=
  Tags m !! "batch" = Some id
  /\ switch (Command m) = caseDefault
  /\ IsReply m = false
  /\ (3 <= length (Params m))%nat.

(** The targets of a batch: each entry whose timestamp parses sets the
    time of its target. *)
Definition collectTargets (msgs : list (Message * Time))
    (targets : gmap string Time) : gmap string Time :=
  foldl (fun acc mt =>
           match parseTimestamp (param (fst mt) 2) with
           | Some t => <[param (fst mt) 1 := t]> acc
           | None => acc
           end) targets msgs.

(** [b] with the feature table of [a]. *)
Definition withFeaturesOf (a b : Session) : Session :=
  set_netID (netID a)
    (set_casemap (casemap a)
       (set_chanmodes (chanmodes a)
          (set_chantypes (chantypes a)
             (set_historyLimit (historyLimit a)
                (set_linelen (linelen a)
                   (set_monitor (monitor a)
                      (set_prefixModes (prefixModes a)
                         (set_prefixSymbols (prefixSymbols a) b)))))))).

(** An ISUPPORT token that adds the key PREFIX, in any letter case,
    without a value. *)
Definition emptyPrefix (f : string) : Prop :=
  GoString.HasPrefix f "-" = false
  /\ strings.ToUpper (nth 0 (GoString.SplitN "=" 1 f) "") = "PREFIX"
  /\ (if (1 <? length (GoString.SplitN "=" 1 f))%nat
      then nth 1 (GoString.SplitN "=" 1 f) "" else "") = "".

(** The membership modes and their symbols have the same number. *)
Definition prefixesAligned (s : Session) : Prop :=
  GoString.len (prefixModes s) = GoString.len (prefixSymbols s).

(** The members of a channel refer to records of the store. *)
Definition validIn (m : list User) (members : gmap ptr string) : Prop :=
  forall p, is_Some (members !! p) -> (p < length m)%nat.

(** The pointers of the users map and of the member maps of the joined
    channels refer to records of the store, and the membership modes are
    aligned with their symbols. *)
Definition soundCore (m : list User) (u : gmap string ptr)
    (ch : gmap string Channel) (modes symbols : string) : Prop :=
  (forall k p, u !! k = Some p -> (p < length m)%nat)
  /\ (forall k c p, ch !! k = Some c -> is_Some (Members c !! p) ->
                    (p < length m)%nat)
  /\ GoString.len modes = GoString.len symbols.

Definition sound (s : Session) : Prop :=
  soundCore (mem s) (users s) (channels s) (prefixModes s) (prefixSymbols s).

(** The messages on which [handleMessageRegistered] indexes or
    dereferences without a check: a RPL_LOGGEDIN whose second parameter
    is not a prefix, a SASL failure numeric without parameters, an
    RPL_ISUPPORT with a PREFIX token without a value, a RPL_WHOREPLY with
    empty flags, a MONITOR numeric without its list of targets. *)
Definition crashes (msg : Message) : Prop :=
  match switch (Command msg) with
  | caseLoggedin =>
      (3 <= length (Params msg))%nat /\ ParsePrefix (param msg 1) = None
  | caseSaslEnd => Params msg = []
  | caseIsupport =>
      (3 <= length (Params msg))%nat
      /\ Exists emptyPrefix
           (take (length (Params msg) - 2) (drop 1 (Params msg)))
  | caseWhoreply => (8 <= length (Params msg))%nat /\ param msg 6 = ""
  | caseMononline | caseMonoffline => (length (Params msg) < 2)%nat
  | _ => False
  end.

(** Every entry of the users map is stored under the casemapped name of
    the record it points to. *)
Definition keyedCore (m : list User) (u : gmap string ptr)
    (cm : string -> string) : Prop :=
  forall k p, u !! k = Some p ->
    exists rec, m !! p = Some rec /\ k = cm (Prefix_Name (User_Name rec)).

Definition rosterKeyed (s : Session) : Prop :=
  keyedCore (mem s) (users s) (casemap s).

(** The session recognises its own nick: its casemapped nick is the
    image of its nick under its casemap function. *)
Definition selfKnown (s : Session) : Prop := nickCf s = casemap s (nick s).

(** The PRIVMSG that carries a chunk. *)
Definition privmsg (target chunk : string) : Message :=
  NewMessage "PRIVMSG" [target; chunk].

(** The names of the joined channels that have [u] as a member, in the
    order in which the map of channels is enumerated. *)
Definition channelsOf (u : ptr) (s : Session) : list string :=
  omap (fun kc =>
          if bool_decide (is_Some (Members (snd kc) !! u))
          then Some (Channel_Name (snd kc)) else None)
       (map_to_list (channels s)).

(** The capabilities of a CAP NEW list that are requested: the supported
    ones that are not enabled. *)
Definition requestedOf (caps : list Cap) (s : Session) : list Cap :=
  List.filter (fun c => bool_decide (Cap_Name c ∈ SupportedCapabilities)
                        && negb (bool_decide (Cap_Name c ∈ enabledCaps s)))
              caps.

Definition capReq (c : Cap) : Message := NewMessage "CAP" ["REQ"; Cap_Name c].

(** Nothing returned: no event and no error. *)
Definition quiet : option Event * option error := (None, None).

End MoreNotions.

(** The membership symbols of [l] are in the order of [symbols], a
    symbol that [symbols] lacks coming first. *)
Definition sortedByRank (symbols : string) (l : list ascii) : Prop :=
  StronglySorted
    (fun a b => GoString.IndexByte symbols a <= GoString.IndexByte symbols b) l.

(** Every byte is below [utf8.RuneSelf]. *)
Definition asciiOnly (s : string) : bool :=
  forallb (fun b => b <? utf8.RuneSelf) (GoString.bytes s).

(** ** Sample messages and sessions *)

(** A message of [alice] to [#c], tagged as part of the batch [h1], and
    the BATCH messages that open and close a batch. *)
Definition sample_hello : Message :=
  {| Tags := {[ "batch" := "h1" ]};
     Prefix_of := Reference.parsePrefix "alice!a@example.org";
     Command := "PRIVMSG"; Params := ["#c"; "hello"] |}.

Definition sample_open (type : string) (params : list string) : Message :=
  Reference.msg "" "BATCH" ("+h1" :: type :: params).

Definition sample_close : Message := Reference.msg "" "BATCH" ["-h1"].

(** An entry of a targets batch: the target [#c] at the time 7. *)
Definition sample_target : Message :=
  {| Tags := {[ "batch" := "h1" ]}; Prefix_of := None;
     Command := "CHATHISTORY"; Params := ["TARGETS"; "#c"; "7"] |}.


(** The session [Reference.joined] on which [alice] is monitored. *)
Definition sample_monitoring : Session :=
  set_monitors {[ "alice" ]} Reference.joined.

(** The op given to [alice]. *)
Definition sample_op : ModeChange :=
  {| ModeChange_Enable := true; ModeChange_Mode := "o"%char;
     ModeChange_Param := "alice" |}.

Definition sample_alice : Prefix :=
  {| Prefix_Name := "alice"; Prefix_User := "a"; Prefix_Host := "example.org" |}.

Definition sample_bob : Prefix :=
  {| Prefix_Name := "bob"; Prefix_User := "b"; Prefix_Host := "example.org" |}.
(** * Properties *)

(** Split a hypothesis about the result of a handler on every [match] and
    monadic bind it goes through, down to the returns. *)
Ltac cases_of H :=
  unfold ret_nil, ret_event, ret_error, obind in H;
  repeat match type of H with
         | context [match ?x with _ => _ end] =>
             let E := fresh "E" in destruct x eqn:E
         end;
  try discriminate H.

(** ** The string helpers on small inputs *)

Example SplitN_kv : GoString.SplitN "=" 1 "PREFIX=(ov)@+" = ["PREFIX"; "(ov)@+"].
Proof. reflexivity. Qed.

Example SplitN_second_sep : GoString.SplitN "=" 1 "a=b=c" = ["a"; "b=c"].
Proof. reflexivity. Qed.

Example SplitN_empty : GoString.SplitN "=" 1 "" = [""].
Proof. reflexivity. Qed.

Example Split_commas : GoString.Split "," "a,,b" = ["a"; ""; "b"].
Proof. reflexivity. Qed.

Example slice_oob : GoString.slice "" 1 0 = Panic.
Proof. reflexivity. Qed.

(** ** ISUPPORT: [updateFeatures] *)

Section Features.

Context {C : Collaborators}.

Lemma len_String (c : ascii) (s : string) :
  GoString.len (String c s) = GoString.len s + 1.
Proof. unfold GoString.len. simpl String.length. lia. Qed.

Lemma len_nonneg (s : string) : 0 <= GoString.len s.
Proof. unfold GoString.len. lia. Qed.

Lemma slice_Done (s : string) (lo hi : Z) :
  0 <= lo -> lo <= hi -> hi <= GoString.len s ->
  exists r, GoString.slice s lo hi = Done r.
Proof.
  intros H1 H2 H3. unfold GoString.slice.
  rewrite (proj2 (Z.leb_le 0 lo)), (proj2 (Z.leb_le lo hi)),
    (proj2 (Z.leb_le hi _)) by assumption.
  eauto.
Qed.

(** C6: the feature tokens CASEMAPPING=ascii, PREFIX=(ov)@+ and LINELEN=300
    set the casemap function to the ASCII rule, the membership modes to
    "ov", their symbols to "@+" and the line length to 300, whatever the
    session was before. *)
Theorem updateFeatures_example (s : Session) :
  exists s',
    updateFeatures ["CASEMAPPING=ascii"; "PREFIX=(ov)@+"; "LINELEN=300"] s = Done s'
    /\ casemap s' = CasemapASCII
    /\ prefixModes s' = "ov"
    /\ prefixSymbols s' = "@+"
    /\ linelen s' = 300.
Proof.
  eexists. split; [reflexivity|]. repeat split.
Qed.

(** C8: a token prefixed with '-' is parsed and not applied: processing
    it returns normally and leaves the session, and so every field of the
    feature table, as it was. *)
Theorem updateFeature_negation (rest : string) (s : Session) :
  updateFeature (String "-" rest) s = Done s
  /\ updateFeatures [String "-" rest] s = Done s.
Proof.
  assert (H : updateFeature (String "-" rest) s = Done s).
  { unfold updateFeature.
    destruct ((String "-" rest == "") || (String "-" rest == "-")
              || (String "-" rest == "=") || (String "-" rest == "-="));
      [reflexivity|].
    replace (GoString.HasPrefix (String "-" rest) "-") with true
      by (unfold GoString.HasPrefix; simpl; destruct rest; reflexivity).
    destruct (slice_Done (String "-" rest) 1 (GoString.len (String "-" rest)))
      as [f' Hf'].
    - lia.
    - rewrite len_String. pose proof (len_nonneg rest). lia.
    - lia.
    - unfold GoString.slice_from. rewrite Hf'. reflexivity. }
  split; [exact H|]. simpl. rewrite H. reflexivity.
Qed.

(** The PREFIX branch slices within bounds whenever the value is not
    empty. *)
Lemma prefix_slices_Done (value : string) :
  value <> "" -> GoString.len value mod 2 = 0 ->
  let numPrefixes := GoString.len value / 2 - 1 in
  (exists modes, GoString.slice value 1 (numPrefixes + 1) = Done modes)
  /\ (exists symbols, GoString.slice_from value (numPrefixes + 2) = Done symbols).
Proof.
  intros Hne Heven numPrefixes.
  assert (2 <= GoString.len value).
  { destruct value as [|c [|d v]]; [congruence| |].
    - exfalso. vm_compute in Heven. discriminate.
    - rewrite !len_String. pose proof (len_nonneg v). lia. }
  assert (GoString.len value = 2 * (GoString.len value / 2)).
  { pose proof (Z.div_mod (GoString.len value) 2). lia. }
  split; apply slice_Done; subst numPrefixes; lia.
Qed.

(** The only token on which [updateFeature] does not return normally is an
    added PREFIX (in any letter case) without a value. *)
Lemma updateFeature_Panic_inv (f : string) (s : Session) :
  updateFeature f s = Panic ->
  GoString.HasPrefix f "-" = false
  /\ strings.ToUpper (nth 0 (GoString.SplitN "=" 1 f) "") = "PREFIX"
  /\ (if (1 <? length (GoString.SplitN "=" 1 f))%nat
      then nth 1 (GoString.SplitN "=" 1 f) "" else "") = "".
Proof.
  unfold updateFeature.
  destruct ((f == "") || (f == "-") || (f == "=") || (f == "-=")); [discriminate|].
  destruct (GoString.HasPrefix f "-") eqn:Hp.
  { destruct f as [|c f]; [discriminate|].
    destruct (slice_Done (String c f) 1 (GoString.len (String c f))) as [f' Hf'];
      [lia|rewrite len_String; pose proof (len_nonneg f); lia|lia|].
    unfold GoString.slice_from. rewrite Hf'. simpl. discriminate. }
  cbn [obind negb].
  set (key := strings.ToUpper _). set (value := if (1 <? _)%nat then _ else _).
  repeat (match goal with
          | |- (if ?b then _ else _) = Panic -> _ =>
              lazymatch b with
              | key == "PREFIX" => fail
              | _ => destruct b
              end
          | |- match strconv.Atoi ?v with _ => _ end = Panic -> _ =>
              destruct (strconv.Atoi v)
          | |- Done _ = Panic -> _ => discriminate
          end).
  destruct (String.eqb_spec key "PREFIX") as [Hk|]; [|discriminate].
  destruct (String.eqb_spec value "") as [Hv|Hv]; [intros _; auto|].
  destruct (GoString.len value mod 2 =? 0) eqn:Heven; [|discriminate].
  destruct (existsb _ _); [discriminate|].
  apply Z.eqb_eq in Heven.
  destruct (prefix_slices_Done value Hv Heven) as [[m Hm] [y Hy]].
  cbn [negb]. rewrite Hm, Hy. discriminate.
Qed.

(** C10, at the failing input: an ISUPPORT reply holding PREFIX with an
    empty value, written [PREFIX=] or [PREFIX], makes [updateFeatures]
    panic on the slice [value[1:0]] instead of returning. *)
Theorem updateFeatures_PREFIX_empty_panics (s : Session) :
  updateFeatures ["PREFIX="] s = Panic
  /\ updateFeatures ["PREFIX"] s = Panic.
Proof. split; reflexivity. Qed.

End Features.

(** ** Errors leave the session as it was *)

Section Errors.

Context {C : Collaborators}.

Lemma set_typings_same (s : Session) : set_typings (typings s) s = s.
Proof. destruct s; reflexivity. Qed.

(** C9: when [handleMessageRegistered] returns a non-nil error, the
    session after the call is the session before it, but for the tracker
    of incoming typing notifications, which the PRIVMSG case clears before
    the message is found to be short.  In particular the users, the
    channels, the batch accumulators, the enabled capabilities and the
    feature fields are the same. *)
Theorem handleMessageRegistered_error_frame
    (msg : Message) (playback : bool) (now : Time) (s s' : Session)
    (ev : option Event) (e : error) :
  handleMessageRegistered msg playback now s = Done (s', ev, Some e) ->
  s' = set_typings (typings s') s
  /\ users s' = users s /\ mem s' = mem s /\ channels s' = channels s
  /\ chBatches s' = chBatches s /\ chReqs s' = chReqs s
  /\ targetsBatchID s' = targetsBatchID s /\ targetsBatch s' = targetsBatch s
  /\ searchBatchID s' = searchBatchID s /\ searchBatch s' = searchBatch s
  /\ enabledCaps s' = enabledCaps s /\ availableCaps s' = availableCaps s
  /\ netID s' = netID s /\ casemap s' = casemap s /\ chanmodes s' = chanmodes s
  /\ chantypes s' = chantypes s /\ historyLimit s' = historyLimit s
  /\ linelen s' = linelen s /\ monitor s' = monitor s
  /\ prefixModes s' = prefixModes s /\ prefixSymbols s' = prefixSymbols s.
Proof.
  intros H.
  assert (Hs : s' = set_typings (typings s') s).
  { unfold handleMessageRegistered in H.
    destruct (switch (Command msg)); cases_of H; simplify_eq;
      first [symmetry; apply set_typings_same | reflexivity]. }
  split; [exact Hs|]. rewrite Hs. repeat split.
Qed.

End Errors.

(** ** Fields that the helpers of the handler leave alone *)

Section Frame.

Context {C : Collaborators}.

(** A field of the session that no assignment to the output, the roster,
    the capabilities, the features, the identity or the typing tracker
    changes. *)
Class Untouched {A : Type} (f : Session -> A) : Prop := {
  untouched_out : forall v s, f (set_out v s) = f s;
  untouched_closed : forall v s, f (set_closed v s) = f s;
  untouched_registered : forall v s, f (set_registered v s) = f s;
  untouched_typings : forall v s, f (set_typings v s) = f s;
  untouched_nick : forall v s, f (set_nick v s) = f s;
  untouched_nickCf : forall v s, f (set_nickCf v s) = f s;
  untouched_user : forall v s, f (set_user v s) = f s;
  untouched_acct : forall v s, f (set_acct v s) = f s;
  untouched_host : forall v s, f (set_host v s) = f s;
  untouched_netID : forall v s, f (set_netID v s) = f s;
  untouched_availableCaps : forall v s, f (set_availableCaps v s) = f s;
  untouched_enabledCaps : forall v s, f (set_enabledCaps v s) = f s;
  untouched_casemap : forall v s, f (set_casemap v s) = f s;
  untouched_chanmodes : forall v s, f (set_chanmodes v s) = f s;
  untouched_chantypes : forall v s, f (set_chantypes v s) = f s;
  untouched_linelen : forall v s, f (set_linelen v s) = f s;
  untouched_historyLimit : forall v s, f (set_historyLimit v s) = f s;
  untouched_prefixSymbols : forall v s, f (set_prefixSymbols v s) = f s;
  untouched_prefixModes : forall v s, f (set_prefixModes v s) = f s;
  untouched_monitor : forall v s, f (set_monitor v s) = f s;
  untouched_mem : forall v s, f (set_mem v s) = f s;
  untouched_users : forall v s, f (set_users v s) = f s;
}.

#[global] Instance chReqs_untouched : Untouched chReqs.
Proof. split; reflexivity. Qed.

#[global] Instance channels_untouched : Untouched channels.
Proof. split; reflexivity. Qed.

Context {A : Type} (f : Session -> A) {Hf : Untouched f}.


Lemma send_untouched (m : Message) (s s' : Session) :
  send m s = Done s' -> f s' = f s.
Proof. unfold send. destruct (closed s); intros [= <-]. apply untouched_out. Qed.














End Frame.

(** ** End of names, MONITOR numerics *)

Section Roster.

Context {C : Collaborators}.

Lemma ParseParams_lookup (msg : Message) (i : nat) (p : string) :
  Params msg !! i = Some p ->
  ParseParams msg (S i) = None /\ param msg i = p.
Proof.
  intros H. unfold ParseParams, param.
  pose proof (lookup_lt_Some _ _ _ H) as Hlt.
  destruct (Nat.ltb_spec (length (Params msg)) (S i)); [lia|].
  split; [reflexivity|]. rewrite nth_lookup, H. reflexivity.
Qed.










(** A live JOIN of the user of the session stores a fresh channel, whose
    flag is unset: the end-of-names that follows is the first one. *)
Lemma selfJoin_incomplete (msg : Message) (now : Time) (s s' : Session)
    (ev : option Event) (err : option error) (channel : string) :
  selfJoin msg false s ->
  Params msg !! 0%nat = Some channel ->
  handleMessageRegistered msg false now s = Done (s', ev, err) ->
  channels s' !! Casemap s channel = Some (Channel_new channel)
  /\ complete (Channel_new channel) = false.
Proof.
  intros (Hcase & _ & pfx & Hpfx & Hme) Hp H.
  destruct (ParseParams_lookup _ _ _ Hp) as [Hpp Hparam].
  split; [|reflexivity].
  unfold handleMessageRegistered in H.
  rewrite Hcase, Hpfx, Hpp, Hparam, Hme in H.
  cases_of H; simplify_eq;
    repeat match goal with
           | E : send _ _ = Done _ |- _ =>
               apply (send_untouched channels) in E; rewrite E
           end;
    cbn; apply lookup_insert_eq.
Qed.

(** [Join] stamps the casemapped channel with the time of the request. *)
Lemma Join_stamps (channel key : string) (now : Time) (s s1 : Session) :
  Join channel key now s = Done s1 ->
  pendingChannels s1 !! Casemap s channel = Some now
  /\ channels s1 = channels s /\ casemap s1 = casemap s.
Proof.
  unfold Join, send. cbn.
  destruct (key == ""), (closed s); intros [= <-]; cbn;
    rewrite lookup_insert_eq; auto.
Qed.

(** Once a target of a MONITOR numeric makes the loop return its event,
    the targets after it are not looked at. *)
Lemma monitorLoop_early_return (online : bool) (target : string)
    (rest : list string) (s s' : Session) (ev : Event) :
  monitorLoop online [target] s = Done (s', Some ev) ->
  monitorLoop online (target :: rest) s = Done (s', Some ev).
Proof.
  cbn. destruct (ParsePrefix target) as [prefix|]; [|discriminate].
  destruct (bool_decide _); [|discriminate].
  destruct (ensureUser _ _ _) as [p s1].
  destruct (deref s1 p) as [u|]; [|discriminate]. cbn.
  destruct online, (User_Disconnected u); cbn; (discriminate || auto).
Qed.

(** A MONITOR numeric with one monitored target: the record is created if
    absent, its flag is set to the announced state, and an event is
    returned exactly when the flag changes. *)
Lemma monitorLoop_single (online : bool) (target : string) (prefix : Prefix)
    (s : Session) :
  ParsePrefix target = Some prefix ->
  casemap s (Prefix_Name prefix) ∈ monitors s ->
  (forall p, users s !! casemap s (Prefix_Name prefix) = Some p ->
             is_Some (mem s !! p)) ->
  exists (s' : Session) (ev : option Event) (p : ptr) (u : User),
    monitorLoop online [target] s = Done (s', ev)
    /\ users s' !! casemap s (Prefix_Name prefix) = Some p
    /\ mem s' !! p = Some u
    /\ User_Disconnected u = negb online
    /\ (is_Some ev <->
        match users s !! casemap s (Prefix_Name prefix) with
        | Some q => exists v, mem s !! q = Some v /\ User_Disconnected v = online
        | None => online = false
        end).
Proof.
  intros Hprefix Hmon Hstore. cbn. rewrite Hprefix.
  rewrite bool_decide_eq_true_2 by assumption.
  unfold ensureUser, alloc, deref, store.
  destruct (users s !! casemap s (Prefix_Name prefix)) as [q|] eqn:Hq.
  - destruct (Hstore q eq_refl) as [v Hv]. rewrite Hv. cbn.
    pose proof (lookup_lt_Some _ _ _ Hv) as Hlt.
    destruct online, (User_Disconnected v) eqn:Hd; cbn;
      eexists _, _, q, _; (split; [reflexivity|]); cbn;
      rewrite ?list_lookup_insert_eq by assumption;
      (split; [eassumption|]); (split; [try eassumption; reflexivity|]);
      (split; [try assumption; reflexivity|]);
      (split; [intros; eauto|intros (? & [= <-] & ?); try congruence; eauto]);
      try (destruct H as [? [=]]).
  - cbn. rewrite lookup_app_r by reflexivity.
    rewrite Nat.sub_diag. cbn.
    destruct online; cbn; eexists _, _, (length (mem s)), _;
      (split; [reflexivity|]); cbn; rewrite lookup_insert_eq;
      (split; [reflexivity|]).
    + rewrite lookup_app_r, Nat.sub_diag by reflexivity.
      split; [reflexivity|]. split; [reflexivity|].
      split; [intros [? [=]]|discriminate].
    + rewrite list_lookup_insert_eq by (rewrite length_app; cbn; lia).
      split; [reflexivity|]. split; [reflexivity|]. split; eauto.
Qed.

End Roster.

(** C7, at the failing input: with [a] and [b] monitored and unknown, the
    numeric RPL_MONOFFLINE for the targets [a,b] returns at the transition
    of [a]: no record is created for [b] and nothing tells that it is
    offline. *)
Theorem monoffline_two_targets_stops_at_first :
  match handleMessageRegistered
          (Reference.msg "irc.example.org" rplMonoffline ["me"; "a,b"])
          false 0 (set_monitors {["a"; "b"]} Reference.session) with
  | Done (s', ev, err) =>
      ev = Some (UserOfflineEvent "a") /\ err = None
      /\ (User_Disconnected <$> (users s' !! "a" ≫= fun p => mem s' !! p))
         = Some true
      /\ users s' !! "b" = None
  | Panic => False
  end.
Proof. vm_compute. repeat split. Qed.

(** ** Roster clean-up on PART, KICK and QUIT *)

Section Cleanup.

Context {C : Collaborators}.

Lemma inSomeChannel_true (u : ptr) (chans : gmap string Channel) :
  inSomeChannel u chans = true <->
  exists k c, chans !! k = Some c /\ is_Some (Members c !! u).
Proof.
  unfold inSomeChannel. rewrite existsb_exists. split.
  - intros [[k c] [Hin Hb]]. exists k, c.
    apply list_elem_of_In, elem_of_map_to_list in Hin.
    apply bool_decide_eq_true in Hb. auto.
  - intros (k & c & Hk & Hu). exists (k, c). split.
    + apply list_elem_of_In, elem_of_map_to_list. exact Hk.
    + apply bool_decide_eq_true. exact Hu.
Qed.

(** What the clean-up may change: it only removes users, never a
    monitored one, and it renames nobody. *)
Record cleaned (s s' : Session) : Prop := {
  cleaned_mem : mem s' = mem s;
  cleaned_monitors : monitors s' = monitors s;
  cleaned_casemap : casemap s' = casemap s;
  cleaned_users : forall k p, users s' !! k = Some p -> users s !! k = Some p;
  cleaned_monitored : forall k, k ∈ monitors s -> users s' !! k = users s !! k;
}.

Lemma cleaned_refl (s : Session) : cleaned s s.
Proof. split; auto. Qed.

Lemma cleaned_trans (s1 s2 s3 : Session) :
  cleaned s1 s2 -> cleaned s2 s3 -> cleaned s1 s3.
Proof.
  intros [] []. split; try congruence; eauto.
  intros k Hk. rewrite cleaned_monitored1, cleaned_monitored0; auto.
  congruence.
Qed.

Lemma cleanUser_cleaned (p : ptr) (s s' : Session) :
  cleanUser p s = Done s' -> cleaned s s' /\ channels s' = channels s.
Proof.
  unfold cleanUser, deref, Casemap. destruct (mem s !! p) as [rec|]; [|discriminate].
  cbn. destruct (bool_decide_reflect (casemap s (Prefix_Name (User_Name rec)) ∈ monitors s)).
  { intros [= <-]. split; [apply cleaned_refl|reflexivity]. }
  destruct (inSomeChannel p (channels s)); intros [= <-];
    [split; [apply cleaned_refl|reflexivity]|].
  split; [|reflexivity]. split; cbn; auto.
  - intros k q Hk. apply lookup_delete_Some in Hk. tauto.
  - intros k Hk. apply lookup_delete_ne. congruence.
Qed.

(** [cleanUser] deletes the user that is neither monitored nor in a
    channel. *)
Lemma cleanUser_deletes (p : ptr) (rec : User) (s s' : Session) :
  cleanUser p s = Done s' ->
  mem s !! p = Some rec ->
  casemap s (Prefix_Name (User_Name rec)) ∉ monitors s ->
  ~ hasMembership p s ->
  users s' !! casemap s (Prefix_Name (User_Name rec)) = None.
Proof.
  unfold cleanUser, deref, Casemap. intros H Hrec Hmon Hnone.
  rewrite Hrec in H. cbn in H.
  rewrite bool_decide_eq_false_2 in H by assumption.
  destruct (inSomeChannel p (channels s)) eqn:Hin.
  { apply inSomeChannel_true in Hin. contradiction. }
  injection H as <-. cbn. apply lookup_delete_eq.
Qed.

Lemma cleanUsers_cleaned (l : list ptr) (s s' : Session) :
  cleanUsers l s = Done s' -> cleaned s s' /\ channels s' = channels s.
Proof.
  revert s. induction l as [|p l IH]; intros s; cbn.
  - intros [= <-]. split; [apply cleaned_refl|reflexivity].
  - destruct (cleanUser p s) as [s1|] eqn:H1; [|discriminate]. cbn.
    intros H. destruct (cleanUser_cleaned _ _ _ H1) as [Hc1 Hch1].
    destruct (IH _ H) as [Hc Hch].
    split; [eapply cleaned_trans; eauto|congruence].
Qed.

Lemma hasMembership_channels (u : ptr) (s s' : Session) :
  channels s' = channels s -> hasMembership u s' <-> hasMembership u s.
Proof. unfold hasMembership. intros ->. reflexivity. Qed.

Lemma cleanUsers_deletes (l : list ptr) (p : ptr) (rec : User) (s s' : Session) :
  cleanUsers l s = Done s' ->
  p ∈ l ->
  mem s !! p = Some rec ->
  casemap s (Prefix_Name (User_Name rec)) ∉ monitors s ->
  ~ hasMembership p s ->
  users s' !! casemap s (Prefix_Name (User_Name rec)) = None.
Proof.
  revert s. induction l as [|q l IH]; intros s H Hin Hrec Hmon Hnone.
  { inversion Hin. }
  cbn in H. destruct (cleanUser q s) as [s1|] eqn:H1; [|discriminate]. cbn in H.
  destruct (cleanUser_cleaned _ _ _ H1) as [Hc1 Hch].
  destruct (cleanUsers_cleaned _ _ _ H) as [Hc _].
  destruct (decide (p = q)) as [->|Hne].
  - pose proof (cleanUser_deletes _ _ _ _ H1 Hrec Hmon Hnone) as Hdel.
    destruct (users s' !! _) as [x|] eqn:Hx; [|reflexivity].
    apply (cleaned_users _ _ Hc) in Hx. congruence.
  - apply elem_of_cons in Hin as [?|Hin]; [contradiction|].
    destruct Hc1 as [Hm Hmo Hca _ _].
    rewrite <- Hca. apply (IH s1); auto.
    + congruence.
    + rewrite Hca, Hmo. assumption.
    + rewrite (hasMembership_channels _ _ _ Hch). assumption.
Qed.

Lemma withoutMember_absent (u : ptr) (c : Channel) :
  Members c !! u = None -> withoutMember u c = c.
Proof.
  intros H. unfold withoutMember. rewrite delete_id by assumption.
  destruct c; reflexivity.
Qed.

Lemma quitLoop_spec (u : ptr) (nickCf_ : string) (l : list (string * Channel)) :
  forall (chans : list string) (s s' : Session) (chans' : list string),
    quitLoop u nickCf_ l chans s = Done (s', chans') ->
    NoDup l.*1 ->
    (forall k c, (k, c) ∈ l -> channels s !! k = Some c) ->
    cleaned s s'
    /\ (forall k, channels s' !! k
                  = if decide (k ∈ l.*1)
                    then withoutMember u <$> channels s !! k
                    else channels s !! k)
    /\ (forall rec,
          mem s !! u = Some rec ->
          casemap s (Prefix_Name (User_Name rec)) ∉ monitors s ->
          (exists k c, (k, c) ∈ l /\ is_Some (Members c !! u)) ->
          (forall k c, k ∉ l.*1 -> channels s !! k = Some c ->
                       Members c !! u = None) ->
          users s' !! casemap s (Prefix_Name (User_Name rec)) = None).
Proof.
  induction l as [|[k c] l IH]; intros chans s s' chans' H Hnd Hl.
  { cbn in H. injection H as <- <-. split; [apply cleaned_refl|].
    split; [intros k; reflexivity|].
    intros rec _ _ (k & c & Hin & _). inversion Hin. }
  cbn in H. cbn in Hnd. apply NoDup_cons in Hnd as [Hk Hnd].
  assert (Hc : channels s !! k = Some c) by (apply Hl; left).
  destruct (bool_decide_reflect (is_Some (Members c !! u))) as [Hmem|Hmem].
  - destruct (cleanUser u (updateMembers k c (delete u (Members c)) s))
      as [s2|] eqn:Hclean; [|discriminate].
    cbn in H.
    set (s1 := updateMembers k c (delete u (Members c)) s) in *.
    set (s3 := set_typings _ s2) in H.
    destruct (cleanUser_cleaned _ _ _ Hclean) as [Hc12 Hch12].
    assert (Hch3 : channels s3 = <[k := withoutMember u c]> (channels s))
      by (cbn; rewrite Hch12; reflexivity).
    assert (Hc3 : cleaned s s3).
    { destruct Hc12. split; cbn; auto. }
    destruct (IH _ s3 _ _ H Hnd) as (Hc' & Hch' & Hdel').
    { intros k' c' Hin. rewrite Hch3, lookup_insert_ne; [apply Hl; right; exact Hin|].
      intros ->. apply Hk. apply list_elem_of_fmap. exists (k', c'). auto. }
    split; [eapply cleaned_trans; eauto|]. split.
    + intros k'. rewrite Hch', Hch3. cbn.
      destruct (decide (k' = k)) as [->|Hne].
      * rewrite decide_False by assumption.
        rewrite decide_True by left. rewrite lookup_insert_eq, Hc. reflexivity.
      * rewrite lookup_insert_ne by congruence.
        destruct (decide (k' ∈ l.*1)).
        -- rewrite decide_True by (right; assumption). reflexivity.
        -- rewrite decide_False; [reflexivity|].
           intros Hin. apply elem_of_cons in Hin as [?|?]; contradiction.
    + intros rec Hrec Hmon _ Hout.
      assert (Hdec : (exists k' c', (k', c') ∈ l /\ is_Some (Members c' !! u))
                     \/ ~ (exists k' c', (k', c') ∈ l /\ is_Some (Members c' !! u))).
      { destruct (decide (Exists (fun kc => is_Some (Members kc.2 !! u)) l)) as [He|He].
        - left. apply Exists_exists in He as ([k' c'] & Hin & Hu). eauto.
        - right. intros (k' & c' & Hin & Hu). apply He, Exists_exists.
          exists (k', c'). auto. }
      destruct Hdec as [Hlater|Hlater].
      * destruct Hc3 as [Hm3 Hmo3 Hca3 _ _].
        rewrite <- Hca3. apply Hdel'; [congruence|rewrite Hca3, Hmo3; exact Hmon|exact Hlater|].
        intros k' c' Hnin. rewrite Hch3.
        destruct (decide (k' = k)) as [->|Hne].
        -- rewrite lookup_insert_eq. intros [= <-]. cbn. apply lookup_delete_eq.
        -- rewrite lookup_insert_ne by congruence. apply Hout.
           intros Hin. apply elem_of_cons in Hin as [?|?]; contradiction.
      * assert (Hnone : ~ hasMembership u s1).
        { intros (k' & c' & Hk' & Hu). cbn in Hk'.
          destruct (decide (k' = k)) as [->|Hne].
          - rewrite lookup_insert_eq in Hk'. injection Hk' as <-. cbn in Hu.
            rewrite lookup_delete_eq in Hu. destruct Hu; discriminate.
          - rewrite lookup_insert_ne in Hk' by congruence.
            destruct (decide (k' ∈ l.*1)) as [Hin|Hnin].
            + apply list_elem_of_fmap in Hin as ([k2 c2] & -> & Hin). cbn in *.
              pose proof (Hl _ _ (list_elem_of_further _ _ _ Hin)) as Hc2.
              assert (c2 = c') by congruence. subst c2.
              apply Hlater. eauto.
            + rewrite (Hout k' c') in Hu; [destruct Hu; discriminate| |exact Hk'].
              intros Hin. apply elem_of_cons in Hin as [?|?]; contradiction. }
        pose proof (cleanUser_deletes u rec s1 s2 Hclean Hrec Hmon Hnone) as Hdel.
        destruct (users s' !! _) as [x|] eqn:Hx; [|reflexivity].
        apply (cleaned_users _ _ Hc') in Hx. cbn in Hx. cbn in Hdel. congruence.
  - destruct (IH _ s _ _ H Hnd) as (Hc' & Hch' & Hdel').
    { intros k' c' Hin. apply Hl. right. exact Hin. }
    assert (Hnone : Members c !! u = None).
    { destruct (Members c !! u) eqn:E; [|reflexivity]. exfalso. apply Hmem. eauto. }
    split; [exact Hc'|]. split.
    + intros k'. rewrite Hch'. cbn.
      destruct (decide (k' = k)) as [->|Hne].
      * rewrite decide_False by assumption. rewrite decide_True by left.
        rewrite Hc. cbn. rewrite withoutMember_absent by assumption. reflexivity.
      * destruct (decide (k' ∈ l.*1)).
        -- rewrite decide_True by (right; assumption). reflexivity.
        -- rewrite decide_False; [reflexivity|].
           intros Hin. apply elem_of_cons in Hin as [?|?]; contradiction.
    + intros rec Hrec Hmon (k' & c' & Hin & Hu) Hout.
      apply Hdel'; [assumption..| |].
      * apply elem_of_cons in Hin as [[= -> ->]|Hin]; [|eauto].
        rewrite Hnone in Hu. destruct Hu; discriminate.
      * intros k2 c2 Hnin Hk2.
        destruct (decide (k2 = k)) as [->|Hne]; [congruence|].
        apply (Hout k2 c2); [|exact Hk2].
        intros Hin2. apply elem_of_cons in Hin2 as [?|?]; contradiction.
Qed.

Lemma hasMembership_check (u : ptr) (s : Session) :
  hasMembership u s <-> inSomeChannel u (channels s) = true.
Proof. symmetry. apply inSomeChannel_true. Qed.

Lemma keyedByName_check (u : ptr) (s : Session) :
  keyedByNameb u s = true -> keyedByName u s.
Proof.
  unfold keyedByNameb, keyedByName.
  destruct (mem s !! u) as [rec|]; [|discriminate].
  intros H. apply andb_true_iff in H as [Hkey Hall].
  apply bool_decide_eq_true in Hkey.
  exists rec. split; [reflexivity|]. intros k. split; [|intros ->; exact Hkey].
  intros Hk. rewrite forallb_forall in Hall.
  specialize (Hall (k, u)). cbn in Hall.
  rewrite Nat.eqb_refl in Hall. apply String.eqb_eq, Hall.
  apply list_elem_of_In, elem_of_map_to_list. exact Hk.
Qed.

(** The three facts about a clean-up from which the property of the
    roster follows. *)
Lemma cleanup_facts (u : ptr) (s s' : Session) :
  (forall k p, users s' !! k = Some p -> users s !! k = Some p) ->
  (forall k, k ∈ monitors s -> users s' !! k = users s !! k) ->
  (forall rec, mem s !! u = Some rec ->
               hasMembership u s -> ~ hasMembership u s' ->
               casemap s (Prefix_Name (User_Name rec)) ∉ monitors s ->
               users s' !! casemap s (Prefix_Name (User_Name rec)) = None) ->
  keyedByName u s ->
  (monitored u s -> inRoster u s')
  /\ (hasMembership u s -> ~ hasMembership u s' ->
      (~ inRoster u s' <-> ~ monitored u s)).
Proof.
  intros Hsub Hmon Hdel (rec & Hrec & Hkey).
  assert (Hm : monitored u s -> inRoster u s').
  { intros (rec' & Hrec' & Hin). assert (rec' = rec) by congruence. subst rec'.
    exists (casemap s (Prefix_Name (User_Name rec))).
    rewrite Hmon by assumption. apply Hkey. reflexivity. }
  split; [exact Hm|]. intros Hbefore Hafter. split; [tauto|].
  intros Hnm (k & Hk).
  pose proof (Hsub _ _ Hk) as Hk0. apply Hkey in Hk0. subst k.
  rewrite (Hdel rec) in Hk; [discriminate|assumption..|].
  intros Hin. apply Hnm. exists rec. auto.
Qed.

Lemma hasMembership_updateMembers_ne (u u0 : ptr) (k : string) (c : Channel)
    (s : Session) :
  channels s !! k = Some c -> u <> u0 ->
  hasMembership u (updateMembers k c (delete u0 (Members c)) s)
  <-> hasMembership u s.
Proof.
  intros Hc Hne. unfold hasMembership. cbn. split.
  - intros (k' & c' & Hk' & Hu). destruct (decide (k' = k)) as [->|Hk].
    + rewrite lookup_insert_eq in Hk'. injection Hk' as <-. cbn in Hu.
      rewrite lookup_delete_ne in Hu by congruence. eauto.
    + rewrite lookup_insert_ne in Hk' by congruence. eauto.
  - intros (k' & c' & Hk' & Hu). destruct (decide (k' = k)) as [->|Hk].
    + exists k, (Channel_set_Members (delete u0 (Members c)) c).
      rewrite lookup_insert_eq. split; [reflexivity|]. cbn.
      rewrite lookup_delete_ne by congruence. congruence.
    + exists k', c'. rewrite lookup_insert_ne by congruence. auto.
Qed.

(** The two ways in which PART and KICK change the roster. *)
Inductive parted (s s' : Session) : Prop :=
| parted_nothing : s' = s -> parted s s'
| parted_self (k : string) (c : Channel) :
    channels s !! k = Some c ->
    cleanUsers (map fst (map_to_list (Members c)))
               (set_channels (delete k (channels s)) s) = Done s' ->
    parted s s'
| parted_other (k : string) (c : Channel) (u0 : ptr) (s2 : Session)
    (t : Typings) :
    channels s !! k = Some c ->
    cleanUser u0 (updateMembers k c (delete u0 (Members c)) s) = Done s2 ->
    s' = set_typings t s2 ->
    parted s s'.

Lemma handle_PART_KICK_parted (msg : Message) (playback : bool) (now : Time)
    (s s' : Session) (ev : option Event) (err : option error) :
  switch (Command msg) = casePART \/ switch (Command msg) = caseKICK ->
  handleMessageRegistered msg playback now s = Done (s', ev, err) ->
  parted s s'.
Proof.
  unfold handleMessageRegistered.
  intros [-> | ->] H; cases_of H; simplify_eq;
    first [ apply parted_nothing; reflexivity
          | eapply parted_self; eassumption
          | eapply parted_other; [eassumption|eassumption|reflexivity] ].
Qed.

Lemma parted_facts (u : ptr) (s s' : Session) :
  parted s s' ->
  (forall k p, users s' !! k = Some p -> users s !! k = Some p)
  /\ (forall k, k ∈ monitors s -> users s' !! k = users s !! k)
  /\ (forall rec, mem s !! u = Some rec ->
                  hasMembership u s -> ~ hasMembership u s' ->
                  casemap s (Prefix_Name (User_Name rec)) ∉ monitors s ->
                  users s' !! casemap s (Prefix_Name (User_Name rec)) = None).
Proof.
  intros [-> | k c Hc H | k c u0 s2 t Hc H ->].
  - split; [auto|]. split; [auto|]. intros; contradiction.
  - destruct (cleanUsers_cleaned _ _ _ H) as [[Hm Hmo Hca Hu Hmon] Hch].
    cbn in *. split; [exact Hu|]. split; [exact Hmon|].
    intros rec Hrec Hbefore Hafter Hnm.
    apply (cleanUsers_deletes _ u rec _ _ H); try assumption.
    + destruct Hbefore as (k' & c' & Hk' & Hin).
      destruct (decide (k' = k)) as [->|Hne].
      * assert (c' = c) by congruence. subst c'. destruct Hin as [pl Hpl].
        apply list_elem_of_fmap. exists (u, pl). split; [reflexivity|].
        apply elem_of_map_to_list. exact Hpl.
      * exfalso. apply Hafter. exists k', c'. split; [|exact Hin].
        rewrite Hch. cbn. rewrite lookup_delete_ne by congruence. exact Hk'.
    + intros Hx. apply Hafter. revert Hx. apply hasMembership_channels.
      exact Hch.
  - destruct (cleanUser_cleaned _ _ _ H) as [[Hm Hmo Hca Hu Hmon] Hch].
    cbn in *. split; [exact Hu|]. split; [exact Hmon|].
    intros rec Hrec Hbefore Hafter Hnm.
    destruct (decide (u = u0)) as [->|Hne].
    + apply (cleanUser_deletes u0 rec _ _ H); try assumption.
      intros Hx. apply Hafter. revert Hx. apply hasMembership_channels.
      exact Hch.
    + exfalso. apply Hafter.
      apply (hasMembership_channels u (updateMembers k c (delete u0 (Members c)) s));
        [exact Hch|].
      apply hasMembership_updateMembers_ne; assumption.
Qed.

(** How QUIT changes the roster. *)
Inductive quitted (s s' : Session) : Prop :=
| quitted_nothing : s' = s -> quitted s s'
| quitted_user (u0 : ptr) (rec0 : User) (nickCf_ : string) (chans : list string) :
    mem s !! u0 = Some rec0 ->
    quitLoop u0 nickCf_
      (map_to_list (channels (store u0 (User_set_Disconnected true rec0) s))) []
      (store u0 (User_set_Disconnected true rec0) s) = Done (s', chans) ->
    quitted s s'.

Lemma handle_QUIT_quitted (msg : Message) (playback : bool) (now : Time)
    (s s' : Session) (ev : option Event) (err : option error) :
  switch (Command msg) = caseQUIT ->
  handleMessageRegistered msg playback now s = Done (s', ev, err) ->
  quitted s s'.
Proof.
  unfold handleMessageRegistered. intros -> H. unfold deref in H.
  cases_of H; simplify_eq;
    repeat match goal with
           | E : match ?x with _ => _ end = Done _ |- _ =>
               destruct x eqn:?; [|discriminate E]
           end;
    simplify_eq;
    first [ apply quitted_nothing; reflexivity
          | eapply quitted_user; eassumption ].
Qed.

Lemma quitted_facts (u : ptr) (s s' : Session) :
  quitted s s' ->
  (forall k p, users s' !! k = Some p -> users s !! k = Some p)
  /\ (forall k, k ∈ monitors s -> users s' !! k = users s !! k)
  /\ (forall rec, mem s !! u = Some rec ->
                  hasMembership u s -> ~ hasMembership u s' ->
                  casemap s (Prefix_Name (User_Name rec)) ∉ monitors s ->
                  users s' !! casemap s (Prefix_Name (User_Name rec)) = None).
Proof.
  intros [-> | u0 rec0 n chans Hrec0 H].
  { split; [auto|]. split; [auto|]. intros; contradiction. }
  set (s1 := store u0 (User_set_Disconnected true rec0) s) in *.
  destruct (quitLoop_spec _ _ _ _ _ _ _ H) as ([Hm Hmo Hca Hu Hmon] & Hch & Hdel).
  { apply NoDup_fst_map_to_list. }
  { intros k c. apply elem_of_map_to_list. }
  cbn in *. split; [exact Hu|]. split; [exact Hmon|].
  intros rec Hrec (k & c & Hk & Hin) Hafter Hnm.
  assert (Hkl : k ∈ (map_to_list (channels s)).*1).
  { apply list_elem_of_fmap. exists (k, c). split; [reflexivity|].
    apply elem_of_map_to_list. exact Hk. }
  destruct (decide (u = u0)) as [->|Hne].
  - assert (rec = rec0) by congruence. subst rec.
    apply (Hdel (User_set_Disconnected true rec0)).
    + apply list_lookup_insert_eq. eapply lookup_lt_Some. eassumption.
    + exact Hnm.
    + exists k, c. split; [apply elem_of_map_to_list; exact Hk|exact Hin].
    + intros k' c' Hnin Hk'. exfalso. apply Hnin.
      apply list_elem_of_fmap. exists (k', c'). split; [reflexivity|].
      apply elem_of_map_to_list. exact Hk'.
  - exfalso. apply Hafter. exists k, (withoutMember u0 c). split.
    + rewrite Hch. rewrite decide_True by exact Hkl. rewrite Hk. reflexivity.
    + cbn. rewrite lookup_delete_ne by congruence. exact Hin.
Qed.

(** C2: across the handling of a PART, KICK or QUIT, for every user record
    that the users map holds under the name of the record as the casemap
    function of the session maps it, and under no other key: a monitored
    user stays in the users map, whatever its channel membership; and when
    the handling removes the last channel membership of the user, the user
    is gone from the users map if and only if it is not monitored.  A
    record stored before an ISUPPORT reply replaced the casemap function
    need not be held under that key, and then the cleanup can miss it. *)
Theorem cleanup_on_last_membership
    (msg : Message) (playback : bool) (now : Time) (s s' : Session)
    (ev : option Event) (err : option error) (u : ptr) :
  switch (Command msg) = casePART \/ switch (Command msg) = caseKICK
  \/ switch (Command msg) = caseQUIT ->
  handleMessageRegistered msg playback now s = Done (s', ev, err) ->
  keyedByName u s ->
  (monitored u s -> inRoster u s')
  /\ (hasMembership u s -> ~ hasMembership u s' ->
      (~ inRoster u s' <-> ~ monitored u s)).
Proof.
  intros Hcmd H Hkey.
  assert (Hfacts :
    (forall k p, users s' !! k = Some p -> users s !! k = Some p)
    /\ (forall k, k ∈ monitors s -> users s' !! k = users s !! k)
    /\ (forall rec, mem s !! u = Some rec ->
                    hasMembership u s -> ~ hasMembership u s' ->
                    casemap s (Prefix_Name (User_Name rec)) ∉ monitors s ->
                    users s' !! casemap s (Prefix_Name (User_Name rec)) = None)).
  { destruct Hcmd as [Hcmd|[Hcmd|Hcmd]].
    - apply parted_facts. eapply handle_PART_KICK_parted; eauto.
    - apply parted_facts. eapply handle_PART_KICK_parted; eauto.
    - apply quitted_facts. eapply handle_QUIT_quitted; eauto. }
  destruct Hfacts as (F1 & F2 & F3).
  apply cleanup_facts; assumption.
Qed.

End Cleanup.

(** ** Typing notifications *)

Section TypingLimiter.

Context {C : Collaborators}.

Lemma app_one_neq {A} (l : list A) (x : A) : (l ++ [x])%list <> l.
Proof.
  intros H. apply (f_equal length) in H. rewrite length_app in H. cbn in H. lia.
Qed.

(** A call of [Typing] that sends leaves the stamp of an active state
    sent now. *)
Lemma Typing_sent (target : string) (now : Time) (s s1 : Session) :
  HasCapability s "message-tags" = true ->
  Typing target now s = Done s1 ->
  out s1 <> out s ->
  sentBetween s s1 [typingActive target]
  /\ enabledCaps s1 = enabledCaps s /\ casemap s1 = casemap s
  /\ exists lim,
      typingStamps s1 !! casemap s target
      = Some {| Last := now; Type_ := TypingActive; Limit := lim |}.
Proof.
  intros Hcap H Hsent. unfold Typing in H. rewrite Hcap in H. cbn [negb] in H.
  unfold send in H. cbn in H.
  destruct (typingStamps s !! casemap s target) as [t|].
  - destruct ((Type_ t =? TypingActive) && (now - Last t <? 3 * Second)).
    { injection H as <-. contradiction. }
    destruct (Limiter_Allow (Limit t) now) as [[] lim].
    + destruct (closed s); [discriminate|]. injection H as <-. cbn.
      repeat split. eexists. apply lookup_insert_eq.
    + injection H as <-. contradiction.
  - destruct (closed s); [discriminate|]. injection H as <-. cbn.
    repeat split. eexists. apply lookup_insert_eq.
Qed.

Lemma TypingStop_sent (target : string) (now : Time) (s s1 : Session) :
  HasCapability s "message-tags" = true ->
  TypingStop target now s = Done s1 ->
  out s1 <> out s ->
  sentBetween s s1 [typingDone target]
  /\ enabledCaps s1 = enabledCaps s /\ casemap s1 = casemap s
  /\ exists lim,
      typingStamps s1 !! casemap s target
      = Some {| Last := now; Type_ := TypingDone; Limit := lim |}.
Proof.
  intros Hcap H Hsent. unfold TypingStop in H. rewrite Hcap in H. cbn [negb] in H.
  unfold send in H. cbn in H.
  destruct (typingStamps s !! casemap s target) as [t|].
  - destruct (Type_ t =? TypingDone).
    { injection H as <-. contradiction. }
    destruct (Limiter_Allow (Limit t) now) as [[] lim].
    + destruct (closed s); [discriminate|]. injection H as <-. cbn.
      repeat split. eexists. apply lookup_insert_eq.
    + injection H as <-. contradiction.
  - destruct (closed s); [discriminate|]. injection H as <-. cbn.
    repeat split. eexists. apply lookup_insert_eq.
Qed.

(** The first notification for a target is always sent. *)
Lemma Typing_fresh (target : string) (now : Time) (s : Session) :
  HasCapability s "message-tags" = true -> closed s = false ->
  typingStamps s !! casemap s target = None ->
  exists s1, Typing target now s = Done s1
             /\ sentBetween s s1 [typingActive target].
Proof.
  intros Hcap Hopen Hnone. unfold Typing, send. rewrite Hcap, Hnone. cbn.
  rewrite Hopen. eexists. split; reflexivity.
Qed.

Lemma TypingStop_fresh (target : string) (now : Time) (s : Session) :
  HasCapability s "message-tags" = true -> closed s = false ->
  typingStamps s !! casemap s target = None ->
  exists s1, TypingStop target now s = Done s1
             /\ sentBetween s s1 [typingDone target].
Proof.
  intros Hcap Hopen Hnone. unfold TypingStop, send. rewrite Hcap, Hnone. cbn.
  rewrite Hopen. eexists. split; reflexivity.
Qed.

Ltac typing_frame Hcap Ho :=
  split; [reflexivity|]; split; [exact Hcap|]; split; [exact Ho|];
  split; [reflexivity|]; split.

(** What one call of [Typing] does on an open session. *)
Lemma Typing_cases (target : string) (now : Time) (s : Session) :
  HasCapability s "message-tags" = true -> closed s = false ->
  exists s1 : Session,
    Typing target now s = Done s1
    /\ HasCapability s1 "message-tags" = true /\ closed s1 = false
    /\ casemap s1 = casemap s
    /\ ((sentBetween s s1 [typingActive target]
         /\ exists lim,
             typingStamps s1 !! casemap s target
             = Some {| Last := now; Type_ := TypingActive; Limit := lim |})
        \/ (out s1 = out s
            /\ is_Some (typingStamps s !! casemap s target)))
    /\ (forall t, typingStamps s !! casemap s target = Some t ->
                  Type_ t = TypingActive -> now - Last t < 3 * Second ->
                  s1 = s).
Proof.
  intros Hcap Ho. unfold Typing, send. rewrite Hcap. cbn [negb].
  destruct (typingStamps s !! casemap s target) as [t|] eqn:Ht.
  - destruct ((Type_ t =? TypingActive) && (now - Last t <? 3 * Second)) eqn:Hrecent.
    { exists s. typing_frame Hcap Ho.
      - right. split; [reflexivity|eauto].
      - reflexivity. }
    assert (Hnot : forall t', Some t = Some t' -> Type_ t' = TypingActive ->
                              now - Last t' < 3 * Second -> False).
    { intros t' [= <-] Hty Hnow.
      apply andb_false_iff in Hrecent as [H|H];
        [apply Z.eqb_neq in H; contradiction|apply Z.ltb_ge in H; lia]. }
    destruct (Limiter_Allow (Limit t) now) as [[] lim]; cbn; rewrite ?Ho.
    + eexists. typing_frame Hcap Ho.
      * left. split; [reflexivity|]. eexists. apply lookup_insert_eq.
      * intros t' Ht' Hty Hnow. exfalso. exact (Hnot t' Ht' Hty Hnow).
    + eexists. typing_frame Hcap Ho.
      * right. split; [reflexivity|eauto].
      * intros t' Ht' Hty Hnow. exfalso. exact (Hnot t' Ht' Hty Hnow).
  - cbn. rewrite Ho. eexists. typing_frame Hcap Ho.
    + left. split; [reflexivity|]. eexists. apply lookup_insert_eq.
    + intros t [=].
Qed.

Lemma TypingStop_cases (target : string) (now : Time) (s : Session) :
  HasCapability s "message-tags" = true -> closed s = false ->
  exists s1 : Session,
    TypingStop target now s = Done s1
    /\ HasCapability s1 "message-tags" = true /\ closed s1 = false
    /\ casemap s1 = casemap s
    /\ ((sentBetween s s1 [typingDone target]
         /\ exists lim,
             typingStamps s1 !! casemap s target
             = Some {| Last := now; Type_ := TypingDone; Limit := lim |})
        \/ (out s1 = out s
            /\ is_Some (typingStamps s !! casemap s target)))
    /\ (forall t, typingStamps s !! casemap s target = Some t ->
                  Type_ t = TypingDone -> s1 = s).
Proof.
  intros Hcap Ho. unfold TypingStop, send. rewrite Hcap. cbn [negb].
  destruct (typingStamps s !! casemap s target) as [t|] eqn:Ht.
  - destruct (Type_ t =? TypingDone) eqn:Hdone.
    { exists s. typing_frame Hcap Ho.
      - right. split; [reflexivity|eauto].
      - reflexivity. }
    assert (Hnot : forall t', Some t = Some t' -> Type_ t' = TypingDone -> False).
    { intros t' [= <-] Hty. apply Z.eqb_neq in Hdone. contradiction. }
    destruct (Limiter_Allow (Limit t) now) as [[] lim]; cbn; rewrite ?Ho.
    + eexists. typing_frame Hcap Ho.
      * left. split; [reflexivity|]. eexists. apply lookup_insert_eq.
      * intros t' Ht' Hty. exfalso. exact (Hnot t' Ht' Hty).
    + eexists. typing_frame Hcap Ho.
      * right. split; [reflexivity|eauto].
      * intros t' Ht' Hty. exfalso. exact (Hnot t' Ht' Hty).
  - cbn. rewrite Ho. eexists. typing_frame Hcap Ho.
    + left. split; [reflexivity|]. eexists. apply lookup_insert_eq.
    + intros t [=].
Qed.

(** C3: two [Typing] calls for a target less than 3 seconds apart, on an
    open session with the message-tags capability, return and emit at
    most one TAGMSG with +typing=active between them: when the first
    sends, the second sends nothing.  They emit exactly one when the
    target has no stamp yet, and none when the stamp says that an active
    state was sent less than 3 seconds before both.  Two [TypingStop]
    calls in a row likewise emit at most one TAGMSG with +typing=done:
    exactly one when the target has no stamp yet, none when the last state
    sent is already done.  Without the capability neither call does
    anything. *)
Theorem typing_sent_once (target : string) (now1 now2 : Time) (s : Session) :
  (HasCapability s "message-tags" = true -> closed s = false ->
   now2 - now1 < 3 * Second ->
   exists s1 s2 : Session,
     Typing target now1 s = Done s1 /\ Typing target now2 s1 = Done s2
     /\ (sentBetween s s2 [] \/ sentBetween s s2 [typingActive target])
     /\ (out s1 <> out s ->
         s2 = s1 /\ sentBetween s s1 [typingActive target])
     /\ (typingStamps s !! casemap s target = None ->
         sentBetween s s2 [typingActive target])
     /\ (forall t, typingStamps s !! casemap s target = Some t ->
                   Type_ t = TypingActive ->
                   now1 - Last t < 3 * Second -> now2 - Last t < 3 * Second ->
                   s2 = s))
  /\ (HasCapability s "message-tags" = true -> closed s = false ->
      exists s1 s2 : Session,
        TypingStop target now1 s = Done s1
        /\ TypingStop target now2 s1 = Done s2
        /\ (sentBetween s s2 [] \/ sentBetween s s2 [typingDone target])
        /\ (out s1 <> out s ->
            s2 = s1 /\ sentBetween s s1 [typingDone target])
        /\ (typingStamps s !! casemap s target = None ->
            sentBetween s s2 [typingDone target])
        /\ (forall t, typingStamps s !! casemap s target = Some t ->
                      Type_ t = TypingDone -> s2 = s))
  /\ (HasCapability s "message-tags" = false ->
      Typing target now1 s = Done s /\ TypingStop target now1 s = Done s).
Proof.
  split; [|split].
  - intros Hcap Ho Hnow.
    destruct (Typing_cases target now1 s Hcap Ho)
      as (s1 & H1 & Hcap1 & Ho1 & Hcm1 & Hsent1 & Hkeep1).
    destruct (Typing_cases target now2 s1 Hcap1 Ho1)
      as (s2 & H2 & _ & _ & _ & Hsent2 & Hkeep2).
    rewrite Hcm1 in Hsent2, Hkeep2.
    exists s1, s2. split; [exact H1|]. split; [exact H2|].
    destruct Hsent1 as [[Hout1 [lim Hstamp1]]|[Hout1 Hsome1]].
    + assert (Hs2 : s2 = s1).
      { apply (Hkeep2 _ Hstamp1); [reflexivity|exact Hnow]. }
      subst s2. split; [right; exact Hout1|].
      split; [intros _; split; [reflexivity|exact Hout1]|].
      split; [intros _; exact Hout1|].
      intros t Ht Hty Hn1 Hn2. apply (Hkeep1 t Ht Hty Hn1).
    + split; [|split; [|split]].
      * destruct Hsent2 as [[Hout2 _]|[Hout2 _]]; unfold sentBetween in *.
        -- right. rewrite Hout2, Hout1. reflexivity.
        -- left. rewrite Hout2, Hout1, app_nil_r. reflexivity.
      * intros Hne. contradiction.
      * intros Hnone. rewrite Hnone in Hsome1. destruct Hsome1; discriminate.
      * intros t Ht Hty Hn1 Hn2.
        assert (Hs1 : s1 = s) by apply (Hkeep1 t Ht Hty Hn1).
        subst s1. apply (Hkeep2 t Ht Hty Hn2).
  - intros Hcap Ho.
    destruct (TypingStop_cases target now1 s Hcap Ho)
      as (s1 & H1 & Hcap1 & Ho1 & Hcm1 & Hsent1 & Hkeep1).
    destruct (TypingStop_cases target now2 s1 Hcap1 Ho1)
      as (s2 & H2 & _ & _ & _ & Hsent2 & Hkeep2).
    rewrite Hcm1 in Hsent2, Hkeep2.
    exists s1, s2. split; [exact H1|]. split; [exact H2|].
    destruct Hsent1 as [[Hout1 [lim Hstamp1]]|[Hout1 Hsome1]].
    + assert (Hs2 : s2 = s1) by (apply (Hkeep2 _ Hstamp1); reflexivity).
      subst s2. split; [right; exact Hout1|].
      split; [intros _; split; [reflexivity|exact Hout1]|].
      split; [intros _; exact Hout1|].
      intros t Ht Hty. apply (Hkeep1 t Ht Hty).
    + split; [|split; [|split]].
      * destruct Hsent2 as [[Hout2 _]|[Hout2 _]]; unfold sentBetween in *.
        -- right. rewrite Hout2, Hout1. reflexivity.
        -- left. rewrite Hout2, Hout1, app_nil_r. reflexivity.
      * intros Hne. contradiction.
      * intros Hnone. rewrite Hnone in Hsome1. destruct Hsome1; discriminate.
      * intros t Ht Hty.
        assert (Hs1 : s1 = s) by apply (Hkeep1 t Ht Hty).
        subst s1. apply (Hkeep2 t Ht Hty).
  - intros Hcap. unfold Typing, TypingStop. rewrite Hcap. auto.
Qed.

End TypingLimiter.

(** ** History requests *)

Section History.

Context {C : Collaborators}.



Lemma index_String_0 (c : ascii) (s : string) :
  GoString.index (String c s) 0 = Done (GoString.byte c).
Proof.
  unfold GoString.index. rewrite len_String.
  pose proof (len_nonneg s).
  rewrite (proj2 (Z.ltb_lt 0 (GoString.len s + 1))) by lia. reflexivity.
Qed.

Lemma substring_all (s : string) : String.substring 0 (String.length s) s = s.
Proof. induction s as [|c s IH]; cbn; [reflexivity|]. rewrite IH. reflexivity. Qed.

Lemma slice_from_String_1 (c : ascii) (s : string) :
  GoString.slice_from (String c s) 1 = Done s.
Proof.
  unfold GoString.slice_from, GoString.slice. rewrite len_String.
  pose proof (len_nonneg s).
  rewrite (proj2 (Z.leb_le 1 (GoString.len s + 1))) by lia.
  rewrite Z.leb_refl. cbn [andb Z.leb].
  replace (Z.to_nat (GoString.len s + 1 - 1)) with (String.length s)
    by (unfold GoString.len; lia).
  change (Z.to_nat 1) with 1%nat. cbn. rewrite substring_all. reflexivity.
Qed.



(** The close of a chathistory batch returns its accumulator and takes
    its target out of the requests in flight. *)
Lemma batch_close (msg : Message) (playback : bool) (now : Time)
    (id : string) (b : HistoryEvent) (s : Session) :
  Command msg = "BATCH" ->
  Params msg !! 0%nat = Some (String "-" id) ->
  chBatches s !! id = Some b ->
  handleMessageRegistered msg playback now s
  = Done (set_chReqs (chReqs s ∖ {[casemap s (HistoryEvent_Target b)]})
            (set_chBatches (delete id (chBatches s)) s),
          Some (HistoryEvent_event b), None).
Proof.
  intros Hcmd Hp Hb.
  destruct (ParseParams_lookup _ _ _ Hp) as [Hpp Hparam].
  unfold handleMessageRegistered. rewrite Hcmd.
  change (switch "BATCH") with caseBATCH. cbv iota.
  rewrite Hpp, Hparam, len_String.
  pose proof (len_nonneg id).
  rewrite (proj2 (Z.eqb_neq _ _)) by lia.
  rewrite index_String_0, slice_from_String_1. cbn. rewrite Hb. reflexivity.
Qed.


End History.

(** ** Valid UTF-8 and rune boundaries *)

Lemma forallb_range (P : Z -> bool) (n : nat) :
  forallb P (map Z.of_nat (seq 0 n)) = true ->
  forall b, 0 <= b < Z.of_nat n -> P b = true.
Proof.
  intros H b Hb. rewrite forallb_forall in H. apply H.
  apply in_map_iff. exists (Z.to_nat b). split; [lia|].
  apply in_seq. lia.
Qed.

(** A byte starts a rune unless it is a continuation byte. *)
Lemma RuneStart_byte (b : Z) :
  isByte b -> utf8.RuneStart b = negb (utf8.cont b).
Proof.
  intros Hb.
  apply Bool.eqb_prop.
  apply (forallb_range
           (fun b => Bool.eqb (utf8.RuneStart b) (negb (utf8.cont b))) 256);
    [vm_compute; reflexivity|exact Hb].
Qed.

Ltac props :=
  repeat match goal with
         | H : (_ && _) = true |- _ => apply andb_true_iff in H as [? ?]
         | H : (_ <=? _) = true |- _ => apply Z.leb_le in H
         | H : (_ <=? _) = false |- _ => apply Z.leb_gt in H
         | H : (_ <? _) = true |- _ => apply Z.ltb_lt in H
         | H : (_ <? _) = false |- _ => apply Z.ltb_ge in H
         | H : (_ =? _) = true |- _ => apply Z.eqb_eq in H
         | H : (_ =? _) = false |- _ => apply Z.eqb_neq in H
         end.

Lemma cont_false_RuneStart (b : Z) :
  isByte b -> utf8.cont b = false -> utf8.RuneStart b = true.
Proof. intros Hb Hc. rewrite RuneStart_byte, Hc by assumption. reflexivity. Qed.

Lemma cont_true_RuneStart (b : Z) :
  isByte b -> utf8.cont b = true -> utf8.RuneStart b = false.
Proof. intros Hb Hc. rewrite RuneStart_byte, Hc by assumption. reflexivity. Qed.

Lemma cont_range (b lo hi : Z) :
  128 <= lo -> hi <= 191 -> lo <= b -> b <= hi -> utf8.cont b = true.
Proof.
  intros. unfold utf8.cont. apply andb_true_iff. split; apply Z.leb_le; lia.
Qed.

Ltac continuation_bytes :=
  let j := fresh "j" in
  let b := fresh "b" in
  let Hj := fresh "Hj" in
  let Hjb := fresh "Hjb" in
  intros j b Hj Hjb; destruct j as [|[|[|[|j]]]];
  try (exfalso; cbn in Hj; lia); cbn in Hjb; simplify_eq;
  (apply cont_true_RuneStart;
   [ assumption
   | first [ assumption
           | props;
             repeat match goal with
                    | H : context [if ?c then _ else _] |- _ => destruct c
                    end;
             first [ assumption
                   | exfalso; lia
                   | (eapply cont_range; [| |eassumption|eassumption]); lia ] ] ]).

Ltac same_decoding :=
  let x := fresh "x" in
  intros x;
  try change (Z.to_nat 1) with 1%nat;
  try change (Z.to_nat 2) with 2%nat;
  try change (Z.to_nat 3) with 3%nat;
  try change (Z.to_nat 4) with 4%nat;
  cbn [firstn app]; unfold utf8.DecodeRune;
  repeat match goal with
         | H : ?c = _ |- context [?c] => rewrite H
         end;
  reflexivity.

Ltac leading_byte :=
  eexists; split;
  [ reflexivity
  | apply cont_false_RuneStart;
    [ assumption
    | unfold utf8.cont; props;
      apply andb_false_iff; rewrite Z.leb_gt, Z.leb_gt; lia ] ].

Lemma DecodeRune_good (bs : list Z) (r w : Z) :
  Forall isByte bs -> bs <> [] -> utf8.DecodeRune bs = (r, w) ->
  ~ (r = utf8.RuneError /\ w = 1) ->
  1 <= w <= 4 /\ (Z.to_nat w <= length bs)%nat
  /\ (exists b0, bs !! 0%nat = Some b0 /\ utf8.RuneStart b0 = true)
  /\ (forall j b, (1 <= j < Z.to_nat w)%nat -> bs !! j = Some b ->
                  utf8.RuneStart b = false)
  /\ (forall x, utf8.DecodeRune (take (Z.to_nat w) bs ++ x) = (r, w)).
Proof.
  intros Hb Hne Hd Hok.
  destruct bs as [|b0 t]; [congruence|].
  unfold utf8.DecodeRune in Hd.
  repeat match type of Hd with
         | context [match ?l with [] => _ | _ :: _ => _ end] => destruct l
         | context [if ?c then _ else _] => destruct c eqn:?
         end;
    simplify_eq; try (exfalso; apply Hok; split; reflexivity);
    repeat match goal with
           | H : Forall isByte (_ :: _) |- _ => apply Forall_cons in H as [? H]
           end;
    (split; [lia|]); (split; [cbn; lia|]); (split; [leading_byte|]);
    (split; [continuation_bytes|same_decoding]).
Qed.

Lemma DecodeRune_width (bs : list Z) :
  bs <> [] -> 1 <= snd (utf8.DecodeRune bs) <= 4.
Proof.
  intros Hne. destruct bs as [|b0 t]; [congruence|].
  unfold utf8.DecodeRune.
  repeat match goal with
         | |- context [match ?l with [] => _ | _ :: _ => _ end] => destruct l
         | |- context [if ?c then _ else _] => destruct c
         end; cbn; lia.
Qed.

Lemma runes_fuel_enough (n : nat) :
  forall (bs : list Z) (fuel : nat),
    length bs = n -> (n <= fuel)%nat ->
    utf8.runes_fuel fuel bs = utf8.runes_fuel n bs.
Proof.
  induction n as [n IH] using lt_wf_ind. intros bs fuel Hn Hfuel.
  destruct bs as [|b t].
  { cbn in Hn. subst n. destruct fuel; reflexivity. }
  cbn in Hn. subst n. destruct fuel as [|fuel]; [lia|].
  cbn [utf8.runes_fuel].
  pose proof (DecodeRune_width (b :: t) ltac:(discriminate)) as Hw.
  destruct (utf8.DecodeRune (b :: t)) as [r w]. cbn [snd] in Hw.
  f_equal.
  assert (Hdrop : (length (drop (Z.to_nat w) (b :: t)) <= length t)%nat).
  { rewrite length_drop. cbn. lia. }
  pose proof (IH (length (drop (Z.to_nat w) (b :: t))) ltac:(lia)
                 (drop (Z.to_nat w) (b :: t))) as IH'.
  rewrite (IH' fuel eq_refl) by lia.
  rewrite (IH' (length t) eq_refl) by lia.
  reflexivity.
Qed.

(** Validity, one rune at a time. *)
Lemma Valid_step (bs : list Z) :
  bs <> [] ->
  utf8.Valid bs
  = okRune (utf8.DecodeRune bs)
    && utf8.Valid (drop (Z.to_nat (snd (utf8.DecodeRune bs))) bs).
Proof.
  intros Hne. destruct bs as [|b t]; [congruence|].
  unfold utf8.Valid, utf8.runes. cbn [length utf8.runes_fuel].
  pose proof (DecodeRune_width (b :: t) ltac:(discriminate)) as Hw.
  destruct (utf8.DecodeRune (b :: t)) as [r w]. cbn [snd fst] in *.
  cbn [forallb]. f_equal.
  rewrite (runes_fuel_enough _ _ (length t) eq_refl); [reflexivity|].
  rewrite length_drop. cbn. lia.
Qed.

Lemma take_plus {A} (n m : nat) (l : list A) :
  take (n + m) l = (take n l ++ take m (drop n l))%list.
Proof.
  revert l. induction n as [|n IH]; intros l; [reflexivity|].
  destruct l as [|a l]; [cbn; destruct m; reflexivity|].
  cbn. rewrite IH. reflexivity.
Qed.

Lemma okRune_true (r w : Z) :
  okRune (r, w) = true -> ~ (r = utf8.RuneError /\ w = 1).
Proof.
  unfold okRune. cbn. intros H [-> ->]. discriminate H.
Qed.

(** In valid UTF-8 every position lies in a rune that starts at most
    three bytes before it; the string splits into two valid strings at
    the start of the rune, and the bytes between the start and the
    position are continuation bytes. *)
Lemma valid_rune_at (n : nat) :
  forall (bs : list Z) (j : nat),
    length bs = n -> Forall isByte bs -> utf8.Valid bs = true ->
    (j < length bs)%nat ->
    exists st : nat,
      (st <= j < st + 4)%nat
      /\ (exists b, bs !! st = Some b /\ utf8.RuneStart b = true)
      /\ (forall p b, (st < p <= j)%nat -> bs !! p = Some b ->
                      utf8.RuneStart b = false)
      /\ utf8.Valid (take st bs) = true
      /\ utf8.Valid (drop st bs) = true.
Proof.
  induction n as [n IH] using lt_wf_ind.
  intros bs j Hn Hb Hvalid Hj.
  assert (Hne : bs <> []) by (intros ->; cbn in Hj; lia).
  pose proof Hvalid as Hv. rewrite Valid_step in Hv by assumption.
  apply andb_true_iff in Hv as [Hok Hrest].
  destruct (utf8.DecodeRune bs) as [r w] eqn:Hd. cbn [snd] in Hrest.
  destruct (DecodeRune_good bs r w Hb Hne Hd (okRune_true _ _ Hok))
    as (Hw & Hlen & (b0 & Hb0 & Hs0) & Hcont & Hpre).
  destruct (decide (j < Z.to_nat w)%nat) as [Hlt|Hge].
  - exists 0%nat. split; [lia|]. split; [eauto|]. split.
    + intros p b Hp. apply Hcont. lia.
    + split; [reflexivity|exact Hvalid].
  - destruct (IH (length (drop (Z.to_nat w) bs))
                 ltac:(rewrite length_drop; lia)
                 (drop (Z.to_nat w) bs) (j - Z.to_nat w)%nat eq_refl)
      as (st & Hst & (b & Hbst & Hsb) & Hbetween & Hvt & Hvd).
    + apply Forall_drop. exact Hb.
    + exact Hrest.
    + rewrite length_drop. lia.
    + exists (Z.to_nat w + st)%nat. split; [lia|]. split.
      { exists b. rewrite lookup_drop in Hbst. auto. }
      split.
      { intros p c Hp Hpc. apply (Hbetween (p - Z.to_nat w)%nat c); [lia|].
        rewrite lookup_drop. replace (Z.to_nat w + (p - Z.to_nat w))%nat with p by lia.
        exact Hpc. }
      split.
      * rewrite take_plus.
        assert (Hlt : length (take (Z.to_nat w) bs) = Z.to_nat w)
          by (rewrite length_take; lia).
        rewrite Valid_step.
        2:{ intros Happ. apply (f_equal length) in Happ.
            rewrite length_app, Hlt in Happ. cbn in Happ. lia. }
        rewrite Hpre. cbn [snd]. rewrite Hok. cbn [andb].
        rewrite drop_app_length' by (symmetry; exact Hlt). exact Hvt.
      * rewrite drop_drop in Hvd. exact Hvd.
Qed.

(** ** Go strings as byte sequences *)

Lemma byte_isByte (c : ascii) : isByte (GoString.byte c).
Proof.
  unfold isByte, GoString.byte. pose proof (N_ascii_bounded c). lia.
Qed.

Lemma bytes_isByte (s : string) : Forall isByte (GoString.bytes s).
Proof.
  unfold GoString.bytes. induction s as [|c s IH]; cbn; constructor;
    [apply byte_isByte|exact IH].
Qed.

Lemma length_bytes (s : string) : length (GoString.bytes s) = String.length s.
Proof.
  unfold GoString.bytes. induction s as [|c s IH]; cbn; [reflexivity|].
  rewrite IH. reflexivity.
Qed.

Lemma append_String (c : ascii) (a b : string) :
  String c a ++ b = String c (a ++ b).
Proof. reflexivity. Qed.

Lemma length_append (a b : string) :
  String.length (a ++ b) = (String.length a + String.length b)%nat.
Proof.
  induction a as [|c a IH]; [reflexivity|].
  rewrite append_String. cbn. rewrite IH. reflexivity.
Qed.

Lemma append_empty_r (a : string) : a ++ "" = a.
Proof.
  induction a as [|c a IH]; [reflexivity|].
  rewrite append_String, IH. reflexivity.
Qed.

Lemma bytes_app (a b : string) :
  GoString.bytes (a ++ b) = (GoString.bytes a ++ GoString.bytes b)%list.
Proof.
  unfold GoString.bytes. induction a as [|c a IH]; [reflexivity|].
  rewrite append_String. cbn. f_equal. exact IH.
Qed.

Lemma get_bytes (s : string) (n : nat) :
  (n < String.length s)%nat ->
  exists c, String.get n s = Some c
            /\ GoString.bytes s !! n = Some (GoString.byte c).
Proof.
  revert n. induction s as [|c s IH]; intros n Hn; [cbn in Hn; lia|].
  destruct n as [|n]; [exists c; split; reflexivity|].
  destruct (IH n) as (d & Hd & Hb); [cbn in Hn; lia|].
  exists d. split; [exact Hd|exact Hb].
Qed.

Lemma index_bytes (s : string) (n : nat) :
  (n < String.length s)%nat ->
  exists b, GoString.index s (Z.of_nat n) = Done b
            /\ GoString.bytes s !! n = Some b.
Proof.
  intros Hn. destruct (get_bytes s n Hn) as (c & Hc & Hb).
  exists (GoString.byte c). split; [|exact Hb].
  unfold GoString.index, GoString.len.
  rewrite (proj2 (Z.leb_le 0 (Z.of_nat n))) by lia.
  rewrite (proj2 (Z.ltb_lt (Z.of_nat n) _)) by lia.
  cbn [andb]. rewrite Nat2Z.id, Hc. reflexivity.
Qed.

Lemma substring_split (s : string) (n : nat) :
  (n <= String.length s)%nat ->
  s = String.substring 0 n s ++ String.substring n (String.length s - n) s
  /\ String.length (String.substring 0 n s) = n.
Proof.
  revert n. induction s as [|c s IH]; intros n Hn.
  { destruct n; [split; reflexivity|cbn in Hn; lia]. }
  destruct n as [|n].
  { cbn. rewrite substring_all. split; reflexivity. }
  destruct (IH n) as [Hs Hl]; [cbn in Hn; lia|].
  cbn. rewrite append_String, <- Hs, Hl. split; reflexivity.
Qed.

(** Cutting a string at a position within it. *)
Lemma slice_split (s : string) (n : nat) :
  (n <= String.length s)%nat ->
  exists a b,
    GoString.slice_to s (Z.of_nat n) = Done a
    /\ GoString.slice_from s (Z.of_nat n) = Done b
    /\ s = a ++ b /\ String.length a = n.
Proof.
  intros Hn. destruct (substring_split s n Hn) as [Hs Hl].
  exists (String.substring 0 n s), (String.substring n (String.length s - n) s).
  unfold GoString.slice_to, GoString.slice_from, GoString.slice, GoString.len.
  rewrite (proj2 (Z.leb_le 0 (Z.of_nat n))) by lia.
  rewrite (proj2 (Z.leb_le (Z.of_nat n) _)) by lia.
  rewrite Z.leb_refl. cbn [andb Z.leb].
  change (0 ?= 0) with Eq. cbv iota.
  rewrite Z.sub_0_r, Nat2Z.id.
  replace (Z.to_nat (Z.of_nat (String.length s) - Z.of_nat n))
    with (String.length s - n)%nat by lia.
  change (Z.to_nat 0) with 0%nat. rewrite Z.leb_refl.
  auto.
Qed.


(** ** Splitting a message into chunks *)

Import Reference.

Lemma splitChunks_back_finds (s : string) (min : Z) (st : nat) (k : nat) :
  forall i : nat,
    (st <= i < String.length s)%nat -> min <= Z.of_nat st ->
    (exists b, GoString.bytes s !! st = Some b /\ utf8.RuneStart b = true) ->
    (forall p b, (st < p <= i)%nat -> GoString.bytes s !! p = Some b ->
                 utf8.RuneStart b = false) ->
    (i - st < k)%nat ->
    splitChunks_back k s min (Z.of_nat i) = Done (Z.of_nat st).
Proof.
  induction k as [|k IH]; intros i Hi Hmin Hst Hbetween Hk; [lia|].
  cbn [splitChunks_back].
  rewrite (proj2 (Z.leb_le min (Z.of_nat i))) by lia.
  destruct (index_bytes s i) as (b & Hidx & Hb); [lia|].
  rewrite Hidx. cbn [obind].
  destruct (decide (i = st)) as [->|Hne].
  - destruct Hst as (b' & Hb' & Hs). assert (b' = b) by congruence. subst b'.
    rewrite Hs. reflexivity.
  - rewrite (Hbetween i b) by (auto; lia).
    replace (Z.of_nat i - 1) with (Z.of_nat (i - 1)) by lia.
    apply IH; try assumption; try lia.
    intros p c Hp. apply Hbetween. lia.
Qed.

Lemma concat_cons (a : string) (cs : list string) :
  String.concat "" (a :: cs) = a ++ String.concat "" cs.
Proof.
  destruct cs as [|c cs]; cbn; [|reflexivity].
  symmetry. apply append_empty_r.
Qed.

Lemma splitChunks_loop_valid (chunkLen : Z) (n : nat) :
  utf8.UTFMax <= chunkLen ->
  forall (s : string) (fuel : nat) (chunks : list string),
    String.length s = n -> (n < fuel)%nat -> utf8.ValidString s = true ->
    exists cs,
      splitChunks_loop fuel s chunkLen chunks = Some (Done (chunks ++ cs)%list)
      /\ String.concat "" cs = s
      /\ Forall (chunkOk chunkLen) cs.
Proof.
  intros Hmax. unfold utf8.UTFMax in Hmax.
  induction n as [n IH] using lt_wf_ind.
  intros s fuel chunks Hn Hfuel Hvalid.
  destruct fuel as [|fuel]; [lia|]. cbn [splitChunks_loop].
  unfold GoString.len at 1.
  destruct (Z.ltb_spec chunkLen (Z.of_nat (String.length s))) as [Hlong|Hshort].
  - destruct (valid_rune_at _ (GoString.bytes s) (Z.to_nat chunkLen) eq_refl
                (bytes_isByte s) Hvalid)
      as (st & Hst & Hstart & Hbetween & Hvt & Hvd).
    { rewrite length_bytes. lia. }
    unfold utf8.UTFMax.
    replace (chunkLen - (chunkLen - 4) + 1) with 5 by lia.
    assert (Hback : splitChunks_back (S (Z.to_nat 5)) s (chunkLen - 4) chunkLen
                    = Done (Z.of_nat st)).
    { rewrite <- (Z2Nat.id chunkLen) at 2 by lia.
      apply splitChunks_back_finds; try assumption; lia. }
    rewrite Hback.
    destruct (slice_split s st) as (a & b & Ha & Hb & Hs & Hla); [lia|].
    rewrite Ha, Hb.
    assert (Hba : GoString.bytes a = take st (GoString.bytes s)).
    { rewrite Hs, bytes_app, take_app_length'; [reflexivity|].
      rewrite length_bytes. symmetry. exact Hla. }
    assert (Hbb : GoString.bytes b = drop st (GoString.bytes s)).
    { rewrite Hs, bytes_app, drop_app_length'; [reflexivity|].
      rewrite length_bytes. symmetry. exact Hla. }
    assert (Hlb : String.length s = (st + String.length b)%nat).
    { rewrite Hs at 1. rewrite length_append, Hla. reflexivity. }
    destruct (IH (String.length b) ltac:(lia) b fuel (chunks ++ [a])%list eq_refl)
      as (cs & Hcs & Hcat & Hall).
    + lia.
    + unfold utf8.ValidString. rewrite Hbb. exact Hvd.
    + exists (a :: cs). rewrite Hcs, <- app_assoc. split; [reflexivity|].
      split.
      * rewrite concat_cons, Hcat. symmetry. exact Hs.
      * constructor; [|exact Hall]. split.
        -- unfold GoString.len. lia.
        -- unfold utf8.ValidString. rewrite Hba. exact Hvt.
  - unfold GoString.len.
    destruct (Z.eqb_spec (Z.of_nat (String.length s)) 0) as [Hz|Hnz].
    + exists []. rewrite app_nil_r. split; [reflexivity|]. split; [|constructor].
      destruct s; [reflexivity|cbn in Hz; lia].
    + exists [s]. split; [reflexivity|]. split; [reflexivity|].
      constructor; [|constructor]. split; [unfold GoString.len; lia|exact Hvalid].
Qed.

(** For a limit of at least [utf8.UTFMax] bytes and valid UTF-8,
    [splitChunks] returns: the chunks concatenate to the string, each is
    within the limit and each is valid UTF-8, so that no cut falls inside
    a character. *)
Theorem splitChunks_valid (s : string) (chunkLen : Z) :
  utf8.UTFMax <= chunkLen -> utf8.ValidString s = true ->
  exists cs,
    splitChunks (S (String.length s)) s chunkLen = Some (Done cs)
    /\ String.concat "" cs = s
    /\ Forall (chunkOk chunkLen) cs.
Proof.
  intros Hmax Hvalid. unfold splitChunks.
  destruct (Z.leb_spec chunkLen 0) as [Hle|_]; [unfold utf8.UTFMax in Hmax; lia|].
  destruct (splitChunks_loop_valid chunkLen (String.length s) Hmax s
              (S (String.length s)) [] eq_refl ltac:(lia) Hvalid)
    as (cs & Hcs & Hcat & Hall).
  exists cs. auto.
Qed.

Lemma splitChunks_loop_e_acute (fuel : nat) (chunks : list string) :
  splitChunks_loop fuel e_acute 1 chunks = None.
Proof.
  revert chunks. induction fuel as [|fuel IH]; intros chunks; [reflexivity|].
  change (splitChunks_loop (S fuel) e_acute 1 chunks)
    with (splitChunks_loop fuel e_acute 1 (chunks ++ [""])%list).
  apply IH.
Qed.

Lemma splitChunks_loop_grinning_face (fuel : nat) (chunks : list string) :
  splitChunks_loop fuel grinning_face 3 chunks = None.
Proof.
  revert chunks. induction fuel as [|fuel IH]; intros chunks; [reflexivity|].
  change (splitChunks_loop (S fuel) grinning_face 3 chunks)
    with (splitChunks_loop fuel grinning_face 3 (chunks ++ [""])%list).
  apply IH.
Qed.

(** C4, at the failing input: for a limit below the width of the first
    character, here the two-byte U+00E9 under the limit 1 and the four-byte
    U+1F600 under the limit 3, the loop of [splitChunks] cuts an empty
    chunk and starts again on the same string: no number of iterations
    makes it return.  Both strings are valid UTF-8. *)
Theorem splitChunks_never_returns (fuel : nat) :
  splitChunks fuel e_acute 1 = None
  /\ splitChunks fuel grinning_face 3 = None
  /\ utf8.ValidString e_acute = true
  /\ utf8.ValidString grinning_face = true.
Proof.
  split; [apply splitChunks_loop_e_acute|].
  split; [apply splitChunks_loop_grinning_face|].
  split; reflexivity.
Qed.

(** On bytes that are not UTF-8 the backward scan can leave the string:
    six continuation bytes under the limit 4 make it slice at [-1]. *)
Example splitChunks_invalid_panics :
  splitChunks 1 (GoString.of_bytes [128; 128; 128; 128; 128; 128]) 4
  = Some Panic.
Proof. reflexivity. Qed.

(** ** The theorems at concrete inputs *)


(** [alice] parts [#c], her only channel, and is not monitored. *)
Lemma cleanup_on_last_membership_witness :
  let m := Reference.msg "alice!a@example.org" "PART" ["#c"] in
  let s' := match handleMessageRegistered m false 0 Reference.joined with
            | Done (s', _, _) => s'
            | Panic => Reference.joined
            end in
  hasMembership 1%nat Reference.joined /\ ~ hasMembership 1%nat s'
  /\ ~ inRoster 1%nat s'.
Proof.
  intros m s'.
  assert (Hbefore : hasMembership 1%nat Reference.joined)
    by (apply hasMembership_check; vm_compute; reflexivity).
  assert (Hafter : ~ hasMembership 1%nat s').
  { intros H. apply hasMembership_check in H. vm_compute in H. discriminate H. }
  split; [exact Hbefore|]. split; [exact Hafter|].
  assert (H1 : switch (Command m) = casePART) by reflexivity.
  assert (H2 : handleMessageRegistered m false 0 Reference.joined
               = Done (s', Some (UserPartEvent "alice" "#c" 0), None))
    by reflexivity.
  assert (H3 : keyedByName 1%nat Reference.joined)
    by (apply keyedByName_check; vm_compute; reflexivity).
  destruct (cleanup_on_last_membership m false 0 Reference.joined s' _ _ 1%nat
              (or_introl H1) H2 H3) as [_ H].
  apply (H Hbefore Hafter). intros (rec & Hrec & Hin).
  vm_compute in Hrec. injection Hrec as <-.
  apply (proj2 (bool_decide_eq_true _)) in Hin.
  vm_compute in Hin. discriminate Hin.
Defined.

(** Two typing notifications one second apart, and two stops. *)
Lemma typing_sent_once_witness :
  let s := set_enabledCaps {[ "message-tags" ]} Reference.session in
  (exists s1 s2 : Session,
     Typing "#c" 0 s = Done s1 /\ Typing "#c" Second s1 = Done s2
     /\ sentBetween s s2 [typingActive "#c"])
  /\ (exists s1 s2 : Session,
        TypingStop "#c" 0 s = Done s1 /\ TypingStop "#c" Second s1 = Done s2
        /\ sentBetween s s2 [typingDone "#c"])
  /\ Typing "#c" 0 Reference.session = Done Reference.session.
Proof.
  intros s.
  assert (Hcap : HasCapability s "message-tags" = true) by reflexivity.
  assert (Ho : closed s = false) by reflexivity.
  split; [|split].
  - destruct (proj1 (typing_sent_once "#c" 0 Second s) Hcap Ho eq_refl)
      as (s1 & s2 & H1 & H2 & _ & _ & H5 & _).
    exists s1, s2. split; [exact H1|]. split; [exact H2|].
    apply H5. reflexivity.
  - destruct (proj1 (proj2 (typing_sent_once "#c" 0 Second s)) Hcap Ho)
      as (s1 & s2 & H1 & H2 & _ & _ & H5 & _).
    exists s1, s2. split; [exact H1|]. split; [exact H2|].
    apply H5. reflexivity.
  - apply (proj2 (proj2 (typing_sent_once "#c" 0 0 Reference.session))).
    reflexivity.
Defined.

(** After a stop was sent, two more stops in a row send nothing; after an
    active state was sent, two more notifications within 3 seconds send
    nothing. *)
Example typing_twice_sends_nothing :
  let s := set_enabledCaps {[ "message-tags" ]} Reference.session in
  exists s1 s2 : Session,
    TypingStop "#c" 0 s = Done s1
    /\ sentBetween s s1 [typingDone "#c"]
    /\ TypingStop "#c" Second s1 = Done s1
    /\ TypingStop "#c" (2 * Second) s1 = Done s1
    /\ Typing "#c" 0 s = Done s2
    /\ sentBetween s s2 [typingActive "#c"]
    /\ Typing "#c" Second s2 = Done s2
    /\ Typing "#c" (2 * Second) s2 = Done s2.
Proof.
  intros s. eexists _, _.
  split; [reflexivity|]. split; [reflexivity|]. split; [reflexivity|].
  split; [reflexivity|]. split; [reflexivity|]. split; [reflexivity|].
  split; reflexivity.
Qed.


(** A JOIN without its channel parameter. *)
Lemma handleMessageRegistered_error_frame_witness :
  let m := Reference.msg "alice!a@example.org" "JOIN" [] in
  handleMessageRegistered m false 0 Reference.joined
  = Done (Reference.joined, None, Some (errNotEnoughParams "JOIN" 1))
  /\ users Reference.joined = users Reference.joined.
Proof.
  intros m.
  assert (H : handleMessageRegistered m false 0 Reference.joined
              = Done (Reference.joined, None, Some (errNotEnoughParams "JOIN" 1)))
    by reflexivity.
  split; [exact H|].
  exact (proj1 (proj2 (handleMessageRegistered_error_frame _ _ _ _ _ _ _ H))).
Defined.

(** An error after a mutation.  A PRIVMSG without its content is refused
    after the typing state of its sender was cleared; and a message tagged
    with the reference of the targets batch has its target stored by
    [handleRegistered] before the handler of its command, here a JOIN
    without prefix, returns its error. *)
Example error_after_mutation :
  let typing (s : Session) :=
    bool_decide (("#c", "alice") ∈ (typings s : gset (string * string))) in
  let s := set_typings ({[ ("#c", "alice") ]} : gset (string * string))
             Reference.joined in
  let st := set_targetsBatch (Some ∅)
              (set_targetsBatchID "h1" Reference.joined) in
  let tagged := {| Tags := {[ "batch" := "h1" ]}; Prefix_of := None;
                   Command := "JOIN"; Params := ["me"; "#c"; "7"] |} in
  match handleMessageRegistered
          (Reference.msg "alice!a@example.org" "PRIVMSG" ["#c"]) false 0 s,
        handleRegistered tagged 0 st with
  | Done (s', _, err), Done (st', _, errt) =>
      err = Some (errNotEnoughParams "PRIVMSG" 2)
      /\ typing s = true /\ typing s' = false
      /\ errt = Some errMissingPrefix
      /\ targetsBatch st = Some ∅
      /\ targetsBatch st' = Some {[ "#c" := 7 ]}
  | _, _ => False
  end.
Proof. vm_compute. repeat split. Qed.

(** A user stored before the casemap function changed.  [Al[ce] joins
    [#c] and is stored under the RFC 1459 key; the server then announces
    CASEMAPPING=ascii; when the user of the session parts [#c], the last
    channel of [Al[ce], the cleanup deletes the key that the new function
    gives, and the unmonitored user stays in the users map. *)
Example cleanup_misses_rekeyed_user :
  let join := Reference.msg "Al[ce!a@example.org" "JOIN" ["#c"] in
  let isupport := Reference.msg "" "005" ["me"; "CASEMAPPING=ascii"; "are supported"] in
  let part := Reference.msg "me!me@example.org" "PART" ["#c"] in
  exists s s' : Session,
    handleAll [(join, 0); (isupport, 0)] Reference.joined
    = Done (s, [(Some (UserJoinEvent "Al[ce" "#c" 0), None);
                (Some RegisteredEvent, None)])
    /\ handleMessageRegistered part false 0 s
       = Done (s', Some (SelfPartEvent "#c"), None)
    /\ hasMembership 2%nat s /\ ~ hasMembership 2%nat s'
    /\ ~ monitored 2%nat s
    /\ users s' !! "al{ce" = Some 2%nat /\ inRoster 2%nat s'
    /\ ~ keyedByName 2%nat s.
Proof.
  intros join isupport part.
  set (s := match handleAll [(join, 0); (isupport, 0)] Reference.joined with
            | Done (s, _) => s
            | Panic => Reference.joined
            end).
  set (s' := match handleMessageRegistered part false 0 s with
             | Done (s', _, _) => s'
             | Panic => s
             end).
  assert (Hkey : users s' !! "al{ce" = Some 2%nat) by (vm_compute; reflexivity).
  exists s, s'. split; [reflexivity|]. split; [reflexivity|].
  split; [apply hasMembership_check; vm_compute; reflexivity|].
  split.
  { intros H. apply hasMembership_check in H. vm_compute in H. discriminate H. }
  split.
  { intros (rec & Hrec & Hin). vm_compute in Hrec. injection Hrec as <-.
    apply (proj2 (bool_decide_eq_true _)) in Hin.
    vm_compute in Hin. discriminate Hin. }
  split; [exact Hkey|]. split; [exists "al{ce"; exact Hkey|].
  intros (rec & Hrec & Hiff). vm_compute in Hrec. injection Hrec as <-.
  assert (Hs : users s !! "al{ce" = Some 2%nat) by (vm_compute; reflexivity).
  pose proof (proj1 (Hiff "al{ce") Hs) as E. vm_compute in E. discriminate E.
Qed.

(** * Properties of the rest of the code *)

(** ** Playback and batches *)

Section Batches.

Context {C : Collaborators}.

(** X1: a replayed JOIN, PART, KICK, QUIT, NICK, TOPIC, MODE, PRIVMSG,
    NOTICE or TAGMSG always returns and leaves the session exactly as it
    was: playback only builds events (or an error). *)
Theorem playback_is_read_only (msg : Message) (now : Time) (s : Session) :
  In (switch (Command msg)) replayed ->
  exists (ev : option Event) (err : option error),
    handleMessageRegistered msg true now s = Done (s, ev, err).
Proof.
  intros Hcase. unfold handleMessageRegistered.
  destruct (switch (Command msg)); cbn in Hcase;
    try (exfalso; intuition discriminate);
    clear Hcase; unfold ret_nil, ret_event, ret_error;
    repeat match goal with
           | |- exists _ _, match ?x with _ => _ end = _ => destruct x
           | |- exists _ _, (let '(_, _) := ?x in _) = _ => destruct x
           end;
    eauto.
Qed.

Lemma batched_playback (id : string) (m : Message) (now : Time) (s : Session) :
  batchedMessage id m ->
  handleMessageRegistered m true now s
  = Done (s, Some (EvMessage (batchedEvent s (m, now))), None).
Proof.
  intros (_ & Hcmd & [pfx Hpfx] & Hlen).
  unfold handleMessageRegistered, batchedEvent, newMessageEvent, ParseParams.
  cbn [fst snd]. rewrite Hcmd, Hpfx.
  destruct (Nat.ltb_spec (length (Params m)) 1); [lia|].
  destruct (Nat.ltb_spec (length (Params m)) 2); [lia|].
  destruct (channels s !! _); reflexivity.
Qed.

(** While the chathistory batch [id] is open, its messages add their
    events to its accumulator and return nothing. *)
Lemma chBatch_collects (id target : string) (msgs : list (Message * Time)) :
  forall (acc : list Event) (B : gmap string HistoryEvent) (s : Session),
    id <> targetsBatchID s -> id <> searchBatchID s ->
    Forall (fun mt => batchedMessage id (fst mt)) msgs ->
    handleAll msgs
      (set_chBatches
         (<[id := {| HistoryEvent_Target := target;
                     HistoryEvent_Messages := acc |}]> B) s)
    = Done (set_chBatches
              (<[id := {| HistoryEvent_Target := target;
                          HistoryEvent_Messages :=
                            (acc ++ map (fun mt => EvMessage (batchedEvent s mt))
                                        msgs)%list |}]> B) s,
            map (fun _ => quiet) msgs).
Proof.
  induction msgs as [|[m now] msgs IH]; intros acc B s Ht Hs Hall.
  { cbn. rewrite app_nil_r. reflexivity. }
  apply Forall_cons in Hall as [Hm Hall]. cbn [fst] in Hm.
  cbn [handleAll]. unfold handleRegistered.
  rewrite (proj1 Hm).
  cbn [targetsBatchID searchBatchID set_chBatches chBatches].
  rewrite (proj2 (String.eqb_neq _ _) Ht), (proj2 (String.eqb_neq _ _) Hs).
  rewrite lookup_insert_eq.
  rewrite (batched_playback id) by assumption.
  cbn [obind HistoryEvent_Target HistoryEvent_Messages chBatches set_chBatches
       ret_nil].
  rewrite insert_insert_eq.
  specialize (IH (acc ++ [EvMessage (batchedEvent s (m, now))])%list B s Ht Hs Hall).
  cbn [set_chBatches] in IH |- *.
  match goal with
  | |- context [handleAll msgs ?x] =>
      match type of IH with
      | handleAll msgs ?y = _ => change x with y
      end
  end.
  rewrite IH. cbn [obind map]. rewrite <- app_assoc. reflexivity.
Qed.

Lemma handleAll_app (l1 l2 : list (Message * Time)) (s : Session) :
  handleAll (l1 ++ l2) s
  = do (s1, evs1) <- handleAll l1 s;
    do (s2, evs2) <- handleAll l2 s1;
    Done (s2, (evs1 ++ evs2)%list).
Proof.
  revert s. induction l1 as [|[m now] l1 IH]; intros s; cbn.
  - destruct (handleAll l2 s) as [[s2 evs2]|]; reflexivity.
  - destruct (handleRegistered m now s) as [[[s1 ev] err]|]; [|reflexivity].
    cbn. rewrite IH.
    destruct (handleAll l1 s1) as [[s2 evs1]|]; [|reflexivity]. cbn.
    destruct (handleAll l2 s2) as [[s3 evs2]|]; reflexivity.
Qed.

(** The head of the BATCH case for a reference [+id] or [-id]. *)
Lemma batch_reference (msg : Message) (sign : ascii) (id : string)
    (rest : list string) :
  Params msg = String sign id :: rest ->
  ParseParams msg 1 = None
  /\ param msg 0 = String sign id
  /\ (GoString.len (param msg 0) =? 0) = false
  /\ GoString.index (param msg 0) 0 = Done (GoString.byte sign)
  /\ GoString.slice_from (param msg 0) 1 = Done id.
Proof.
  intros Hp. unfold ParseParams, param. rewrite Hp. cbn [length nth].
  split; [reflexivity|]. split; [reflexivity|].
  rewrite len_String, index_String_0, slice_from_String_1.
  pose proof (len_nonneg id). split; [apply Z.eqb_neq; lia|]. auto.
Qed.

(** X2: a chathistory batch collects its messages.  From the BATCH that
    opens it to the BATCH that closes it, the PRIVMSG and NOTICE tagged
    with its reference return nothing and change nothing but its
    accumulator; the close returns their events, in order, under the
    target of the batch, and takes the casemapped target out of the
    requests in flight. *)
Theorem chathistory_batch_collects (id target : string)
    (rest rest' : list string) (mo mc : Message) (t0 t1 : Time)
    (msgs : list (Message * Time)) (s : Session) :
  Tags mo !! "batch" = None -> Command mo = "BATCH" ->
  Params mo = String "+" id :: "chathistory" :: target :: rest ->
  Tags mc !! "batch" = None -> Command mc = "BATCH" ->
  Params mc = String "-" id :: rest' ->
  id <> targetsBatchID s -> id <> searchBatchID s ->
  Forall (fun mt => batchedMessage id (fst mt)) msgs ->
  handleAll ((mo, t0) :: msgs ++ [(mc, t1)]) s
  = Done (set_chReqs (chReqs s ∖ {[casemap s target]})
            (set_chBatches (delete id (chBatches s)) s),
          (quiet :: map (fun _ => quiet) msgs
           ++ [(Some (EvHistory target
                        (map (fun mt => EvMessage (batchedEvent s mt)) msgs)),
                None)])%list).
Proof.
  intros Hto Hco Hpo Htc Hcc Hpc Ht Hs Hall.
  destruct (batch_reference mo _ _ _ Hpo) as (Hpp & Hparam & Hlen & Hidx & Hsl).
  assert (Hopen : handleRegistered mo t0 s
                  = Done (set_chBatches
                            (<[id := {| HistoryEvent_Target := target;
                                        HistoryEvent_Messages := [] |}]>
                               (chBatches s)) s, None, None)).
  { unfold handleRegistered. rewrite Hto.
    unfold handleMessageRegistered. rewrite Hco.
    change (switch "BATCH") with caseBATCH. cbv iota.
    rewrite Hpp, Hlen, Hidx, Hsl. cbn [obind].
    unfold ParseParams, param. rewrite Hpo. reflexivity. }
  cbn [handleAll]. rewrite Hopen. cbn [obind].
  rewrite handleAll_app.
  rewrite (chBatch_collects id target msgs [] (chBatches s) s Ht Hs Hall).
  cbn [obind handleAll app].
  unfold handleRegistered. rewrite Htc.
  rewrite (batch_close mc false t1 id
             {| HistoryEvent_Target := target;
                HistoryEvent_Messages :=
                  map (fun mt => EvMessage (batchedEvent s mt)) msgs |});
    [|assumption|rewrite Hpc; reflexivity|cbn; apply lookup_insert_eq].
  cbn [obind set_chBatches chBatches set_chReqs chReqs casemap
       HistoryEvent_Target HistoryEvent_event HistoryEvent_Messages].
  rewrite delete_insert_eq. reflexivity.
Qed.

(** While the search batch [id] is open, its messages add their events to
    its accumulator and return nothing. *)
Lemma searchBatch_collects (id : string) (msgs : list (Message * Time)) :
  forall (acc : list MessageEvent) (s : Session),
    id <> targetsBatchID s ->
    Forall (fun mt => batchedMessage id (fst mt)) msgs ->
    handleAll msgs (set_searchBatch acc (set_searchBatchID id s))
    = Done (set_searchBatch (acc ++ map (batchedEvent s) msgs)%list
              (set_searchBatchID id s),
            map (fun _ => quiet) msgs).
Proof.
  induction msgs as [|[m now] msgs IH]; intros acc s Ht Hall.
  { cbn. rewrite app_nil_r. reflexivity. }
  apply Forall_cons in Hall as [Hm Hall]. cbn [fst] in Hm.
  cbn [handleAll]. unfold handleRegistered.
  rewrite (proj1 Hm).
  cbn [targetsBatchID searchBatchID set_searchBatch set_searchBatchID].
  rewrite (proj2 (String.eqb_neq _ _) Ht), String.eqb_refl.
  rewrite (batched_playback id) by assumption.
  cbn [obind ret_nil].
  specialize (IH (acc ++ [batchedEvent s (m, now)])%list s Ht Hall).
  cbn [set_searchBatch set_searchBatchID searchBatch] in IH |- *.
  match goal with
  | |- context [handleAll msgs ?x] =>
      match type of IH with
      | handleAll msgs ?y = _ => change x with y
      end
  end.
  rewrite IH. cbn [obind map]. rewrite <- app_assoc. reflexivity.
Qed.

(** X3: a search batch collects its messages.  From the BATCH that opens
    it to the BATCH that closes it, the PRIVMSG and NOTICE tagged with its
    reference return nothing and are added to the accumulator, which the
    open had emptied; the close returns them, in order, and forgets the
    reference of the batch. *)
Theorem search_batch_collects (id : string) (rest rest' : list string)
    (mo mc : Message) (t0 t1 : Time) (msgs : list (Message * Time))
    (s : Session) :
  Tags mo !! "batch" = None -> Command mo = "BATCH" ->
  Params mo = String "+" id :: "soju.im/search" :: rest ->
  Tags mc !! "batch" = None -> Command mc = "BATCH" ->
  Params mc = String "-" id :: rest' ->
  id <> targetsBatchID s -> chBatches s !! id = None ->
  Forall (fun mt => batchedMessage id (fst mt)) msgs ->
  handleAll ((mo, t0) :: msgs ++ [(mc, t1)]) s
  = Done (set_searchBatchID ""
            (set_searchBatch (map (batchedEvent s) msgs) s),
          (quiet :: map (fun _ => quiet) msgs
           ++ [(Some (EvSearch (map (batchedEvent s) msgs)), None)])%list).
Proof.
  intros Hto Hco Hpo Htc Hcc Hpc Ht Hb Hall.
  destruct (batch_reference mo _ _ _ Hpo) as (Hpp & Hparam & Hlen & Hidx & Hsl).
  assert (Hopen : handleRegistered mo t0 s
                  = Done (set_searchBatch [] (set_searchBatchID id s),
                          None, None)).
  { unfold handleRegistered. rewrite Hto.
    unfold handleMessageRegistered. rewrite Hco.
    change (switch "BATCH") with caseBATCH. cbv iota.
    rewrite Hpp, Hlen, Hidx, Hsl. cbn [obind].
    unfold ParseParams, param. rewrite Hpo. reflexivity. }
  cbn [handleAll]. rewrite Hopen. cbn [obind].
  rewrite handleAll_app.
  rewrite (searchBatch_collects id msgs [] s Ht Hall).
  cbn [obind handleAll app].
  destruct (batch_reference mc _ _ _ Hpc) as (Hpp' & Hparam' & Hlen' & Hidx' & Hsl').
  unfold handleRegistered. rewrite Htc.
  unfold handleMessageRegistered. rewrite Hcc.
  change (switch "BATCH") with caseBATCH. cbv iota.
  rewrite Hpp', Hlen', Hidx', Hsl'. cbn [obind].
  change (GoString.byte "-" =? 43) with false. cbv iota.
  cbn [chBatches set_searchBatch set_searchBatchID targetsBatchID searchBatchID].
  rewrite Hb.
  rewrite (proj2 (String.eqb_neq _ _)) by congruence.
  rewrite String.eqb_refl. reflexivity.
Qed.

(** While the targets batch [id] is open, its entries set the times of
    their targets and return nothing. *)
Lemma targetsBatch_collects (id : string) (msgs : list (Message * Time)) :
  forall (acc : gmap string Time) (s : Session),
    Forall (fun mt => batchedTarget id (fst mt)) msgs ->
    handleAll msgs (set_targetsBatch (Some acc) (set_targetsBatchID id s))
    = Done (set_targetsBatch (Some (collectTargets msgs acc))
              (set_targetsBatchID id s),
            map (fun _ => quiet) msgs).
Proof.
  induction msgs as [|[m now] msgs IH]; intros acc s Hall; [reflexivity|].
  apply Forall_cons in Hall as [(Htag & Hcase & Hreply & Hlen) Hall].
  cbn [fst] in Htag, Hcase, Hreply, Hlen.
  cbn [handleAll]. unfold handleRegistered.
  rewrite Htag. cbn [targetsBatchID set_targetsBatch set_targetsBatchID].
  rewrite String.eqb_refl. unfold ParseParams.
  destruct (Nat.ltb_spec (length (Params m)) 3); [lia|].
  unfold collectTargets. cbn [foldl fst].
  destruct (parseTimestamp (param m 2)) as [t|].
  - cbn [targetsBatch set_targetsBatch].
    unfold handleMessageRegistered. rewrite Hcase, Hreply.
    cbn [ret_nil obind].
    specialize (IH (<[param m 1 := t]> acc) s Hall).
    cbn [set_targetsBatch set_targetsBatchID] in IH |- *.
    match goal with
    | |- context [handleAll msgs ?x] =>
        match type of IH with
        | handleAll msgs ?y = _ => change x with y
        end
    end.
    rewrite IH. reflexivity.
  - cbn [ret_nil obind]. rewrite (IH acc s Hall). reflexivity.
Qed.

(** X4: a chathistory-targets batch collects its entries.  From the BATCH
    that opens it to the BATCH that closes it, each entry tagged with its
    reference sets the time of its target when its timestamp parses and is
    skipped otherwise, and returns nothing; the close returns the targets
    collected from an empty map, forgets the reference of the batch and
    takes the empty target out of the requests in flight. *)
Theorem targets_batch_collects (id : string) (rest rest' : list string)
    (mo mc : Message) (t0 t1 : Time) (msgs : list (Message * Time))
    (s : Session) :
  Tags mo !! "batch" = None -> Command mo = "BATCH" ->
  Params mo = String "+" id :: "draft/chathistory-targets" :: rest ->
  Tags mc !! "batch" = None -> Command mc = "BATCH" ->
  Params mc = String "-" id :: rest' ->
  chBatches s !! id = None ->
  Forall (fun mt => batchedTarget id (fst mt)) msgs ->
  handleAll ((mo, t0) :: msgs ++ [(mc, t1)]) s
  = Done (set_chReqs (chReqs s ∖ {[""]})
            (set_targetsBatchID ""
               (set_targetsBatch (Some (collectTargets msgs ∅)) s)),
          (quiet :: map (fun _ => quiet) msgs
           ++ [(Some (EvHistoryTargets (Some (collectTargets msgs ∅))),
                None)])%list).
Proof.
  intros Hto Hco Hpo Htc Hcc Hpc Hb Hall.
  destruct (batch_reference mo _ _ _ Hpo) as (Hpp & Hparam & Hlen & Hidx & Hsl).
  assert (Hopen : handleRegistered mo t0 s
                  = Done (set_targetsBatch (Some ∅) (set_targetsBatchID id s),
                          None, None)).
  { unfold handleRegistered. rewrite Hto.
    unfold handleMessageRegistered. rewrite Hco.
    change (switch "BATCH") with caseBATCH. cbv iota.
    rewrite Hpp, Hlen, Hidx, Hsl. cbn [obind].
    unfold ParseParams, param. rewrite Hpo. reflexivity. }
  cbn [handleAll]. rewrite Hopen. cbn [obind].
  rewrite handleAll_app.
  rewrite (targetsBatch_collects id msgs ∅ s Hall).
  cbn [obind handleAll app].
  destruct (batch_reference mc _ _ _ Hpc) as (Hpp' & Hparam' & Hlen' & Hidx' & Hsl').
  unfold handleRegistered. rewrite Htc.
  unfold handleMessageRegistered. rewrite Hcc.
  change (switch "BATCH") with caseBATCH. cbv iota.
  rewrite Hpp', Hlen', Hidx', Hsl'. cbn [obind].
  change (GoString.byte "-" =? 43) with false. cbv iota.
  cbn [chBatches set_targetsBatch set_targetsBatchID targetsBatchID].
  rewrite Hb, String.eqb_refl. reflexivity.
Qed.

(** X5: a message tagged with the reference of the targets batch, when no
    targets batch was ever opened, stores its entry into a nil map: with a
    target and a timestamp that parses, [handleRegistered] panics.  A
    session that has seen no targets batch holds the empty reference, which
    a [batch] tag without a value matches. *)
Theorem targets_entry_without_batch_panics (msg : Message) (now t : Time)
    (s : Session) :
  Tags msg !! "batch" = Some (targetsBatchID s) ->
  targetsBatch s = None ->
  (3 <= length (Params msg))%nat ->
  parseTimestamp (param msg 2) = Some t ->
  handleRegistered msg now s = Panic.
Proof.
  intros Htag Hnil Hlen Ht. unfold handleRegistered, ParseParams.
  rewrite Htag, String.eqb_refl.
  destruct (Nat.ltb_spec (length (Params msg)) 3); [lia|].
  rewrite Ht, Hnil. reflexivity.
Qed.

End Batches.

(** A replayed PART of [alice]. *)
Lemma playback_is_read_only_witness :
  exists (ev : option Event) (err : option error),
    handleMessageRegistered
      (Reference.msg "alice!a@example.org" "PART" ["#c"]) true 0
      Reference.joined
    = Done (Reference.joined, ev, err).
Proof.
  apply playback_is_read_only. right. left. reflexivity.
Defined.

Lemma sample_hello_ok : batchedMessage "h1" sample_hello.
Proof.
  split; [reflexivity|]. split; [reflexivity|].
  split; [eexists; reflexivity|]. cbn. lia.
Defined.

Lemma chathistory_batch_collects_witness :
  exists s' : Session,
    handleAll [(sample_open "chathistory" ["#c"], 0); (sample_hello, 1);
               (sample_close, 2)] Reference.joined
    = Done (s',
            [quiet; quiet;
             (Some (EvHistory "#c"
                      [EvMessage (batchedEvent Reference.joined
                                    (sample_hello, 1))]), None)]).
Proof.
  eexists.
  apply (chathistory_batch_collects "h1" "#c" [] [] (sample_open "chathistory" ["#c"])
           sample_close 0 2 [(sample_hello, 1)] Reference.joined);
    try reflexivity; try discriminate.
  constructor; [exact sample_hello_ok|constructor].
Defined.

Lemma search_batch_collects_witness :
  exists s' : Session,
    handleAll [(sample_open "soju.im/search" [], 0);
               (sample_hello, 1); (sample_close, 2)] Reference.joined
    = Done (s',
            [quiet; quiet;
             (Some (EvSearch [batchedEvent Reference.joined (sample_hello, 1)]),
              None)]).
Proof.
  eexists.
  apply (search_batch_collects "h1" [] [] (sample_open "soju.im/search" [])
           sample_close 0 2 [(sample_hello, 1)] Reference.joined);
    try reflexivity; try discriminate.
  constructor; [exact sample_hello_ok|constructor].
Defined.

Lemma targets_batch_collects_witness :
  exists s' : Session,
    handleAll [(sample_open "draft/chathistory-targets" [], 0);
               (sample_target, 1); (sample_close, 2)] Reference.joined
    = Done (s',
            [quiet; quiet;
             (Some (EvHistoryTargets
                      (Some (collectTargets [(sample_target, 1)] ∅))), None)]).
Proof.
  eexists.
  apply (targets_batch_collects "h1" [] [] (sample_open "draft/chathistory-targets" [])
           sample_close 0 2 [(sample_target, 1)] Reference.joined);
    try reflexivity.
  constructor; [|constructor].
  split; [reflexivity|]. split; [reflexivity|]. split; [reflexivity|]. cbn. lia.
Defined.

(** The same entry under a [batch] tag without a value, in a session
    that has seen no targets batch. *)
Lemma targets_entry_without_batch_panics_witness :
  handleRegistered
    {| Tags := {[ "batch" := "" ]}; Prefix_of := None;
       Command := "CHATHISTORY"; Params := ["TARGETS"; "#c"; "7"] |}
    0 Reference.joined
  = Panic.
Proof.
  apply (targets_entry_without_batch_panics _ 0 7 Reference.joined);
    [reflexivity|reflexivity|cbn; lia|reflexivity].
Defined.

(** ** After the session is closed *)

Section Closed.

Context {C : Collaborators}.

Lemma send_closed (m : Message) (s : Session) :
  closed s = true -> send m s = Panic.
Proof. unfold send. intros ->. reflexivity. Qed.

Lemma closed_Close (s : Session) : closed (Close s) = true.
Proof. unfold Close. destruct (closed s) eqn:E; [exact E|reflexivity]. Qed.

(** X6: the ERROR message closes the session.  From then on a second
    ERROR changes nothing, and everything that sends panics on the closed
    output channel: the builders of outbound messages and the answer to a
    PING. *)
Theorem error_closes_session (msg ping : Message) (playback : bool)
    (now : Time) (s : Session) :
  Command msg = "ERROR" ->
  Command ping = "PING" -> (1 <= length (Params ping))%nat ->
  exists s' : Session,
    handleMessageRegistered msg playback now s = Done (s', None, None)
    /\ closed s' = true
    /\ handleMessageRegistered msg playback now s' = Done (s', None, None)
    /\ handleMessageRegistered ping playback now s' = Panic
    /\ (forall raw, SendRaw raw s' = Panic)
    /\ (forall channel key t, Join channel key t s' = Panic)
    /\ (forall channel reason, Part channel reason s' = Panic)
    /\ (forall channel topic, ChangeTopic channel topic s' = Panic)
    /\ (forall reason, Quit reason s' = Panic)
    /\ (forall nick, ChangeNick nick s' = Panic)
    /\ (forall channel flags args, ChangeMode channel flags args s' = Panic)
    /\ (forall nick channel, Invite nick channel s' = Panic)
    /\ (forall nick channel comment, Kick nick channel comment s' = Panic).
Proof.
  intros Hcmd Hping Hlen. exists (Close s).
  pose proof (closed_Close s) as Hclosed.
  assert (Herr : forall s0, handleMessageRegistered msg playback now s0
                            = Done (Close s0, None, None)).
  { intros s0. unfold handleMessageRegistered. rewrite Hcmd. reflexivity. }
  split; [apply Herr|]. split; [exact Hclosed|].
  split; [rewrite Herr; unfold Close at 1; rewrite Hclosed; reflexivity|].
  split.
  { unfold handleMessageRegistered, ParseParams. rewrite Hping.
    change (switch "PING") with casePING. cbv iota.
    destruct (Nat.ltb_spec (length (Params ping)) 1); [lia|].
    rewrite send_closed by assumption. reflexivity. }
  unfold SendRaw, Join, Part, ChangeTopic, Quit, ChangeNick, ChangeMode,
    Invite, Kick.
  repeat split; intros;
    repeat match goal with |- context [if ?b then _ else _] => destruct b end;
    apply send_closed; assumption.
Qed.

End Closed.

(** ** ISUPPORT: what the tokens can and cannot do *)

Section Isupport.

Context {C : Collaborators}.

Lemma withFeaturesOf_same (s : Session) : withFeaturesOf s s = s.
Proof. destruct s; reflexivity. Qed.

Lemma updateFeature_features (f : string) (s s' : Session) :
  updateFeature f s = Done s' -> s' = withFeaturesOf s' s.
Proof.
  unfold updateFeature. intros H. cases_of H; simplify_eq;
    first [symmetry; apply withFeaturesOf_same | reflexivity].
Qed.

Lemma updateFeatures_features (features : list string) (s s' : Session) :
  updateFeatures features s = Done s' -> s' = withFeaturesOf s' s.
Proof.
  revert s. induction features as [|f l IH]; intros s; cbn.
  - intros [= <-]. symmetry. apply withFeaturesOf_same.
  - destruct (updateFeature f s) as [s1|] eqn:E; [|discriminate]. cbn.
    intros H. apply IH in H. apply updateFeature_features in E.
    rewrite H, E. reflexivity.
Qed.

(** X7: ISUPPORT tokens change the feature table and nothing else.  In
    particular a CASEMAPPING token replaces the casemap function, but the
    casemapped nick of the session and the keys of the users, channels and
    monitor maps stay as the former function made them. *)
Theorem updateFeatures_only_features (features : list string)
    (s s' : Session) :
  updateFeatures features s = Done s' ->
  s' = withFeaturesOf s' s
  /\ nick s' = nick s /\ nickCf s' = nickCf s
  /\ users s' = users s /\ mem s' = mem s /\ channels s' = channels s
  /\ monitors s' = monitors s /\ pendingChannels s' = pendingChannels s
  /\ typingStamps s' = typingStamps s /\ chReqs s' = chReqs s
  /\ enabledCaps s' = enabledCaps s /\ out s' = out s
  /\ registered s' = registered s /\ closed s' = closed s.
Proof.
  intros H. pose proof (updateFeatures_features _ _ _ H) as Hs.
  split; [exact Hs|]. rewrite Hs. repeat split.
Qed.

Lemma String_eqb_true (a b : string) : a = b -> (a == b) = true.
Proof. intros ->. apply String.eqb_refl. Qed.

Lemma emptyPrefix_panics (f : string) (s : Session) :
  emptyPrefix f -> updateFeature f s = Panic.
Proof.
  intros (Hminus & Hkey & Hvalue). unfold updateFeature.
  destruct ((f == "") || (f == "-") || (f == "=") || (f == "-=")) eqn:Hskip.
  { exfalso. repeat rewrite orb_true_iff in Hskip.
    repeat rewrite String.eqb_eq in Hskip.
    destruct Hskip as [[[->| ->]| ->]| ->]; vm_compute in Hkey, Hminus;
      discriminate. }
  rewrite Hminus. cbn [obind negb]. rewrite Hkey, Hvalue. reflexivity.
Qed.

Lemma updateFeatures_Panic_Exists (features : list string) (s : Session) :
  updateFeatures features s = Panic <-> Exists emptyPrefix features.
Proof.
  revert s. induction features as [|f l IH]; intros s; cbn.
  - split; [discriminate|]. intros H. inversion H.
  - destruct (updateFeature f s) as [s1|] eqn:E; cbn.
    + rewrite IH. split; [intros H; right; exact H|].
      intros H. apply Exists_cons in H as [H|H]; [|exact H].
      rewrite (emptyPrefix_panics f s H) in E. discriminate.
    + split; [|reflexivity]. intros _. left.
      apply (updateFeature_Panic_inv f s E).
Qed.

(** X8: [updateFeatures] fails to return on exactly one kind of token: it
    panics if and only if the list holds a token that adds PREFIX without
    a value; on every other list it returns normally. *)
Theorem updateFeatures_panics_iff (features : list string) (s : Session) :
  (updateFeatures features s = Panic <-> Exists emptyPrefix features)
  /\ (~ Exists emptyPrefix features ->
      exists s', updateFeatures features s = Done s').
Proof.
  split; [apply updateFeatures_Panic_Exists|].
  intros Hnone. destruct (updateFeatures features s) as [s'|] eqn:E; [eauto|].
  apply updateFeatures_Panic_Exists in E. contradiction.
Qed.

Lemma length_substring (s : string) :
  forall n m : nat,
    (n + m <= String.length s)%nat ->
    String.length (String.substring n m s) = m.
Proof.
  induction s as [|c s IH]; intros n m H; cbn in H.
  - assert (n = 0%nat) by lia. assert (m = 0%nat) by lia. subst. reflexivity.
  - destruct n as [|n]; cbn.
    + destruct m as [|m]; [reflexivity|]. cbn. rewrite IH by lia. reflexivity.
    + apply IH. lia.
Qed.

Lemma len_slice (s r : string) (lo hi : Z) :
  GoString.slice s lo hi = Done r -> GoString.len r = hi - lo.
Proof.
  unfold GoString.slice.
  destruct (Z.leb_spec 0 lo); [|discriminate].
  destruct (Z.leb_spec lo hi); [|discriminate].
  destruct (Z.leb_spec hi (GoString.len s)); [|discriminate].
  cbn. intros [= <-]. unfold GoString.len in *.
  rewrite length_substring by lia. lia.
Qed.

Lemma updateFeature_aligned (f : string) (s s' : Session) :
  updateFeature f s = Done s' -> prefixesAligned s -> prefixesAligned s'.
Proof.
  unfold updateFeature, prefixesAligned. intros H Ha.
  cases_of H; simplify_eq; cbn; try exact Ha; try reflexivity.
  all: repeat match goal with
         | E : GoString.slice_from _ _ = Done _ |- _ =>
             unfold GoString.slice_from in E
         | E : GoString.slice _ _ _ = Done _ |- _ => apply len_slice in E
         | E : (_ =? 0) = true |- _ => apply Z.eqb_eq in E
         | E : negb _ = false |- _ => apply negb_false_iff in E
         end.
  all: match goal with
       | E : GoString.len ?v mod 2 = 0 |- _ =>
           pose proof (Z.div_mod (GoString.len v) 2); lia
       end.
Qed.

Lemma updateFeatures_aligned (features : list string) (s s' : Session) :
  updateFeatures features s = Done s' ->
  prefixesAligned s -> prefixesAligned s'.
Proof.
  revert s. induction features as [|f l IH]; intros s; cbn.
  - intros [= <-]. auto.
  - destruct (updateFeature f s) as [s1|] eqn:E; [|discriminate]. cbn.
    intros H Ha. apply (IH _ H). eapply updateFeature_aligned; eauto.
Qed.

End Isupport.

Lemma updateFeatures_only_features_witness :
  exists s' : Session,
    updateFeatures ["CASEMAPPING=ascii"] Reference.joined = Done s'
    /\ nickCf s' = "me"
    /\ users s' = users Reference.joined.
Proof.
  eexists. split; [reflexivity|].
  pose proof (updateFeatures_only_features ["CASEMAPPING=ascii"]
                Reference.joined _ eq_refl) as H.
  split; [exact (proj1 (proj2 (proj2 H)))|exact (proj1 (proj2 (proj2 (proj2 H))))].
Defined.

(** ** The store of user records stays consistent *)

Section Sound.

Context {C : Collaborators}.

Lemma core_grow (m : list User) (x : User) u ch pm ps :
  soundCore m u ch pm ps -> soundCore (m ++ [x]) u ch pm ps.
Proof.
  intros (Hu & Hc & Ha). split; [|split; [|exact Ha]].
  - intros k p H. apply Hu in H. rewrite length_app. lia.
  - intros k c p H1 H2. specialize (Hc k c p H1 H2). rewrite length_app. lia.
Qed.

Lemma core_store (m : list User) (q : nat) (x : User) u ch pm ps :
  soundCore m u ch pm ps -> soundCore (<[q := x]> m) u ch pm ps.
Proof.
  intros (Hu & Hc & Ha). split; [|split; [|exact Ha]].
  - intros k p H. apply Hu in H. rewrite length_insert. exact H.
  - intros k c p H1 H2. rewrite length_insert. eauto.
Qed.

Lemma core_insert_user (m : list User) (k : string) (q : ptr) u ch pm ps :
  (q < length m)%nat ->
  soundCore m u ch pm ps -> soundCore m (<[k := q]> u) ch pm ps.
Proof.
  intros Hq (Hu & Hc & Ha). split; [|split; [exact Hc|exact Ha]].
  intros k' p. destruct (decide (k = k')) as [->|Hne].
  - rewrite lookup_insert_eq. intros [= <-]. exact Hq.
  - rewrite lookup_insert_ne by assumption. apply Hu.
Qed.

Lemma core_delete_user (m : list User) (k : string) u ch pm ps :
  soundCore m u ch pm ps -> soundCore m (delete k u) ch pm ps.
Proof.
  intros (Hu & Hc & Ha). split; [|split; [exact Hc|exact Ha]].
  intros k' p H. apply lookup_delete_Some in H as [_ H]. eauto.
Qed.

Lemma core_insert_channel (m : list User) (k : string) (c : Channel) u ch pm ps :
  validIn m (Members c) ->
  soundCore m u ch pm ps -> soundCore m u (<[k := c]> ch) pm ps.
Proof.
  intros Hv (Hu & Hc & Ha). split; [exact Hu|split; [|exact Ha]].
  intros k' c' p. destruct (decide (k = k')) as [->|Hne].
  - rewrite lookup_insert_eq. intros [= <-]. apply Hv.
  - rewrite lookup_insert_ne by assumption. apply Hc.
Qed.

Lemma core_delete_channel (m : list User) (k : string) u ch pm ps :
  soundCore m u ch pm ps -> soundCore m u (delete k ch) pm ps.
Proof.
  intros (Hu & Hc & Ha). split; [exact Hu|split; [|exact Ha]].
  intros k' c p H. apply lookup_delete_Some in H as [_ H]. eauto.
Qed.

Lemma core_members (m : list User) (k : string) (c : Channel) u ch pm ps :
  soundCore m u ch pm ps -> ch !! k = Some c -> validIn m (Members c).
Proof. intros (_ & Hc & _) H p. eauto. Qed.

Lemma validIn_grow (m : list User) (x : User) (members : gmap ptr string) :
  validIn m members -> validIn (m ++ [x]) members.
Proof. intros H p Hp. apply H in Hp. rewrite length_app. lia. Qed.

Lemma validIn_insert (m : list User) (p : ptr) (v : string)
    (members : gmap ptr string) :
  (p < length m)%nat -> validIn m members -> validIn m (<[p := v]> members).
Proof.
  intros Hp H q. destruct (decide (p = q)) as [->|Hne]; [auto|].
  rewrite lookup_insert_ne by assumption. apply H.
Qed.

Lemma validIn_delete (m : list User) (p : ptr) (members : gmap ptr string) :
  validIn m members -> validIn m (delete p members).
Proof.
  intros H q [v Hq]. apply lookup_delete_Some in Hq as [_ Hq]. apply H. eauto.
Qed.

Lemma validIn_empty (m : list User) : validIn m ∅.
Proof. intros p [v H]. rewrite lookup_empty in H. discriminate. Qed.

Lemma sound_send (m : Message) (s s' : Session) :
  send m s = Done s' -> sound s -> sound s'.
Proof. unfold send. destruct (closed s); intros [= <-] H; exact H. Qed.

Lemma sound_sendAll (l : list Message) (s s' : Session) :
  sendAll l s = Done s' -> sound s -> sound s'.
Proof.
  revert s. induction l as [|m l IH]; intros s; cbn; [intros [= <-]; auto|].
  destruct (send m s) as [s1|] eqn:E; [|discriminate]. cbn. intros H Hs.
  apply (IH _ H). eapply sound_send; eauto.
Qed.

Lemma sound_endRegistration (s s' : Session) :
  endRegistration s = Done s' -> sound s -> sound s'.
Proof.
  unfold endRegistration. destruct (registered s); [intros [= <-]; auto|].
  destruct (negb _); apply sound_sendAll.
Qed.

Lemma sound_capAck (l : list Cap) (s s' : Session) :
  capAck l s = Done s' -> sound s -> sound s'.
Proof.
  revert s. induction l as [|c l IH]; intros s; cbn; [intros [= <-]; auto|].
  intros H Hs. unfold obind in H.
  match type of H with
  | match ?m with _ => _ end = _ => destruct m as [s2|] eqn:E; [|discriminate]
  end.
  apply (IH _ H). clear H IH.
  cases_of E; simplify_eq;
    first [ exact Hs
          | match goal with
            | E : send _ _ = Done _ |- _ => apply (sound_send _ _ _ E); exact Hs
            | E : sendAll _ _ = Done _ |- _ =>
                apply (sound_sendAll _ _ _ E); exact Hs
            end ].
Qed.

Lemma sound_capNew (l : list Cap) (s s' : Session) :
  capNew l s = Done s' -> sound s -> sound s'.
Proof.
  revert s. induction l as [|c l IH]; intros s; cbn; [intros [= <-]; auto|].
  destruct (negb _); [intros H Hs; apply (IH _ H); exact Hs|].
  destruct (bool_decide _); [intros H Hs; apply (IH _ H); exact Hs|].
  destruct (send _ _) as [s2|] eqn:E; [|discriminate]. cbn.
  intros H Hs. apply (IH _ H). apply (sound_send _ _ _ E). exact Hs.
Qed.

Lemma sound_capDel (l : list Cap) (s : Session) :
  sound s -> sound (capDel l s).
Proof.
  revert s. induction l as [|c l IH]; intros s Hs; cbn; [exact Hs|].
  apply IH. exact Hs.
Qed.

Lemma sound_Close (s : Session) : sound s -> sound (Close s).
Proof. unfold Close. destruct (closed s); intros H; exact H. Qed.

Lemma sound_cleanUser (p : ptr) (s s' : Session) :
  cleanUser p s = Done s' ->
  sound s -> sound s' /\ mem s' = mem s /\ channels s' = channels s.
Proof.
  unfold cleanUser. intros H Hs. cases_of H; simplify_eq; auto.
  split; [|auto]. apply core_delete_user. exact Hs.
Qed.

Lemma sound_cleanUsers (l : list ptr) (s s' : Session) :
  cleanUsers l s = Done s' -> sound s -> sound s'.
Proof.
  revert s. induction l as [|p l IH]; intros s; cbn; [intros [= <-]; auto|].
  destruct (cleanUser p s) as [s1|] eqn:E; [|discriminate]. cbn. intros H Hs.
  apply (IH _ H). apply (sound_cleanUser _ _ _ E Hs).
Qed.

Lemma sound_ensureUser (k : string) (name : Prefix) (s s1 : Session) (p : ptr) :
  ensureUser k name s = (p, s1) ->
  sound s ->
  sound s1 /\ (p < length (mem s1))%nat
  /\ channels s1 = channels s
  /\ (forall members, validIn (mem s) members -> validIn (mem s1) members).
Proof.
  unfold ensureUser, alloc. intros H Hs.
  destruct (users s !! k) as [q|] eqn:Hq; injection H as <- <-.
  - split; [exact Hs|]. split; [exact (proj1 Hs _ _ Hq)|]. auto.
  - unfold sound. cbn [mem users channels prefixModes prefixSymbols set_users set_mem].
    split; [|split; [rewrite length_app; cbn; lia|split; [reflexivity|]]].
    + apply core_insert_user; [rewrite length_app; cbn; lia|].
      apply core_grow. exact Hs.
    + intros members. apply validIn_grow.
Qed.

Lemma sound_updateMembers (k : string) (c : Channel)
    (members : gmap ptr string) (s : Session) :
  validIn (mem s) members -> sound s -> sound (updateMembers k c members s).
Proof. intros Hv Hs. apply core_insert_channel; assumption. Qed.

Lemma sound_quitLoop (u : ptr) (n : string) (l : list (string * Channel)) :
  forall (chans chans' : list string) (s s' : Session),
    quitLoop u n l chans s = Done (s', chans') ->
    (forall kc, kc ∈ l -> validIn (mem s) (Members (snd kc))) ->
    sound s -> sound s'.
Proof.
  induction l as [|[k c] l IH]; intros chans chans' s s'; cbn;
    [intros [= <- _]; auto|].
  destruct (bool_decide _).
  - destruct (cleanUser _ _) as [s2|] eqn:E; [|discriminate]. cbn.
    intros H Hl Hs.
    assert (Hs1 : sound (updateMembers k c (delete u (Members c)) s)).
    { apply sound_updateMembers; [|exact Hs]. apply validIn_delete.
      apply (Hl (k, c)). left. }
    destruct (sound_cleanUser _ _ _ E Hs1) as (Hs2 & Hm & _).
    eapply IH; [exact H| |exact Hs2].
    intros kc Hkc. cbn. rewrite Hm. apply Hl. right. exact Hkc.
  - intros H Hl Hs. eapply IH; [exact H| |exact Hs].
    intros kc Hkc. apply Hl. right. exact Hkc.
Qed.

Lemma sound_monitorLoop (online : bool) (l : list string) :
  forall (s s' : Session) (ev : option Event),
    monitorLoop online l s = Done (s', ev) -> sound s -> sound s'.
Proof.
  induction l as [|t l IH]; intros s s' ev; cbn; [intros [= <- _]; auto|].
  destruct (ParsePrefix t) as [prefix|]; [|apply IH].
  destruct (bool_decide _); [|apply IH].
  destruct (ensureUser _ prefix s) as [p s1] eqn:E.
  intros H Hs. destruct (sound_ensureUser _ _ _ _ _ E Hs) as (Hs1 & _).
  destruct (deref s1 p) as [u|]; [|discriminate]. cbn in H.
  destruct online, (User_Disconnected u); cbn in H;
    first [ injection H as <- _; apply core_store; exact Hs1
          | eapply IH; eauto ].
Qed.

Lemma sound_namesLoop (l : list Member) :
  forall (members members' : gmap ptr string) (s s' : Session),
    namesLoop l members s = (s', members') ->
    sound s -> validIn (mem s) members ->
    sound s' /\ validIn (mem s') members'.
Proof.
  induction l as [|n l IH]; intros members members' s s'; cbn;
    [intros [= <- <-]; auto|].
  destruct (ensureUser _ _ s) as [p s1] eqn:E. intros H Hs Hv.
  destruct (sound_ensureUser _ _ _ _ _ E Hs) as (Hs1 & Hp & _ & Hgrow).
  eapply IH; [exact H|exact Hs1|]. apply validIn_insert; auto.
Qed.

Lemma modeLoop_members (l : list ModeChange) (s : Session) (x : ptr) :
  forall members members' : gmap ptr string,
    modeLoop l members s = Done members' ->
    is_Some (members' !! x) -> is_Some (members !! x).
Proof.
  induction l as [|ch l IH]; intros members members'; cbn;
    [intros [= <-]; auto|].
  intros H. cases_of H; eauto;
    intros Hx; apply (IH _ _ H) in Hx;
    match goal with
    | Hm : members !! ?q = Some _ |- _ =>
        destruct (decide (q = x)) as [<-|Hne];
          [eauto|rewrite lookup_insert_ne in Hx by assumption; exact Hx]
    end.
Qed.

End Sound.
Section Sound2.
Context {C : Collaborators}.

Lemma validIn_store (m : list User) (q : nat) (x : User)
    (members : gmap ptr string) :
  validIn m members -> validIn (<[q := x]> m) members.
Proof. intros H p Hp. rewrite length_insert. auto. Qed.

Lemma sound_users_lt (s : Session) (k : string) (p : ptr) :
  sound s -> users s !! k = Some p -> (p < length (mem s))%nat.
Proof. intros (Hu & _) H. eauto. Qed.

Lemma sound_members (s : Session) (k : string) (c : Channel) :
  sound s -> channels s !! k = Some c -> validIn (mem s) (Members c).
Proof. intros Hs H. eapply core_members; eauto. Qed.

(** Reduce the soundness of a session written with field updates to the
    soundness of the session it is built from. *)
Ltac sound_core Hs :=
  unfold sound, updateMembers, store; cbn;
  repeat first
    [ exact Hs
    | apply core_delete_user
    | apply core_delete_channel
    | apply core_insert_user;
      [rewrite ?length_insert, ?length_app;
       first [ eapply sound_users_lt; [exact Hs|eassumption]
             | assumption | cbn; lia ]|]
    | apply core_insert_channel;
      [cbn; repeat first
         [ apply validIn_store | apply validIn_grow | apply validIn_empty
         | apply validIn_delete
         | eapply sound_members; [exact Hs|eassumption]
         | assumption ]|]
    | apply core_store
    | apply core_grow ].

Ltac sound_forward :=
  repeat match goal with
         | E : match ?x with _ => _ end = _ |- _ => destruct x eqn:?; simplify_eq
         | E : alloc _ _ = (_, _) |- _ => unfold alloc in E; injection E as <- <-
         | E : send _ ?a = Done ?b, Hs : sound ?a0 |- _ =>
             assert (sound b)
               by (apply (sound_send _ _ _ E); first [exact Hs|sound_core Hs]);
             clear E
         | E : sendAll _ ?a = Done ?b, Hs : sound ?a0 |- _ =>
             assert (sound b) by (apply (sound_sendAll _ _ _ E); exact Hs); clear E
         | E : endRegistration ?a = Done ?b, Hs : sound ?a0 |- _ =>
             assert (sound b) by (apply (sound_endRegistration _ _ E); exact Hs);
             clear E
         | E : capAck _ ?a = Done ?b, Hs : sound ?a0 |- _ =>
             assert (sound b) by (apply (sound_capAck _ _ _ E); exact Hs); clear E
         | E : capNew _ ?a = Done ?b, Hs : sound ?a0 |- _ =>
             assert (sound b) by (apply (sound_capNew _ _ _ E); exact Hs); clear E
         | E : updateFeatures _ ?a = Done ?b, Hs : sound ?a0 |- _ =>
             assert (sound b)
               by (pose proof (updateFeatures_aligned _ _ _ E
                                 (proj2 (proj2 Hs))) as Ha;
                   rewrite (updateFeatures_features _ _ _ E);
                   exact (conj (proj1 Hs) (conj (proj1 (proj2 Hs)) Ha)));
             clear E
         | E : monitorLoop _ _ ?a = Done (?b, _), Hs : sound ?a0 |- _ =>
             assert (sound b) by (apply (sound_monitorLoop _ _ _ _ _ E); exact Hs);
             clear E
         | E : cleanUser _ ?a = Done ?b, Hs : sound ?a0 |- _ =>
             assert (sound b)
               by (apply (sound_cleanUser _ _ _ E); sound_core Hs);
             clear E
         | E : cleanUsers _ ?a = Done ?b, Hs : sound ?a0 |- _ =>
             assert (sound b)
               by (apply (sound_cleanUsers _ _ _ E); sound_core Hs);
             clear E
         end.

Lemma handleMessageRegistered_sound (msg : Message) (playback : bool)
    (now : Time) (s s' : Session) (ev : option Event) (err : option error) :
  handleMessageRegistered msg playback now s = Done (s', ev, err) ->
  sound s -> sound s'.
Proof.
  intros H Hs. unfold handleMessageRegistered in H.
  destruct (switch (Command msg)); cases_of H; simplify_eq; try exact Hs.
  all: sound_forward.
  all: try assumption.
  all: try (sound_core Hs; fail).
  all: try (apply sound_capDel; exact Hs).
  all: try (apply sound_Close; exact Hs).
  - match goal with
    | E : ensureUser _ _ _ = _ |- _ =>
        destruct (sound_ensureUser _ _ _ _ _ E Hs) as (Hs0 & Hp & _ & Hgrow)
    end.
    apply sound_updateMembers; [|exact Hs0].
    apply validIn_insert; [exact Hp|]. apply Hgrow.
    eapply sound_members; eauto.
  - match goal with
    | E : quitLoop _ _ _ _ _ = _ |- _ =>
        eapply sound_quitLoop; [exact E| |sound_core Hs]
    end.
    intros [k c] Hin. apply elem_of_map_to_list in Hin. cbn.
    apply validIn_store. eapply sound_members; [exact Hs|exact Hin].
  - match goal with
    | E : namesLoop _ _ _ = _, Hc : channels _ !! _ = Some _ |- _ =>
        destruct (sound_namesLoop _ _ _ _ _ E Hs (sound_members _ _ _ Hs Hc))
          as [Hs0 Hg]
    end.
    apply sound_updateMembers; assumption.
  - apply sound_updateMembers; [|exact Hs]. intros q Hq.
    match goal with
    | E : modeLoop _ _ _ = _, Hc : channels _ !! _ = Some _ |- _ =>
        apply (sound_members _ _ _ Hs Hc); apply (modeLoop_members _ _ _ _ _ E Hq)
    end.
Qed.

End Sound2.
Section Safe.
Context {C : Collaborators}.

Lemma send_open (m : Message) (s : Session) :
  closed s = false -> send m s = Done (set_out (out s ++ [m])%list s).
Proof. unfold send. intros ->. reflexivity. Qed.

Lemma sendAll_open (l : list Message) (s : Session) :
  closed s = false ->
  exists s', sendAll l s = Done s' /\ closed s' = false.
Proof.
  revert s. induction l as [|m l IH]; intros s Ho; cbn; [eauto|].
  rewrite send_open by assumption. cbn. apply IH. exact Ho.
Qed.

Lemma endRegistration_open (s : Session) :
  closed s = false ->
  exists s', endRegistration s = Done s' /\ closed s' = false.
Proof.
  intros Ho. unfold endRegistration. destruct (registered s); [eauto|].
  destruct (negb _); apply sendAll_open; exact Ho.
Qed.

Lemma capAck_open (l : list Cap) (s : Session) :
  closed s = false -> capAck l s <> Panic.
Proof.
  revert s. induction l as [|c l IH]; intros s Ho; cbn; [discriminate|].
  set (s1 := if Cap_Enable c then _ else _).
  assert (Ho1 : closed s1 = false) by (subst s1; destruct (Cap_Enable c); exact Ho).
  clearbody s1.
  assert (Hstep : exists s2,
             match auth s1 with
             | Some a =>
                 if Cap_Name c == "sasl"
                 then send (NewMessage "AUTHENTICATE" [Handshake a]) s1
                 else if negb (bool_decide (channels s1 = ∅))
                         && (Cap_Name c == "multi-prefix")
                 then sendAll (map (fun kc => NewMessage "NAMES" [fst kc])
                                   (map_to_list (channels s1))) s1
                 else Done s1
             | None =>
                 if negb (bool_decide (channels s1 = ∅))
                    && (Cap_Name c == "multi-prefix")
                 then sendAll (map (fun kc => NewMessage "NAMES" [fst kc])
                                   (map_to_list (channels s1))) s1
                 else Done s1
             end = Done s2 /\ closed s2 = false).
  { destruct (auth s1);
      repeat match goal with
             | |- context [if ?b then _ else _] => destruct b
             end;
      first [ rewrite send_open by assumption; eauto
            | apply sendAll_open; assumption
            | eauto ]. }
  destruct Hstep as (s2 & -> & Ho2). cbn. apply IH. exact Ho2.
Qed.

Lemma capNew_open (l : list Cap) (s : Session) :
  closed s = false -> capNew l s <> Panic.
Proof.
  revert s. induction l as [|c l IH]; intros s Ho; cbn; [discriminate|].
  destruct (negb _); [apply IH; exact Ho|].
  destruct (bool_decide _); [apply IH; exact Ho|].
  rewrite send_open by exact Ho. cbn. apply IH. exact Ho.
Qed.

Lemma deref_valid (s : Session) (p : ptr) :
  (p < length (mem s))%nat -> exists u, deref s p = Done u.
Proof.
  intros H. unfold deref. destruct (mem s !! p) as [u|] eqn:E; [eauto|].
  apply lookup_ge_None in E. lia.
Qed.

Lemma cleanUser_valid (p : ptr) (s : Session) :
  (p < length (mem s))%nat ->
  exists s', cleanUser p s = Done s' /\ mem s' = mem s.
Proof.
  intros H. unfold cleanUser. destruct (deref_valid s p H) as [u ->]. cbn.
  destruct (bool_decide _); [eauto|]. destruct (inSomeChannel _ _); eauto.
Qed.

Lemma cleanUsers_valid (l : list ptr) (s : Session) :
  (forall p, p ∈ l -> (p < length (mem s))%nat) -> cleanUsers l s <> Panic.
Proof.
  revert s. induction l as [|p l IH]; intros s Hl; cbn; [discriminate|].
  destruct (cleanUser_valid p s) as (s1 & -> & Hm); [apply Hl; left|].
  cbn. apply IH. intros q Hq. rewrite Hm. apply Hl. right. exact Hq.
Qed.

Lemma quitLoop_valid (u : ptr) (n : string) (l : list (string * Channel)) :
  forall (chans : list string) (s : Session),
    (u < length (mem s))%nat ->
    exists s' chans', quitLoop u n l chans s = Done (s', chans')
                      /\ mem s' = mem s.
Proof.
  induction l as [|[k c] l IH]; intros chans s Hu; cbn; [eauto|].
  destruct (bool_decide _); [|apply IH; exact Hu].
  destruct (cleanUser_valid u (updateMembers k c (delete u (Members c)) s))
    as (s1 & -> & Hm); [exact Hu|].
  cbn.
  destruct (IH (chans ++ [Channel_Name c])%list
              (set_typings (Typings_Done (typings s1) k n) s1))
    as (s' & chans' & -> & Hm'); [cbn; rewrite Hm; exact Hu|].
  eexists _, _. split; [reflexivity|]. rewrite Hm'. cbn. exact Hm.
Qed.

Lemma monitorLoop_valid (online : bool) (l : list string) :
  forall s : Session, sound s -> monitorLoop online l s <> Panic.
Proof.
  induction l as [|t l IH]; intros s Hs; cbn; [discriminate|].
  destruct (ParsePrefix t) as [prefix|]; [|apply IH; exact Hs].
  destruct (bool_decide _); [|apply IH; exact Hs].
  destruct (ensureUser _ prefix s) as [p s1] eqn:E.
  destruct (sound_ensureUser _ _ _ _ _ E Hs) as (Hs1 & Hp & _).
  destruct (deref_valid s1 p Hp) as [u ->]. cbn.
  destruct online, (User_Disconnected u); cbn;
    first [discriminate | apply IH; exact Hs1].
Qed.

Lemma IndexByte_from_lt (s : string) (c : ascii) :
  forall i : Z, GoString.IndexByte_from s c i < i + GoString.len s
                \/ GoString.IndexByte_from s c i = -1.
Proof.
  induction s as [|d s IH]; intros i; cbn; [auto|].
  rewrite len_String. pose proof (len_nonneg s).
  destruct (Ascii.eqb d c); [left; lia|].
  destruct (IH (i + 1)) as [H1|H1]; [left; lia|right; exact H1].
Qed.

Lemma IndexByte_lt (s : string) (c : ascii) :
  GoString.IndexByte s c < GoString.len s.
Proof.
  unfold GoString.IndexByte. pose proof (len_nonneg s).
  destruct (IndexByte_from_lt s c 0); lia.
Qed.

Lemma index_Done (s : string) (i : Z) :
  0 <= i < GoString.len s -> exists b, GoString.index s i = Done b.
Proof.
  intros H. unfold GoString.index.
  rewrite (proj2 (Z.leb_le 0 i)), (proj2 (Z.ltb_lt i _)) by lia. cbn.
  destruct (String.get (Z.to_nat i) s) as [c|] eqn:E; [eauto|].
  exfalso. clear -H E. revert i H E. induction s as [|d s IH]; intros i H E.
  - change (GoString.len "") with 0 in H. lia.
  - rewrite len_String in H. destruct (Z.to_nat i) as [|n] eqn:Hn; [discriminate|].
    cbn in E. apply (IH (Z.of_nat n)); [lia|]. rewrite Nat2Z.id. exact E.
Qed.

Lemma modeLoop_valid (l : list ModeChange) (s : Session) :
  prefixesAligned s ->
  forall members, modeLoop l members s <> Panic.
Proof.
  intros Ha. induction l as [|ch l IH]; intros members; cbn; [discriminate|].
  destruct (Z.ltb_spec (GoString.IndexByte (prefixModes s) (ModeChange_Mode ch)) 0);
    [apply IH|].
  destruct (users s !! _); [|apply IH].
  destruct (members !! _); [|apply IH].
  destruct (index_Done (prefixSymbols s)
              (GoString.IndexByte (prefixModes s) (ModeChange_Mode ch)))
    as [b ->].
  { pose proof (IndexByte_lt (prefixModes s) (ModeChange_Mode ch)).
    unfold prefixesAligned in Ha. lia. }
  cbn. apply IH.
Qed.

Lemma quitLoop_mem (u : ptr) (n : string) (l : list (string * Channel))
    (chans chans' : list string) (s s' : Session) :
  quitLoop u n l chans s = Done (s', chans') -> mem s' = mem s.
Proof.
  revert chans s. induction l as [|[k c] l IH]; intros chans s; cbn;
    [intros [= <- _]; reflexivity|].
  destruct (bool_decide _); [|apply IH].
  destruct (cleanUser _ _) as [s1|] eqn:E; [|discriminate]. cbn. intros H.
  apply IH in H. rewrite H. cbn.
  unfold cleanUser in E. cases_of E; simplify_eq; reflexivity.
Qed.

Lemma ParseParams_None (msg : Message) (n : nat) :
  ParseParams msg n = None -> (n <= length (Params msg))%nat.
Proof.
  unfold ParseParams. destruct (Nat.ltb_spec (length (Params msg)) n);
    [discriminate|auto].
Qed.

Lemma cleanUser_mem (p : ptr) (s s' : Session) :
  cleanUser p s = Done s' -> mem s' = mem s.
Proof. unfold cleanUser. intros E. cases_of E; simplify_eq; reflexivity. Qed.

Lemma index_0_Panic (s : string) : GoString.index s 0 = Panic -> s = "".
Proof.
  destruct s as [|c s]; [reflexivity|]. rewrite index_String_0. discriminate.
Qed.

Lemma slice_from_1_Done (s : string) :
  (GoString.len s =? 0) = false -> GoString.slice_from s 1 <> Panic.
Proof.
  destruct s as [|c s]; [discriminate|]. rewrite slice_from_String_1.
  discriminate.
Qed.

Lemma Params_from_Panic (msg : Message) :
  Params_from msg 1 = Panic -> Params msg = [].
Proof.
  unfold Params_from. destruct (Params msg); [reflexivity|discriminate].
Qed.

Lemma Params_index_Panic (msg : Message) (i : nat) :
  Params_index msg i = Panic -> (length (Params msg) <= i)%nat.
Proof.
  unfold Params_index. destruct (Params msg !! i) eqn:E; [discriminate|].
  intros _. apply lookup_ge_None in E. exact E.
Qed.

Lemma members_valid (s : Session) (k : string) (c : Channel) (q : ptr) :
  sound s -> channels s !! k = Some c ->
  q ∈ map fst (map_to_list (Members c)) -> (q < length (mem s))%nat.
Proof.
  intros Hs Hc Hq. apply (sound_members _ _ _ Hs Hc).
  apply list_elem_of_fmap in Hq as [[q' v] [-> Hin]].
  apply elem_of_map_to_list in Hin. eauto.
Qed.

Lemma handleMessageRegistered_Panic_crashes (msg : Message) (playback : bool)
    (now : Time) (s : Session) :
  sound s -> closed s = false ->
  handleMessageRegistered msg playback now s = Panic -> crashes msg.
Proof.
  intros Hs Ho H. unfold crashes. unfold handleMessageRegistered in H.
  destruct (switch (Command msg)); cases_of H.
  all: try match goal with
           | E : ParseParams _ _ = None |- _ /\ _ =>
               split; [exact (ParseParams_None _ _ E)|]
           end.
  all: try match goal with
           | E : (length (Params _) <? 3)%nat = false |- _ /\ _ =>
               split; [apply Nat.ltb_ge in E; exact E|]
           end.
  all: try reflexivity.
  all: try (apply updateFeatures_Panic_Exists with (s := s); assumption).
  all: try match goal with
           | E : send _ _ = Panic |- _ =>
               rewrite send_open in E by exact Ho; discriminate E
           | E : capAck _ _ = Panic |- _ => exact (capAck_open _ _ Ho E)
           | E : capNew _ _ = Panic |- _ => exact (capNew_open _ _ Ho E)
           | E : monitorLoop _ _ _ = Panic |- _ =>
               exfalso; exact (monitorLoop_valid _ _ _ Hs E)
           | E : modeLoop _ _ _ = Panic |- _ =>
               exact (modeLoop_valid _ _ (proj2 (proj2 Hs)) _ E)
           end.
  all: repeat match goal with
              | E : alloc _ _ = (_, _) |- _ =>
                  unfold alloc in E; injection E as <- <-
              end.
  all: try match goal with
           | E : send _ _ = Panic |- _ =>
               rewrite send_open in E by exact Ho; discriminate E
           | E : Params_from _ 1 = Panic |- _ => exact (Params_from_Panic _ E)
           | E : Params_index _ 1 = Panic |- _ =>
               apply Params_index_Panic in E; lia
           | E : GoString.index (param _ 6) 0 = Panic |- _ =>
               exact (index_0_Panic _ E)
           | E : match auth ?s with _ => _ end = Panic |- _ =>
               exfalso; destruct (auth s); [|discriminate E];
               destruct (endRegistration_open s Ho) as (? & He & _);
               rewrite He in E; discriminate E
           | E : GoString.slice_from _ 1 = Panic |- _ =>
               eapply slice_from_1_Done; eassumption
           | E : GoString.index (param _ 0) 0 = Panic, E' : (_ =? 0) = false |- _ =>
               apply index_0_Panic in E; rewrite E in E'; discriminate E'
           | E : cleanUsers _ _ = Panic, Hc : channels _ !! _ = Some _ |- _ =>
               refine (cleanUsers_valid _ _ _ E); intros q Hq;
               exact (members_valid _ _ _ _ Hs Hc Hq)
           end.
  all: exfalso.
  all: repeat match goal with
              | E : context [if ?b then _ else _] |- _ => destruct b
              end.
  all: match goal with
       | E : users _ !! _ = Some ?p |- _ =>
           assert (Hv : (p < length (mem s))%nat)
             by (eapply sound_users_lt; [exact Hs|exact E])
       end.
  all: try match goal with
           | E : cleanUser ?p ?a = Panic |- _ =>
               destruct (cleanUser_valid p a) as (? & He & _);
                 [exact Hv|rewrite He in E; discriminate E]
           | E : quitLoop ?u ?n ?l ?ch ?a = Panic |- _ =>
               destruct (quitLoop_valid u n l ch a) as (? & ? & He & _);
                 [unfold store; cbn; rewrite length_insert; exact Hv
                 |rewrite He in E; discriminate E]
           | E : deref ?a ?p = Panic |- _ =>
               destruct (deref_valid a p) as [? Hu];
                 [first [ exact Hv
                        | cbn; erewrite cleanUser_mem by eassumption; exact Hv
                        | erewrite quitLoop_mem by eassumption;
                          unfold store; cbn; rewrite length_insert; exact Hv ]
                 |rewrite Hu in E; discriminate E]
           end.
Qed.

Lemma crashes_Panic (msg : Message) (playback : bool) (now : Time)
    (s : Session) :
  crashes msg -> handleMessageRegistered msg playback now s = Panic.
Proof.
  unfold crashes, handleMessageRegistered, ParseParams.
  destruct (switch (Command msg)); try contradiction.
  - intros [Hlen Hp].
    destruct (Nat.ltb_spec (length (Params msg)) 3); [lia|]. rewrite Hp.
    reflexivity.
  - intros Hp. unfold Params_from. rewrite Hp.
    destruct (auth s); [destruct (endRegistration s)|]; reflexivity.
  - intros [Hlen Hp].
    destruct (Nat.ltb_spec (length (Params msg)) 3); [lia|].
    apply (updateFeatures_Panic_Exists _ s) in Hp. rewrite Hp. reflexivity.
  - intros [Hlen Hp].
    destruct (Nat.ltb_spec (length (Params msg)) 8); [lia|]. rewrite Hp.
    reflexivity.
  - intros Hlen. unfold Params_index.
    rewrite (proj2 (lookup_ge_None (Params msg) 1)) by lia. reflexivity.
  - intros Hlen. unfold Params_index.
    rewrite (proj2 (lookup_ge_None (Params msg) 1)) by lia. reflexivity.
Qed.

Lemma HandleMessage_sound_lemma (msg : Message) (now : Time)
    (s s' : Session) (ev : option Event) (err : option error) :
  HandleMessage msg now s = Done (s', ev, err) -> sound s -> sound s'.
Proof.
  assert (Hreg : forall s s' ev err,
             handleRegistered msg now s = Done (s', ev, err) ->
             sound s -> sound s').
  { clear. intros s s' ev err H Hs. unfold handleRegistered in H.
    cases_of H; simplify_eq;
      repeat match goal with
             | E : handleMessageRegistered _ _ _ ?a = Done (?b, _, _) |- _ =>
                 assert (sound b)
                   by (apply (handleMessageRegistered_sound _ _ _ _ _ _ _ E);
                       first [exact Hs|assumption]);
                 clear E
             end;
      assumption. }
  unfold HandleMessage, handleUnregistered. intros H Hs.
  destruct (registered s); [eapply Hreg; eauto|].
  cases_of H; simplify_eq; try (eapply Hreg; eauto; fail); try exact Hs.
  - eapply sound_send; eauto.
  - eapply sound_endRegistration; eauto.
Qed.

End Safe.

(** ** The store stays consistent, and when the handlers can crash *)

Section Safety.

Context {C : Collaborators}.

(** X9: the store of user records stays consistent.  A new session is
    sound: every pointer of its users map and of the member maps of its
    channels refers to a record, and its membership modes are aligned with
    their symbols.  Whatever message [HandleMessage] handles, registered or
    not, batched or not, the session it leaves is sound again. *)
Theorem HandleMessage_keeps_sound (params : SessionParams) (msg : Message)
    (now : Time) (s s' : Session) (ev : option Event) (err : option error) :
  sound (Session_init params)
  /\ (HandleMessage msg now s = Done (s', ev, err) -> sound s -> sound s').
Proof.
  split; [|apply HandleMessage_sound_lemma].
  split; [|split; [|reflexivity]].
  - intros k p H. cbn in H. rewrite lookup_empty in H. discriminate.
  - intros k c p H. cbn in H. rewrite lookup_empty in H. discriminate.
Qed.

(** X10: when [handleMessageRegistered] crashes.  On a sound session whose
    output is open, the handler panics on exactly five shapes of message:
    a RPL_LOGGEDIN whose second parameter is not a prefix, a SASL failure
    numeric without parameters, an RPL_ISUPPORT with a PREFIX token
    without a value, a RPL_WHOREPLY with empty flags, and a RPL_MONONLINE or
    RPL_MONOFFLINE without its list of targets.  On every other message it
    returns. *)
Theorem handleMessageRegistered_panics_iff (msg : Message) (playback : bool)
    (now : Time) (s : Session) :
  sound s -> closed s = false ->
  (handleMessageRegistered msg playback now s = Panic <-> crashes msg)
  /\ (~ crashes msg ->
      exists s' ev err,
        handleMessageRegistered msg playback now s = Done (s', ev, err)).
Proof.
  intros Hs Ho.
  assert (Hiff : handleMessageRegistered msg playback now s = Panic
                 <-> crashes msg).
  { split; [apply handleMessageRegistered_Panic_crashes; assumption
           |apply crashes_Panic]. }
  split; [exact Hiff|]. clear Hiff. intros Hnot.
  destruct (handleMessageRegistered msg playback now s) as [[[s' ev] err]|] eqn:E;
    [eauto|]. exfalso. apply Hnot.
  eapply handleMessageRegistered_Panic_crashes; eauto.
Qed.

End Safety.

Section Aligned.

Context {C : Collaborators}.

(** X11: The PREFIX token keeps the membership modes and their symbols
    aligned.  Whenever [updateFeatures] returns, the two strings have the
    same length if they had before, so that the index of a mode is an
    index of a symbol; and then the loop of the MODE case, whatever the
    changes and the members, never indexes the symbols out of range. *)
Theorem updateFeatures_keeps_prefixes_aligned (features : list string)
    (s s' : Session) :
  updateFeatures features s = Done s' ->
  prefixesAligned s ->
  prefixesAligned s'
  /\ forall (changes : list ModeChange) (members : gmap ptr string),
       modeLoop changes members s' <> Panic.
Proof.
  intros H Ha. pose proof (updateFeatures_aligned _ _ _ H Ha) as Ha'.
  split; [exact Ha'|]. intros changes members.
  apply modeLoop_valid. exact Ha'.
Qed.

End Aligned.

Lemma updateFeatures_keeps_prefixes_aligned_witness :
  exists s' : Session,
    updateFeatures ["PREFIX=(qaohv)~&@%+"] Reference.session = Done s'
    /\ prefixesAligned s'.
Proof.
  eexists. split; [reflexivity|].
  apply (updateFeatures_keeps_prefixes_aligned ["PREFIX=(qaohv)~&@%+"]
           Reference.session _ eq_refl).
  reflexivity.
Defined.

(** ** The users map stays keyed by casemapped name *)

Section Keyed.

Context {C : Collaborators}.

Lemma keyed_grow (m : list User) (x : User) u cm :
  keyedCore m u cm -> keyedCore (m ++ [x]) u cm.
Proof.
  intros H k p Hk. destruct (H k p Hk) as (rec & Hrec & ->).
  exists rec. split; [|reflexivity]. apply lookup_app_l_Some. exact Hrec.
Qed.

Lemma keyed_store (m : list User) (q : ptr) (old x : User) u cm :
  m !! q = Some old -> User_Name x = User_Name old ->
  keyedCore m u cm -> keyedCore (<[q := x]> m) u cm.
Proof.
  intros Hq Hname H k p Hk. destruct (H k p Hk) as (rec & Hrec & ->).
  destruct (decide (q = p)) as [->|Hne].
  - exists x. split.
    + apply list_lookup_insert_eq. apply lookup_lt_Some in Hrec. exact Hrec.
    + rewrite Hq in Hrec. injection Hrec as <-. rewrite Hname. reflexivity.
  - exists rec. split; [|reflexivity].
    rewrite list_lookup_insert_ne by assumption. exact Hrec.
Qed.

Lemma keyed_insert (m : list User) (rec : User) (q : ptr) u cm :
  m !! q = Some rec ->
  keyedCore m u cm ->
  keyedCore m (<[cm (Prefix_Name (User_Name rec)) := q]> u) cm.
Proof.
  intros Hq H k p.
  destruct (decide (cm (Prefix_Name (User_Name rec)) = k)) as [<-|Hne].
  - rewrite lookup_insert_eq. intros [= <-]. eauto.
  - rewrite lookup_insert_ne by assumption. apply H.
Qed.

Lemma keyed_delete (m : list User) (k : string) u cm :
  keyedCore m u cm -> keyedCore m (delete k u) cm.
Proof. intros H k' p Hk. apply lookup_delete_Some in Hk as [_ Hk]. eauto. Qed.

(** The renaming of the NICK case: the record takes its new name and the
    entry moves to the key of that name. *)
Lemma keyed_rename (m : list User) (kold : string) (p : ptr) (rec : User)
    (name : Prefix) u cm :
  u !! kold = Some p -> m !! p = Some rec ->
  keyedCore m u cm ->
  keyedCore (<[p := User_set_Name name rec]> m)
            (<[cm (Prefix_Name name) := p]> (delete kold u)) cm.
Proof.
  intros Hold Hrec H k q.
  assert (Hlt : (p < length m)%nat) by (eapply lookup_lt_Some; eauto).
  destruct (decide (cm (Prefix_Name name) = k)) as [<-|Hne].
  - rewrite lookup_insert_eq. intros [= <-].
    exists (User_set_Name name rec). split; [|reflexivity].
    apply list_lookup_insert_eq. exact Hlt.
  - rewrite lookup_insert_ne by assumption. intros Hk.
    apply lookup_delete_Some in Hk as [Hk1 Hk].
    destruct (H k q Hk) as (rec' & Hrec' & ->).
    destruct (decide (p = q)) as [<-|Hpq].
    + exfalso. destruct (H kold p Hold) as (rec0 & Hrec0 & ->).
      apply Hk1. congruence.
    + exists rec'. split; [|reflexivity].
      rewrite list_lookup_insert_ne by assumption. exact Hrec'.
Qed.

Lemma keyed_send (m : Message) (s s' : Session) :
  send m s = Done s' -> rosterKeyed s -> rosterKeyed s'.
Proof. unfold send. destruct (closed s); intros [= <-] H; exact H. Qed.

Lemma keyed_sendAll (l : list Message) (s s' : Session) :
  sendAll l s = Done s' -> rosterKeyed s -> rosterKeyed s'.
Proof.
  revert s. induction l as [|m l IH]; intros s; cbn; [intros [= <-]; auto|].
  destruct (send m s) as [s1|] eqn:E; [|discriminate]. cbn. intros H Hs.
  apply (IH _ H). eapply keyed_send; eauto.
Qed.

Lemma keyed_endRegistration (s s' : Session) :
  endRegistration s = Done s' -> rosterKeyed s -> rosterKeyed s'.
Proof.
  unfold endRegistration. destruct (registered s); [intros [= <-]; auto|].
  destruct (negb _); apply keyed_sendAll.
Qed.

Lemma keyed_capAck (l : list Cap) (s s' : Session) :
  capAck l s = Done s' -> rosterKeyed s -> rosterKeyed s'.
Proof.
  revert s. induction l as [|c l IH]; intros s; cbn; [intros [= <-]; auto|].
  intros H Hs. unfold obind in H.
  match type of H with
  | match ?m with _ => _ end = _ => destruct m as [s2|] eqn:E; [|discriminate]
  end.
  apply (IH _ H). clear H IH.
  cases_of E; simplify_eq;
    first [ exact Hs
          | match goal with
            | E : send _ _ = Done _ |- _ => apply (keyed_send _ _ _ E); exact Hs
            | E : sendAll _ _ = Done _ |- _ =>
                apply (keyed_sendAll _ _ _ E); exact Hs
            end ].
Qed.

Lemma keyed_capNew (l : list Cap) (s s' : Session) :
  capNew l s = Done s' -> rosterKeyed s -> rosterKeyed s'.
Proof.
  revert s. induction l as [|c l IH]; intros s; cbn; [intros [= <-]; auto|].
  destruct (negb _); [intros H Hs; apply (IH _ H); exact Hs|].
  destruct (bool_decide _); [intros H Hs; apply (IH _ H); exact Hs|].
  destruct (send _ _) as [s2|] eqn:E; [|discriminate]. cbn.
  intros H Hs. apply (IH _ H). apply (keyed_send _ _ _ E). exact Hs.
Qed.

Lemma keyed_capDel (l : list Cap) (s : Session) :
  rosterKeyed s -> rosterKeyed (capDel l s).
Proof.
  revert s. induction l as [|c l IH]; intros s Hs; cbn; [exact Hs|].
  apply IH. exact Hs.
Qed.

Lemma keyed_Close (s : Session) : rosterKeyed s -> rosterKeyed (Close s).
Proof. unfold Close. destruct (closed s); intros H; exact H. Qed.

Lemma keyed_cleanUser (p : ptr) (s s' : Session) :
  cleanUser p s = Done s' -> rosterKeyed s -> rosterKeyed s'.
Proof.
  unfold cleanUser. intros H Hs. cases_of H; simplify_eq; auto.
  apply keyed_delete. exact Hs.
Qed.

Lemma keyed_cleanUsers (l : list ptr) (s s' : Session) :
  cleanUsers l s = Done s' -> rosterKeyed s -> rosterKeyed s'.
Proof.
  revert s. induction l as [|p l IH]; intros s; cbn; [intros [= <-]; auto|].
  destruct (cleanUser p s) as [s1|] eqn:E; [|discriminate]. cbn. intros H Hs.
  apply (IH _ H). apply (keyed_cleanUser _ _ _ E Hs).
Qed.

Lemma keyed_ensureUser (name : Prefix) (s s1 : Session) (p : ptr) :
  ensureUser (casemap s (Prefix_Name name)) name s = (p, s1) ->
  rosterKeyed s -> rosterKeyed s1 /\ casemap s1 = casemap s.
Proof.
  unfold ensureUser, alloc. intros H Hs.
  destruct (users s !! _) as [q|] eqn:Hq; injection H as <- <-; [auto|].
  split; [|reflexivity]. unfold rosterKeyed.
  cbn [mem users casemap set_users set_mem].
  apply (keyed_insert _ (User_new name)).
  - rewrite lookup_app_r, Nat.sub_diag by reflexivity. reflexivity.
  - apply keyed_grow. exact Hs.
Qed.

Lemma keyed_quitLoop (u : ptr) (n : string) (l : list (string * Channel)) :
  forall (chans chans' : list string) (s s' : Session),
    quitLoop u n l chans s = Done (s', chans') ->
    rosterKeyed s -> rosterKeyed s'.
Proof.
  induction l as [|[k c] l IH]; intros chans chans' s s'; cbn;
    [intros [= <- _]; auto|].
  destruct (bool_decide _); [|apply IH].
  destruct (cleanUser _ _) as [s2|] eqn:E; [|discriminate]. cbn.
  intros H Hs. eapply IH; [exact H|].
  apply (keyed_cleanUser _ _ _ E). exact Hs.
Qed.

Lemma keyed_monitorLoop (online : bool) (l : list string) :
  forall (s s' : Session) (ev : option Event),
    monitorLoop online l s = Done (s', ev) -> rosterKeyed s -> rosterKeyed s'.
Proof.
  induction l as [|t l IH]; intros s s' ev; cbn; [intros [= <- _]; auto|].
  destruct (ParsePrefix t) as [prefix|]; [|apply IH].
  destruct (bool_decide _); [|apply IH].
  destruct (ensureUser _ prefix s) as [p s1] eqn:E.
  intros H Hs. destruct (keyed_ensureUser _ _ _ _ E Hs) as [Hs1 Hcm].
  unfold deref in H. destruct (mem s1 !! p) as [u|] eqn:Hu; [|discriminate].
  cbn in H.
  destruct online, (User_Disconnected u); cbn in H;
    first [ injection H as <- _;
            apply (keyed_store _ _ u); [exact Hu|reflexivity|exact Hs1]
          | eapply IH; eauto ].
Qed.

Lemma keyed_namesLoop (l : list Member) :
  forall (members members' : gmap ptr string) (s s' : Session),
    namesLoop l members s = (s', members') ->
    rosterKeyed s -> rosterKeyed s'.
Proof.
  induction l as [|n l IH]; intros members members' s s'; cbn;
    [intros [= <- _]; auto|].
  destruct (ensureUser _ _ s) as [p s1] eqn:E. intros H Hs.
  destruct (keyed_ensureUser _ _ _ _ E Hs) as [Hs1 _].
  eapply IH; eauto.
Qed.

End Keyed.
Section Keyed2.
Context {C : Collaborators}.

Lemma deref_Some (s : Session) (p : ptr) (a : User) :
  deref s p = Done a -> mem s !! p = Some a.
Proof. unfold deref. destruct (mem s !! p); [intros [= <-]; reflexivity|discriminate]. Qed.

Lemma keyed_store_s (p : ptr) (a x : User) (s : Session) :
  deref s p = Done a -> User_Name x = User_Name a ->
  rosterKeyed s -> rosterKeyed (store p x s).
Proof.
  intros Hd Hn Hs. apply deref_Some in Hd.
  apply (keyed_store _ _ a); assumption.
Qed.

Lemma keyed_welcome (name : Prefix) (s : Session) :
  rosterKeyed s ->
  keyedCore (mem s ++ [User_new name])
            (<[casemap s (Prefix_Name name) := length (mem s)]> (users s))
            (casemap s).
Proof.
  intros Hs. apply (keyed_insert _ (User_new name)).
  - rewrite lookup_app_r, Nat.sub_diag by reflexivity. reflexivity.
  - apply keyed_grow. exact Hs.
Qed.

Ltac keyed_forward :=
  repeat match goal with
         | E : match ?x with _ => _ end = _ |- _ => destruct x eqn:?; simplify_eq
         | E : alloc _ _ = (_, _) |- _ => unfold alloc in E; injection E as <- <-
         | E : send _ ?a = Done ?b, Hs : rosterKeyed ?a0 |- _ =>
             assert (rosterKeyed b)
               by (apply (keyed_send _ _ _ E); exact Hs);
             clear E
         | E : sendAll _ ?a = Done ?b, Hs : rosterKeyed ?a0 |- _ =>
             assert (rosterKeyed b) by (apply (keyed_sendAll _ _ _ E); exact Hs);
             clear E
         | E : endRegistration ?a = Done ?b, Hs : rosterKeyed ?a0 |- _ =>
             assert (rosterKeyed b)
               by (apply (keyed_endRegistration _ _ E); exact Hs);
             clear E
         | E : capAck _ ?a = Done ?b, Hs : rosterKeyed ?a0 |- _ =>
             assert (rosterKeyed b) by (apply (keyed_capAck _ _ _ E); exact Hs);
             clear E
         | E : capNew _ ?a = Done ?b, Hs : rosterKeyed ?a0 |- _ =>
             assert (rosterKeyed b) by (apply (keyed_capNew _ _ _ E); exact Hs);
             clear E
         | E : monitorLoop _ _ ?a = Done (?b, _), Hs : rosterKeyed ?a0 |- _ =>
             assert (rosterKeyed b)
               by (apply (keyed_monitorLoop _ _ _ _ _ E); exact Hs);
             clear E
         | E : cleanUser _ ?a = Done ?b, Hs : rosterKeyed ?a0 |- _ =>
             assert (rosterKeyed b)
               by (apply (keyed_cleanUser _ _ _ E); exact Hs);
             clear E
         | E : cleanUsers _ ?a = Done ?b, Hs : rosterKeyed ?a0 |- _ =>
             assert (rosterKeyed b)
               by (apply (keyed_cleanUsers _ _ _ E); exact Hs);
             clear E
         | E : namesLoop _ _ ?a = (?b, _), Hs : rosterKeyed ?a0 |- _ =>
             assert (rosterKeyed b)
               by (apply (keyed_namesLoop _ _ _ _ _ E); exact Hs);
             clear E
         | E : ensureUser _ _ ?a = (_, ?b), Hs : rosterKeyed ?a0 |- _ =>
             assert (rosterKeyed b)
               by (apply (keyed_ensureUser _ _ _ _ E); exact Hs);
             clear E
         end.

Lemma handleMessageRegistered_keyed (msg : Message) (playback : bool)
    (now : Time) (s s' : Session) (ev : option Event) (err : option error) :
  handleMessageRegistered msg playback now s = Done (s', ev, err) ->
  casemap s' = casemap s ->
  rosterKeyed s -> rosterKeyed s'.
Proof.
  intros H Hcm Hs. unfold handleMessageRegistered in H.
  destruct (switch (Command msg)); cases_of H; simplify_eq; try exact Hs.
  all: keyed_forward.
  all: try assumption.
  all: try (apply keyed_capDel; exact Hs).
  all: try (apply keyed_Close; exact Hs).
  all: try match goal with
           | E : send _ _ = Done ?b |- rosterKeyed ?b =>
               apply (keyed_send _ _ _ E)
           end.
  all: try (exact (keyed_welcome
                     {| Prefix_Name := param msg 0; Prefix_User := user s;
                        Prefix_Host := host s |} s Hs)).
  all: try match goal with
           | E : updateFeatures _ _ = Done _ |- _ =>
               apply updateFeatures_features in E; unfold rosterKeyed;
               rewrite Hcm; rewrite E; exact Hs
           end.
  all: try match goal with
           | E : quitLoop _ _ _ _ _ = Done _ |- _ =>
               apply (keyed_quitLoop _ _ _ _ _ _ _ E)
           end.
  all: try match goal with
           | E : deref _ ?p = Done ?a |- rosterKeyed (store ?p _ _) =>
               apply (keyed_store_s p a); [exact E|reflexivity|exact Hs]
           end.
  all: match goal with
       | E : deref _ ?p = Done ?a, Hu : users _ !! ?k = Some ?p |- _ =>
           apply deref_Some in E;
           exact (keyed_rename _ _ _ _
                    {| Prefix_Name := param msg 0;
                       Prefix_User := Prefix_User (User_Name a);
                       Prefix_Host := Prefix_Host (User_Name a) |}
                    _ _ Hu E Hs)
       end.
Qed.

Lemma rosterKeyed_keyedByName (u : ptr) (s : Session) :
  rosterKeyed s -> inRoster u s -> keyedByName u s.
Proof.
  intros Hs [k0 Hk0]. destruct (Hs k0 u Hk0) as (rec & Hrec & Hkey).
  exists rec. split; [exact Hrec|]. intros k. split.
  - intros Hk. destruct (Hs k u Hk) as (rec' & Hrec' & ->). congruence.
  - intros ->. rewrite <- Hkey. exact Hk0.
Qed.

(** X12: The users map stays keyed by casemapped name.  Whatever message
    [handleMessageRegistered] handles on a session whose users map stores
    every entry under the casemapped name of its record, if the casemap
    function is the same after it, the map of the session it leaves does
    so again, a NICK moving the entry of the renamed user; and then every
    user of the map is stored under that one key only. *)
Theorem roster_stays_keyed (msg : Message) (playback : bool) (now : Time)
    (s s' : Session) (ev : option Event) (err : option error) :
  handleMessageRegistered msg playback now s = Done (s', ev, err) ->
  casemap s' = casemap s ->
  rosterKeyed s ->
  rosterKeyed s' /\ forall u, inRoster u s' -> keyedByName u s'.
Proof.
  intros H Hcm Hs.
  pose proof (handleMessageRegistered_keyed _ _ _ _ _ _ _ H Hcm Hs) as Hs'.
  split; [exact Hs'|]. intros u. apply rosterKeyed_keyedByName. exact Hs'.
Qed.

End Keyed2.

(** ** What each helper of the handler can change *)

Section Footprint.

Context {C : Collaborators}.

Lemma send_footprint (m : Message) (s s' : Session) :
  send m s = Done s' -> s' = set_out (out s') s.
Proof. unfold send. destruct (closed s); intros [= <-]. reflexivity. Qed.

Lemma sendAll_footprint (l : list Message) (s s' : Session) :
  sendAll l s = Done s' -> s' = set_out (out s') s.
Proof.
  revert s. induction l as [|m l IH]; intros s; cbn.
  - intros [= <-]. destruct s; reflexivity.
  - destruct (send m s) as [s1|] eqn:E; [|discriminate]. cbn. intros H.
    apply IH in H. apply send_footprint in E. rewrite H, E. reflexivity.
Qed.

Lemma endRegistration_footprint (s s' : Session) :
  endRegistration s = Done s' -> s' = set_out (out s') s.
Proof.
  unfold endRegistration.
  destruct (registered s); [intros [= <-]; destruct s; reflexivity|].
  destruct (negb _); apply sendAll_footprint.
Qed.

Lemma capAck_footprint (l : list Cap) (s s' : Session) :
  capAck l s = Done s' ->
  s' = set_out (out s') (set_enabledCaps (enabledCaps s') s).
Proof.
  revert s. induction l as [|c l IH]; intros s; cbn.
  - intros [= <-]. destruct s; reflexivity.
  - intros H. unfold obind in H.
    match type of H with
    | match ?m with _ => _ end = _ => destruct m as [s2|] eqn:E; [|discriminate]
    end.
    apply IH in H. rewrite H. clear H IH.
    cases_of E; simplify_eq;
      repeat match goal with
             | E : send _ _ = Done _ |- _ => apply send_footprint in E; rewrite E
             | E : sendAll _ _ = Done _ |- _ =>
                 apply sendAll_footprint in E; rewrite E
             end;
      reflexivity.
Qed.

Lemma capNew_footprint (l : list Cap) (s s' : Session) :
  capNew l s = Done s' ->
  s' = set_out (out s') (set_availableCaps (availableCaps s') s).
Proof.
  revert s. induction l as [|c l IH]; intros s; cbn.
  - intros [= <-]. destruct s; reflexivity.
  - destruct (negb _); [intros H; apply IH in H; rewrite H; reflexivity|].
    destruct (bool_decide _); [intros H; apply IH in H; rewrite H; reflexivity|].
    destruct (send _ _) as [s2|] eqn:E; [|discriminate]. cbn.
    intros H. apply IH in H. apply send_footprint in E. rewrite H, E.
    reflexivity.
Qed.

Lemma capDel_footprint (l : list Cap) (s : Session) :
  capDel l s
  = set_enabledCaps (enabledCaps (capDel l s))
      (set_availableCaps (availableCaps (capDel l s)) s).
Proof.
  revert s. induction l as [|c l IH]; intros s; cbn.
  - destruct s; reflexivity.
  - rewrite IH at 1. reflexivity.
Qed.

Lemma Close_footprint (s : Session) :
  Close s = set_typings (typings (Close s)) (set_closed (closed (Close s)) s).
Proof.
  unfold Close. destruct (closed s) eqn:E; [|reflexivity].
  destruct s; cbn in *; subst; reflexivity.
Qed.

Lemma set_users_same (s : Session) : set_users (users s) s = s.
Proof. destruct s; reflexivity. Qed.

Lemma cleanUser_footprint (p : ptr) (s s' : Session) :
  cleanUser p s = Done s' -> s' = set_users (users s') s.
Proof.
  unfold cleanUser. intros H. cases_of H; simplify_eq;
    first [reflexivity | symmetry; apply set_users_same].
Qed.

Lemma cleanUsers_footprint (l : list ptr) (s s' : Session) :
  cleanUsers l s = Done s' -> s' = set_users (users s') s.
Proof.
  revert s. induction l as [|p l IH]; intros s; cbn.
  - intros [= <-]. destruct s; reflexivity.
  - destruct (cleanUser p s) as [s1|] eqn:E; [|discriminate]. cbn. intros H.
    apply IH in H. apply cleanUser_footprint in E. rewrite H, E. reflexivity.
Qed.

Lemma ensureUser_footprint (k : string) (name : Prefix) (s s1 : Session)
    (p : ptr) :
  ensureUser k name s = (p, s1) ->
  s1 = set_users (users s1) (set_mem (mem s1) s).
Proof.
  unfold ensureUser, alloc. destruct (users s !! k); intros [= <- <-];
    [destruct s; reflexivity|reflexivity].
Qed.

Lemma monitorLoop_footprint (online : bool) (l : list string) :
  forall (s s' : Session) (ev : option Event),
    monitorLoop online l s = Done (s', ev) ->
    s' = set_users (users s') (set_mem (mem s') s).
Proof.
  induction l as [|t l IH]; intros s s' ev; cbn.
  - intros [= <- _]. destruct s; reflexivity.
  - destruct (ParsePrefix t) as [prefix|]; [|apply IH].
    destruct (bool_decide _); [|apply IH].
    destruct (ensureUser _ prefix s) as [p s1] eqn:E.
    apply ensureUser_footprint in E.
    destruct (deref s1 p) as [u|]; [|discriminate]. cbn.
    destruct online, (User_Disconnected u); cbn;
      first [ intros [= <- _]; rewrite E; reflexivity
            | intros H; apply IH in H; rewrite H, E; reflexivity ].
Qed.

Lemma namesLoop_footprint (l : list Member) :
  forall (members members' : gmap ptr string) (s s' : Session),
    namesLoop l members s = (s', members') ->
    s' = set_users (users s') (set_mem (mem s') s).
Proof.
  induction l as [|n l IH]; intros members members' s s'; cbn.
  - intros [= <- _]. destruct s; reflexivity.
  - destruct (ensureUser _ _ s) as [p s1] eqn:E.
    apply ensureUser_footprint in E. intros H. apply IH in H.
    rewrite H, E. reflexivity.
Qed.

Lemma quitLoop_footprint (u : ptr) (n : string) (l : list (string * Channel)) :
  forall (chans chans' : list string) (s s' : Session),
    quitLoop u n l chans s = Done (s', chans') ->
    s' = set_typings (typings s')
           (set_users (users s') (set_channels (channels s') s)).
Proof.
  induction l as [|[k c] l IH]; intros chans chans' s s'; cbn.
  - intros [= <- _]. destruct s; reflexivity.
  - destruct (bool_decide _); [|apply IH].
    destruct (cleanUser _ _) as [s2|] eqn:E; [|discriminate]. cbn.
    intros H. apply IH in H. apply cleanUser_footprint in E.
    rewrite H, E. reflexivity.
Qed.

End Footprint.

(** ** The session knows its own nick *)

(** Write the session a helper returned as field updates of the session
    it was given, with fresh names for the values the helper chose. *)
Ltac explicit_states :=
  repeat match goal with
         | E : match ?x with _ => _ end = _ |- _ => destruct x eqn:?; simplify_eq
         | E : alloc _ _ = (_, _) |- _ => unfold alloc in E; injection E as <- <-
         | E : send _ _ = Done ?b |- _ =>
             apply send_footprint in E;
             let o := fresh "v" in
             set (o := out b) in E; clearbody o; subst b
         | E : sendAll _ _ = Done ?b |- _ =>
             apply sendAll_footprint in E;
             let o := fresh "v" in
             set (o := out b) in E; clearbody o; subst b
         | E : endRegistration _ = Done ?b |- _ =>
             apply endRegistration_footprint in E;
             let o := fresh "v" in
             set (o := out b) in E; clearbody o; subst b
         | E : capAck _ _ = Done ?b |- _ =>
             apply capAck_footprint in E;
             let o := fresh "v" in let e := fresh "v" in
             set (o := out b) in E; set (e := enabledCaps b) in E;
             clearbody o e; subst b
         | E : capNew _ _ = Done ?b |- _ =>
             apply capNew_footprint in E;
             let o := fresh "v" in let e := fresh "v" in
             set (o := out b) in E; set (e := availableCaps b) in E;
             clearbody o e; subst b
         | E : updateFeatures _ _ = Done ?b |- _ =>
             apply updateFeatures_features in E
         | E : cleanUser _ _ = Done ?b |- _ =>
             apply cleanUser_footprint in E;
             let o := fresh "v" in
             set (o := users b) in E; clearbody o; subst b
         | E : cleanUsers _ _ = Done ?b |- _ =>
             apply cleanUsers_footprint in E;
             let o := fresh "v" in
             set (o := users b) in E; clearbody o; subst b
         | E : ensureUser _ _ _ = (_, ?b) |- _ =>
             apply ensureUser_footprint in E;
             let o := fresh "v" in let e := fresh "v" in
             set (o := users b) in E; set (e := mem b) in E;
             clearbody o e; subst b
         | E : monitorLoop _ _ _ = Done (?b, _) |- _ =>
             apply monitorLoop_footprint in E;
             let o := fresh "v" in let e := fresh "v" in
             set (o := users b) in E; set (e := mem b) in E;
             clearbody o e; subst b
         | E : namesLoop _ _ _ = (?b, _) |- _ =>
             apply namesLoop_footprint in E;
             let o := fresh "v" in let e := fresh "v" in
             set (o := users b) in E; set (e := mem b) in E;
             clearbody o e; subst b
         | E : quitLoop _ _ _ _ _ = Done (?b, _) |- _ =>
             apply quitLoop_footprint in E;
             let o := fresh "v" in let e := fresh "v" in let f := fresh "v" in
             set (o := typings b) in E; set (e := users b) in E;
             set (f := channels b) in E;
             clearbody o e f; subst b
         end.

Section Self.

Context {C : Collaborators}.

Lemma handleMessageRegistered_selfKnown (msg : Message) (playback : bool)
    (now : Time) (s s' : Session) (ev : option Event) (err : option error) :
  handleMessageRegistered msg playback now s = Done (s', ev, err) ->
  casemap s' = casemap s ->
  selfKnown s -> selfKnown s'.
Proof.
  intros H Hcm Hs. unfold handleMessageRegistered in H.
  destruct (switch (Command msg)); cases_of H; simplify_eq; try exact Hs.
  all: explicit_states.
  all: try exact Hs.
  all: try (unfold selfKnown; reflexivity).
  all: try match goal with
           | E : ?b = withFeaturesOf ?b _ |- _ =>
               unfold selfKnown; rewrite Hcm; rewrite E; exact Hs
           end.
  - rewrite capDel_footprint. exact Hs.
  - rewrite Close_footprint. exact Hs.
Qed.

Lemma welcome_selfKnown (msg : Message) (playback : bool) (now : Time)
    (s s' : Session) (ev : option Event) :
  switch (Command msg) = caseWelcome ->
  handleMessageRegistered msg playback now s = Done (s', ev, None) ->
  registered s' = true /\ selfKnown s'.
Proof.
  intros Hcase H. unfold handleMessageRegistered in H. rewrite Hcase in H.
  cases_of H; simplify_eq; explicit_states; split; reflexivity.
Qed.

(** X13: The session recognises its own nick once it is welcomed, and keeps
    doing so.  The welcome makes the casemapped nick the image of the nick
    under the casemap function, so that [IsMe] holds of the nick; every
    message handled by a session that knows itself leaves a session that
    knows itself, a NICK of the user included, as long as the message does
    not replace the casemap function. *)
Theorem session_knows_itself (msg : Message) (playback : bool)
    (now : Time) (s s' : Session) (ev : option Event) (err : option error) :
  handleMessageRegistered msg playback now s = Done (s', ev, err) ->
  (switch (Command msg) = caseWelcome /\ err = None)
  \/ (selfKnown s /\ casemap s' = casemap s) ->
  selfKnown s' /\ IsMe s' (nick s') = true.
Proof.
  intros H Hor.
  assert (Hs' : selfKnown s').
  { destruct Hor as [[Hcase ->]|[Hs Hcm]].
    - apply (welcome_selfKnown _ _ _ _ _ _ Hcase H).
    - apply (handleMessageRegistered_selfKnown _ _ _ _ _ _ _ H Hcm Hs). }
  split; [exact Hs'|]. unfold IsMe. rewrite Hs'. apply String.eqb_refl.
Qed.

End Self.

(** ** Chunks of ASCII text, and [PrivMsg] *)

Lemma ascii_RuneStart (b : Z) :
  isByte b -> (b <? utf8.RuneSelf) = true -> utf8.RuneStart b = true.
Proof.
  intros Hb Hlt. apply cont_false_RuneStart; [exact Hb|].
  unfold utf8.cont. apply Z.ltb_lt in Hlt. unfold utf8.RuneSelf in Hlt.
  apply andb_false_iff. left. apply Z.leb_gt. lia.
Qed.

Lemma asciiOnly_app (a b : string) :
  asciiOnly (a ++ b) = asciiOnly a && asciiOnly b.
Proof. unfold asciiOnly. rewrite bytes_app, forallb_app. reflexivity. Qed.

Lemma splitChunks_loop_ascii (M : nat) (n : nat) :
  (0 < M)%nat ->
  forall (s : string) (fuel : nat) (chunks : list string),
    String.length s = n -> (n < fuel)%nat -> asciiOnly s = true ->
    exists cs,
      splitChunks_loop fuel s (Z.of_nat M) chunks
      = Some (Done (chunks ++ cs)%list)
      /\ String.concat "" cs = s
      /\ Forall (fun c => (0 < String.length c <= M)%nat) cs
      /\ Forall (fun c => String.length c = M) (removelast cs).
Proof.
  intros HM. induction n as [n IH] using lt_wf_ind.
  intros s fuel chunks Hn Hfuel Hascii.
  destruct fuel as [|fuel]; [lia|]. cbn [splitChunks_loop].
  unfold GoString.len at 1.
  destruct (Z.ltb_spec (Z.of_nat M) (Z.of_nat (String.length s))) as [Hlong|Hshort].
  - unfold utf8.UTFMax.
    replace (Z.of_nat M - (Z.of_nat M - 4) + 1) with 5 by lia.
    assert (Hback : splitChunks_back (S (Z.to_nat 5)) s (Z.of_nat M - 4)
                      (Z.of_nat M) = Done (Z.of_nat M)).
    { apply splitChunks_back_finds; try lia.
      destruct (index_bytes s M) as (b & _ & Hb); [lia|].
      exists b. split; [exact Hb|].
      apply ascii_RuneStart.
      - pose proof (bytes_isByte s) as Hall.
        rewrite Forall_forall in Hall. apply Hall.
        eapply list_elem_of_lookup_2. exact Hb.
      - unfold asciiOnly in Hascii. rewrite forallb_forall in Hascii.
        apply Hascii. eapply list_elem_of_In, list_elem_of_lookup_2. exact Hb. }
    rewrite Hback.
    destruct (slice_split s M) as (a & b & Ha & Hb & Hs & Hla); [lia|].
    rewrite Ha, Hb.
    assert (Hab : asciiOnly a && asciiOnly b = true)
      by (rewrite <- asciiOnly_app, <- Hs; exact Hascii).
    apply andb_true_iff in Hab as [_ Hbascii].
    assert (Hlb : String.length s = (M + String.length b)%nat).
    { rewrite Hs at 1. rewrite length_append, Hla. reflexivity. }
    destruct (IH (String.length b) ltac:(lia) b fuel (chunks ++ [a])%list eq_refl)
      as (cs & Hcs & Hcat & Hall & Hfull); [lia|exact Hbascii|].
    exists (a :: cs). rewrite Hcs, <- app_assoc. split; [reflexivity|].
    split; [rewrite concat_cons, Hcat; symmetry; exact Hs|].
    split; [constructor; [lia|exact Hall]|].
    destruct cs as [|c cs]; [constructor|].
    change (removelast (a :: c :: cs)) with (a :: removelast (c :: cs)).
    constructor; [exact Hla|exact Hfull].
  - unfold GoString.len.
    destruct (Z.eqb_spec (Z.of_nat (String.length s)) 0) as [Hz|Hnz].
    + exists []. rewrite app_nil_r. split; [reflexivity|].
      split; [destruct s; [reflexivity|cbn in Hz; lia]|].
      split; constructor.
    + exists [s]. split; [reflexivity|]. split; [reflexivity|].
      split; [constructor; [lia|constructor]|constructor].
Qed.

(** X14: ASCII text is split for every positive limit.  [splitChunks]
    returns after at most one iteration per byte; the chunks concatenate
    to the text, none is empty, and every chunk but the last has exactly
    the limit as its length. *)
Theorem splitChunks_ascii (s : string) (chunkLen : Z) :
  0 < chunkLen -> asciiOnly s = true ->
  exists cs,
    splitChunks (S (String.length s)) s chunkLen = Some (Done cs)
    /\ String.concat "" cs = s
    /\ Forall (fun c => 0 < GoString.len c <= chunkLen) cs
    /\ Forall (fun c => GoString.len c = chunkLen) (removelast cs).
Proof.
  intros Hpos Hascii. unfold splitChunks.
  destruct (Z.leb_spec chunkLen 0) as [Hle|_]; [lia|].
  destruct (splitChunks_loop_ascii (Z.to_nat chunkLen) (String.length s)
              ltac:(lia) s (S (String.length s)) [] eq_refl ltac:(lia) Hascii)
    as (cs & Hcs & Hcat & Hall & Hfull).
  rewrite Z2Nat.id in Hcs by lia.
  exists cs. split; [exact Hcs|]. split; [exact Hcat|].
  split; [eapply Forall_impl; [exact Hall|]|eapply Forall_impl; [exact Hfull|]];
    intros c Hc; unfold GoString.len; cbn in Hc; lia.
Qed.

Lemma splitChunks_ascii_witness :
  exists cs,
    splitChunks 12 "hello world" 4 = Some (Done cs)
    /\ String.concat "" cs = "hello world"
    /\ Forall (fun c => 0 < GoString.len c <= 4) cs
    /\ Forall (fun c => GoString.len c = 4) (removelast cs).
Proof.
  apply (splitChunks_ascii "hello world" 4); [lia|reflexivity].
Defined.

Lemma int_wrap_small (z : Z) :
  - 2 ^ 63 <= z < 2 ^ 63 -> int_wrap z = z.
Proof.
  intros H. unfold int_wrap. rewrite Z.mod_small by lia. lia.
Qed.

Lemma splitChunks_within (s : string) (chunkLen : Z) :
  0 < chunkLen ->
  asciiOnly s = true
  \/ (utf8.UTFMax <= chunkLen /\ utf8.ValidString s = true) ->
  exists cs,
    splitChunks (S (String.length s)) s chunkLen = Some (Done cs)
    /\ String.concat "" cs = s
    /\ Forall (fun c => GoString.len c <= chunkLen) cs.
Proof.
  intros Hpos [Hascii|[Hmax Hvalid]].
  - unfold splitChunks.
    destruct (Z.leb_spec chunkLen 0) as [Hle|_]; [lia|].
    destruct (splitChunks_loop_ascii (Z.to_nat chunkLen) (String.length s)
                ltac:(lia) s (S (String.length s)) [] eq_refl ltac:(lia) Hascii)
      as (cs & Hcs & Hcat & Hall & _).
    rewrite Z2Nat.id in Hcs by lia.
    exists cs. split; [exact Hcs|]. split; [exact Hcat|].
    eapply Forall_impl; [exact Hall|].
    intros c Hc. unfold GoString.len. cbn in Hc. lia.
  - destruct (splitChunks_valid s chunkLen Hmax Hvalid) as (cs & Hcs & Hcat & Hall).
    exists cs. split; [exact Hcs|]. split; [exact Hcat|].
    eapply Forall_impl; [exact Hall|]. intros c [Hc _]. exact Hc.
Qed.

Section PrivMsg.

Context {C : Collaborators}.

Lemma sendAll_sent (l : list Message) (s : Session) :
  closed s = false ->
  sendAll l s = Done (set_out (out s ++ l)%list s).
Proof.
  revert s. induction l as [|m l IH]; intros s Ho; cbn.
  - rewrite app_nil_r. destruct s; reflexivity.
  - rewrite send_open by exact Ho. cbn. rewrite IH by exact Ho. cbn.
    rewrite <- app_assoc. reflexivity.
Qed.

Lemma PrivMsg_chunks (fuel : nat) (target content : string)
    (chunks : list string) (s : Session) :
  closed s = false ->
  splitChunks fuel content (maxMessageLen s target) = Some (Done chunks) ->
  PrivMsg fuel target content s
  = Some (Done (set_typingStamps (delete (casemap s target) (typingStamps s))
                  (set_out (out s ++ map (privmsg target) chunks)%list s))).
Proof.
  intros Ho Hsplit. unfold PrivMsg. rewrite Hsplit.
  change (fun chunk => NewMessage "PRIVMSG" [target; chunk])
    with (privmsg target).
  rewrite sendAll_sent by exact Ho. reflexivity.
Qed.

(** The length that [PrivMsg] leaves for the content is the plain
    difference whenever that difference fits in 64 bits. *)
Lemma maxMessageLen_plain (s : Session) (target : string) :
  - 2 ^ 63 + 2 ^ 32 <= linelen s < 2 ^ 63 ->
  GoString.len (nick s) + GoString.len (user s) + GoString.len (host s)
  + GoString.len target < 2 ^ 31 ->
  maxMessageLen s target
  = linelen s - 16 - GoString.len (nick s) - GoString.len (user s)
    - (if GoString.len (host s) =? 0 then 15 else GoString.len (host s))
    - GoString.len target.
Proof.
  intros Hl Hsum. unfold maxMessageLen, int_sub.
  change (GoString.len ":!@ PRIVMSG  :" + 2) with 16.
  change (GoString.len "255.255.255.255") with 15.
  pose proof (len_nonneg (nick s)). pose proof (len_nonneg (user s)).
  pose proof (len_nonneg (host s)). pose proof (len_nonneg target).
  assert (Hh : 0 <= (if GoString.len (host s) =? 0 then 15
                     else GoString.len (host s))
               <= GoString.len (host s) + 15)
    by (destruct (Z.eqb_spec (GoString.len (host s)) 0); lia).
  revert Hh.
  generalize (if GoString.len (host s) =? 0 then 15 else GoString.len (host s)).
  intros h Hh.
  assert (H63 : 2 ^ 63 = 9223372036854775808) by reflexivity.
  assert (H32 : 2 ^ 32 = 4294967296) by reflexivity.
  assert (H31 : 2 ^ 31 = 2147483648) by reflexivity.
  rewrite (int_wrap_small (linelen s - 16)) by lia.
  rewrite (int_wrap_small (linelen s - 16 - GoString.len (nick s))) by lia.
  rewrite (int_wrap_small (linelen s - 16 - GoString.len (nick s)
                           - GoString.len (user s))) by lia.
  rewrite (int_wrap_small (linelen s - 16 - GoString.len (nick s)
                           - GoString.len (user s) - h)) by lia.
  apply int_wrap_small. lia.
Qed.

(** X15: [PrivMsg] sends the content in chunks.  The length left for the
    content is computed as the code does, in 64 bits.  When it is
    positive and the content is ASCII, or when it is at least
    [utf8.UTFMax] and the content is valid UTF-8, [PrivMsg] returns: it
    has sent one PRIVMSG per chunk, in order, the chunks concatenate to
    the content and each is within the length; it has forgotten the
    typing stamp of the target, so that the next [Typing] for the target
    is sent whatever was sent before.  When the length is not positive
    the content goes out whole in one message, however long; when it is
    positive, an empty content sends nothing.  And whenever the split
    returns chunks, these are what is sent. *)
Theorem PrivMsg_sends_chunks (target content : string) (now : Time)
    (s : Session) :
  closed s = false ->
  (0 < maxMessageLen s target ->
   asciiOnly content = true
   \/ (utf8.UTFMax <= maxMessageLen s target
       /\ utf8.ValidString content = true) ->
   exists (chunks : list string) (s1 : Session),
     PrivMsg (S (String.length content)) target content s = Some (Done s1)
     /\ String.concat "" chunks = content
     /\ Forall (fun c => GoString.len c <= maxMessageLen s target) chunks
     /\ sentBetween s s1 (map (privmsg target) chunks)
     /\ typingStamps s1 = delete (casemap s target) (typingStamps s)
     /\ (HasCapability s "message-tags" = true ->
         exists s2,
           Typing target now s1 = Done s2
           /\ sentBetween s1 s2 [typingActive target]))
  /\ (maxMessageLen s target <= 0 ->
      forall fuel : nat,
      exists s1,
        PrivMsg fuel target content s = Some (Done s1)
        /\ sentBetween s s1 [privmsg target content]
        /\ typingStamps s1 = delete (casemap s target) (typingStamps s))
  /\ (0 < maxMessageLen s target ->
      forall fuel : nat, (0 < fuel)%nat ->
      exists s1,
        PrivMsg fuel target "" s = Some (Done s1) /\ sentBetween s s1 [])
  /\ (forall (fuel : nat) (chunks : list string),
        splitChunks fuel content (maxMessageLen s target) = Some (Done chunks) ->
        exists s1,
          PrivMsg fuel target content s = Some (Done s1)
          /\ sentBetween s s1 (map (privmsg target) chunks)).
Proof.
  intros Ho. split; [|split; [|split]].
  - intros Hpos Hcontent.
    destruct (splitChunks_within content _ Hpos Hcontent)
      as (chunks & Hsplit & Hcat & Hall).
    exists chunks. rewrite (PrivMsg_chunks _ _ _ _ _ Ho Hsplit).
    eexists. split; [reflexivity|]. split; [exact Hcat|].
    split; [exact Hall|]. split; [reflexivity|]. split; [reflexivity|].
    intros Hcap.
    apply Typing_fresh; [exact Hcap|exact Ho|]. cbn. apply lookup_delete_eq.
  - intros Hle fuel. rewrite (PrivMsg_chunks _ _ _ [content] _ Ho).
    + eexists. split; [reflexivity|]. split; reflexivity.
    + unfold splitChunks. rewrite (proj2 (Z.leb_le _ 0)) by exact Hle.
      reflexivity.
  - intros Hpos fuel Hfuel. rewrite (PrivMsg_chunks _ _ _ [] _ Ho).
    + eexists. split; reflexivity.
    + unfold splitChunks. rewrite (proj2 (Z.leb_gt _ 0)) by exact Hpos.
      destruct fuel as [|fuel]; [lia|]. cbn [splitChunks_loop].
      change (GoString.len "") with 0.
      rewrite (proj2 (Z.ltb_ge _ 0)) by lia. reflexivity.
  - intros fuel chunks Hsplit. rewrite (PrivMsg_chunks _ _ _ _ _ Ho Hsplit).
    eexists. split; reflexivity.
Qed.

End PrivMsg.

(** ** MODE: the membership symbols of a member *)

Lemma insertByRank_Permutation (symbols : string) (b : ascii) (l : list ascii) :
  Permutation (insertByRank symbols b l) (b :: l).
Proof.
  induction l as [|x l IH]; cbn; [reflexivity|].
  destruct (_ <? _); [reflexivity|].
  rewrite IH. apply perm_swap.
Qed.

Lemma insertByRank_sorted (symbols : string) (b : ascii) (l : list ascii) :
  sortedByRank symbols l -> sortedByRank symbols (insertByRank symbols b l).
Proof.
  unfold sortedByRank. induction l as [|x l IH]; intros Hs; cbn.
  - constructor; constructor.
  - apply StronglySorted_inv in Hs as [Hl Hx].
    destruct (Z.ltb_spec (GoString.IndexByte symbols b)
                         (GoString.IndexByte symbols x)) as [Hlt|Hge].
    + constructor; [constructor; assumption|].
      constructor; [lia|].
      rewrite List.Forall_forall in Hx. rewrite List.Forall_forall.
      intros y Hy. specialize (Hx y Hy). lia.
    + constructor; [apply IH; exact Hl|].
      rewrite List.Forall_forall in Hx. rewrite List.Forall_forall.
      intros y Hy.
      apply (Permutation_in _ (insertByRank_Permutation symbols b l)) in Hy.
      destruct Hy as [<-|Hy]; [lia|apply Hx; exact Hy].
Qed.

Lemma sortByRank_spec (symbols : string) (l : list ascii) :
  Permutation (sortByRank symbols l) l /\ sortedByRank symbols (sortByRank symbols l).
Proof.
  unfold sortByRank.
  assert (H : forall acc,
             sortedByRank symbols acc ->
             Permutation (foldl (fun acc b => insertByRank symbols b acc) acc l)
                         (acc ++ l)
             /\ sortedByRank symbols
                  (foldl (fun acc b => insertByRank symbols b acc) acc l)).
  { induction l as [|b l IH]; intros acc Hacc; cbn.
    - rewrite app_nil_r. split; [reflexivity|exact Hacc].
    - destruct (IH (insertByRank symbols b acc)) as [Hp Hs];
        [apply insertByRank_sorted; exact Hacc|].
      split; [|exact Hs]. rewrite Hp, insertByRank_Permutation.
      cbn. apply Permutation_middle. }
  apply (H []). constructor.
Qed.

Lemma IndexByte_from_split (s : string) (c : ascii) :
  forall i j : Z,
    GoString.IndexByte_from s c i = j -> 0 <= i -> 0 <= j ->
    exists l1 l2,
      list_ascii_of_string s = (l1 ++ c :: l2)%list
      /\ ~ In c l1
      /\ Z.of_nat (length l1) = j - i.
Proof.
  induction s as [|d s IH]; intros i j H Hi Hj; cbn in H; [lia|].
  destruct (Ascii.eqb_spec d c) as [->|Hne].
  - exists [], (list_ascii_of_string s). split; [reflexivity|].
    split; [intros []|]. cbn. lia.
  - destruct (IH (i + 1) j H) as (l1 & l2 & Hl & Hnot & Hlen); [lia|lia|].
    exists (d :: l1), l2. cbn. rewrite Hl. split; [reflexivity|].
    split; [intros [?|?]; [congruence|contradiction]|]. lia.
Qed.

Lemma IndexByte_from_absent (s : string) (c : ascii) (i : Z) :
  ~ In c (list_ascii_of_string s) -> GoString.IndexByte_from s c i = -1.
Proof.
  revert i. induction s as [|d s IH]; intros i Hnot; cbn; [reflexivity|].
  destruct (Ascii.eqb_spec d c) as [->|Hne]; [exfalso; apply Hnot; left; reflexivity|].
  apply IH. intros Hin. apply Hnot. right. exact Hin.
Qed.

Lemma IndexByte_from_present (s : string) (c : ascii) (i : Z) :
  In c (list_ascii_of_string s) -> i <= GoString.IndexByte_from s c i.
Proof.
  revert i. induction s as [|d s IH]; intros i Hin; cbn in *; [contradiction|].
  destruct (Ascii.eqb_spec d c) as [->|Hne]; [lia|].
  destruct Hin as [?|Hin]; [contradiction|].
  specialize (IH (i + 1) Hin). lia.
Qed.

Lemma removeAt_middle (l1 l2 : list ascii) (c : ascii) :
  removeAt (length l1) (l1 ++ c :: l2) = (l1 ++ l2)%list.
Proof.
  unfold removeAt. rewrite take_app_length. f_equal.
  induction l1 as [|a l1 IH]; [reflexivity|exact IH].
Qed.

Section Mode.

Context {C : Collaborators}.

(** X16: A prefix mode set or taken away.  Setting it appends its symbol to
    the membership of the member and sorts the symbols in the order of
    PREFIX, without looking whether the member holds the symbol already:
    the new membership is a sorted permutation of the old one and the
    symbol.  Taking it away removes the first occurrence of the symbol
    when the member holds it, and keeps the order of the others; when the
    member does not hold it, the membership becomes empty, whatever other
    symbols it held. *)
Theorem mode_change_membership (change : ModeChange)
    (members : gmap ptr string) (s : Session) (u : ptr) (old : string)
    (b : Z) :
  0 <= GoString.IndexByte (prefixModes s) (ModeChange_Mode change) ->
  users s !! Casemap s (ModeChange_Param change) = Some u ->
  members !! u = Some old ->
  GoString.index (prefixSymbols s)
    (GoString.IndexByte (prefixModes s) (ModeChange_Mode change)) = Done b ->
  exists new : list ascii,
    modeLoop [change] members s
    = Done (<[u := string_of_list_ascii new]> members)
    /\ (ModeChange_Enable change = true ->
        Permutation new (list_ascii_of_string old ++ [GoString.of_byte b])
        /\ sortedByRank (prefixSymbols s) new)
    /\ (ModeChange_Enable change = false ->
        In (GoString.of_byte b) (list_ascii_of_string old) ->
        exists l1 l2,
          list_ascii_of_string old = (l1 ++ GoString.of_byte b :: l2)%list
          /\ ~ In (GoString.of_byte b) l1
          /\ new = (l1 ++ l2)%list)
    /\ (ModeChange_Enable change = false ->
        ~ In (GoString.of_byte b) (list_ascii_of_string old) ->
        new = []).
Proof.
  intros Hi Hu Hold Hb. cbn [modeLoop].
  rewrite (proj2 (Z.ltb_ge _ 0)) by exact Hi.
  rewrite Hu, Hold, Hb. cbn [obind].
  set (sym := GoString.of_byte b).
  destruct (ModeChange_Enable change).
  - eexists. split; [reflexivity|].
    destruct (sortByRank_spec (prefixSymbols s)
                (list_ascii_of_string old ++ [sym])) as [Hp Hs].
    split; [auto|]. split; discriminate.
  - destruct (Z.leb_spec 0 (GoString.IndexByte old sym)) as [Hj|Hj].
    + eexists. split; [reflexivity|]. split; [discriminate|].
      split.
      * intros _ Hin. unfold GoString.IndexByte in *.
        destruct (IndexByte_from_split old sym 0 _ eq_refl)
          as (l1 & l2 & Hl & Hnot & Hlen); [lia|exact Hj|].
        exists l1, l2. split; [exact Hl|]. split; [exact Hnot|].
        rewrite Hl. rewrite Z.sub_0_r in Hlen. rewrite <- Hlen.
        rewrite Nat2Z.id. apply removeAt_middle.
      * intros _ Hnot. exfalso.
        unfold GoString.IndexByte in Hj.
        rewrite (IndexByte_from_absent old sym 0 Hnot) in Hj. lia.
    + exists []. split; [reflexivity|]. split; [discriminate|].
      split; [|reflexivity].
      intros _ Hin. exfalso. unfold GoString.IndexByte in Hj.
      pose proof (IndexByte_from_present old sym 0 Hin). lia.
Qed.

End Mode.

(** ** The roster across JOIN, PART, QUIT and NAMES *)

Section Roster2.

Context {C : Collaborators}.

Lemma quitLoop_chans (u : ptr) (n : string) (l : list (string * Channel)) :
  forall (chans chans' : list string) (s s' : Session),
    quitLoop u n l chans s = Done (s', chans') ->
    chans' = (chans
              ++ omap (fun kc =>
                         if bool_decide (is_Some (Members (snd kc) !! u))
                         then Some (Channel_Name (snd kc)) else None) l)%list.
Proof.
  induction l as [|[k c] l IH]; intros chans chans' s s'; cbn.
  - intros [= _ <-]. rewrite app_nil_r. reflexivity.
  - destruct (bool_decide _).
    + destruct (cleanUser _ _) as [s2|]; [|discriminate]. cbn. intros H.
      apply IH in H. rewrite H, <- app_assoc. reflexivity.
    + apply IH.
Qed.

(** X17: A QUIT takes the user out of every channel.  For a user of the
    roster, the handler marks the record as disconnected, removes the
    user from the member map of every joined channel and from no other
    map of members, and returns the names of the channels the user was
    in, under the name the record holds; afterwards the user shares no
    channel with the session. *)
Theorem quit_leaves_every_channel (msg : Message) (now : Time) (s : Session)
    (pfx : Prefix) (u : ptr) (rec : User) :
  switch (Command msg) = caseQUIT ->
  Prefix_of msg = Some pfx ->
  users s !! Casemap s (Prefix_Name pfx) = Some u ->
  mem s !! u = Some rec ->
  exists s' : Session,
    handleMessageRegistered msg false now s
    = Done (s', Some (UserQuitEvent (Prefix_Name (User_Name rec))
                        (channelsOf u s) (TimeOrNow msg now)), None)
    /\ (forall k, channels s' !! k = withoutMember u <$> channels s !! k)
    /\ ~ hasMembership u s'
    /\ mem s' = <[u := User_set_Disconnected true rec]> (mem s)
    /\ ChannelsSharedWith (Prefix_Name pfx) s' = Done [].
Proof.
  intros Hcase Hpfx Hu Hrec.
  assert (Hlt : (u < length (mem s))%nat) by (eapply lookup_lt_Some; eauto).
  set (s1 := store u (User_set_Disconnected true rec) s).
  destruct (quitLoop_valid u (Casemap s (Prefix_Name pfx))
              (map_to_list (channels s1)) [] s1)
    as (s' & chans & Hloop & Hmem).
  { subst s1. unfold store. cbn. rewrite length_insert. exact Hlt. }
  destruct (quitLoop_spec _ _ _ _ _ _ _ Hloop) as (Hcl & Hch & _).
  { apply NoDup_fst_map_to_list. }
  { intros k c. apply elem_of_map_to_list. }
  assert (Hch' : forall k, channels s' !! k = withoutMember u <$> channels s !! k).
  { intros k. rewrite Hch. subst s1. cbn.
    destruct (decide _) as [Hin|Hnin]; [reflexivity|].
    destruct (channels s !! k) as [c|] eqn:Hk; [|reflexivity].
    exfalso. apply Hnin. apply list_elem_of_fmap. exists (k, c).
    split; [reflexivity|]. apply elem_of_map_to_list. exact Hk. }
  assert (Hrec' : mem s' !! u = Some (User_set_Disconnected true rec)).
  { rewrite Hmem. subst s1. unfold store. cbn.
    apply list_lookup_insert_eq. exact Hlt. }
  exists s'. split; [|split; [exact Hch'|split; [|split]]].
  - unfold handleMessageRegistered. rewrite Hcase, Hpfx. cbv iota.
    rewrite Hu. unfold deref at 1. rewrite Hrec. cbn [obind].
    fold s1. rewrite Hloop. cbn [obind]. unfold deref. rewrite Hrec'.
    cbn [obind ret_event User_Name User_set_Disconnected].
    rewrite (quitLoop_chans _ _ _ _ _ _ _ Hloop). reflexivity.
  - intros (k & c & Hk & Hin). rewrite Hch' in Hk.
    destruct (channels s !! k) as [c0|]; [|discriminate].
    injection Hk as <-. cbn in Hin. rewrite lookup_delete_eq in Hin.
    destruct Hin; discriminate.
  - rewrite Hmem. reflexivity.
  - unfold ChannelsSharedWith, Casemap.
    rewrite (cleaned_casemap _ _ Hcl). subst s1. cbn [casemap store set_mem].
    destruct (users s' !! casemap s (Prefix_Name pfx)) as [p|] eqn:Hp;
      [|reflexivity].
    apply (cleaned_users _ _ Hcl) in Hp. cbn in Hp.
    unfold Casemap in Hu. rewrite Hu in Hp. injection Hp as <-.
    unfold deref. rewrite Hrec'. reflexivity.
Qed.

Lemma Channel_set_Members_same (c : Channel) (v : gmap ptr string) :
  Channel_set_Members (Members c) (Channel_set_Members v c) = c.
Proof. destruct c; reflexivity. Qed.

(** X18: A JOIN followed by a PART leaves the roster as it was.  When a user
    that the session does not know, that is not the user of the session
    and that is not monitored joins a joined channel and parts from it,
    the two handlers return the join and the part events, and the users
    map and the channels are afterwards what they were before. *)
Theorem join_then_part_restores (join part : Message) (t1 t2 : Time)
    (s : Session) (pfx : Prefix) (channel : string) (c : Channel) :
  sound s ->
  switch (Command join) = caseJOIN -> Prefix_of join = Some pfx ->
  Params join !! 0%nat = Some channel ->
  switch (Command part) = casePART -> Prefix_of part = Some pfx ->
  Params part !! 0%nat = Some channel ->
  IsMe s (Casemap s (Prefix_Name pfx)) = false ->
  channels s !! Casemap s channel = Some c ->
  users s !! Casemap s (Prefix_Name pfx) = None ->
  Casemap s (Prefix_Name pfx) ∉ monitors s ->
  exists s1 s2 : Session,
    handleMessageRegistered join false t1 s
    = Done (s1, Some (UserJoinEvent (Prefix_Name pfx) (Channel_Name c)
                        (TimeOrNow join t1)), None)
    /\ hasMembership (length (mem s)) s1
    /\ users s1 !! Casemap s (Prefix_Name pfx) = Some (length (mem s))
    /\ handleMessageRegistered part false t2 s1
       = Done (s2, Some (UserPartEvent (Prefix_Name pfx) (Channel_Name c)
                           (TimeOrNow part t2)), None)
    /\ users s2 = users s
    /\ channels s2 = channels s.
Proof.
  intros Hs Hcj Hpj Hparj Hcp Hpp Hparp Hme Hc Hu Hmon.
  destruct (ParseParams_lookup _ _ _ Hparj) as [Hppj Hparamj].
  destruct (ParseParams_lookup _ _ _ Hparp) as [Hppp Hparamp].
  set (p := length (mem s)).
  assert (Hfresh : forall k c0, channels s !! k = Some c0 -> Members c0 !! p = None).
  { intros k c0 Hk. destruct (Members c0 !! p) as [v|] eqn:E; [|reflexivity].
    exfalso. pose proof (proj1 (proj2 Hs) k c0 p Hk (ex_intro _ v E)) as Hlt.
    subst p. lia. }
  eexists _, _. split; [|split; [|split; [|split; [|split]]]].
  - unfold handleMessageRegistered. rewrite Hcj, Hpj, Hppj, Hparamj.
    cbv iota. rewrite Hme, Hc. unfold ensureUser. rewrite Hu. reflexivity.
  - exists (Casemap s channel), (Channel_set_Members (<[p := ""]> (Members c)) c).
    cbn. rewrite !lookup_insert_eq. eauto.
  - cbn. apply lookup_insert_eq.
  - unfold handleMessageRegistered. rewrite Hcp, Hpp, Hppp, Hparamp.
    cbv iota.
    change (IsMe _ (Casemap _ (Prefix_Name pfx)))
      with (IsMe s (Casemap s (Prefix_Name pfx))).
    rewrite Hme.
    cbn [channels users updateMembers set_channels set_users alloc Casemap
         casemap set_mem fst snd].
    rewrite !lookup_insert_eq.
    unfold cleanUser, deref.
    cbn [mem channels users updateMembers set_channels set_users set_mem
         Casemap casemap monitors Members Channel_set_Members set_typings].
    rewrite lookup_app_r by reflexivity. fold p. rewrite Nat.sub_diag.
    cbn [lookup list_lookup obind User_Name User_new Prefix_Name].
    rewrite bool_decide_eq_false_2 by exact Hmon.
    rewrite insert_insert_eq, delete_insert_eq.
    rewrite (delete_id (Members c)) by (eapply Hfresh; exact Hc).
    rewrite Channel_set_Members_same.
    rewrite (insert_id (channels s)) by exact Hc.
    destruct (inSomeChannel p (channels s)) eqn:Hin.
    { exfalso. apply inSomeChannel_true in Hin as (k & c0 & Hk & Hsome).
      pose proof (proj1 (proj2 Hs) k c0 _ Hk Hsome) as Hlt.
      subst p. lia. }
    unfold updateMembers.
    cbn [obind mem set_users set_typings set_channels set_mem].
    rewrite lookup_app_r by reflexivity. fold p. rewrite Nat.sub_diag.
    reflexivity.
  - cbn. rewrite delete_insert_eq. apply delete_id. exact Hu.
  - cbn. rewrite insert_insert_eq, Channel_set_Members_same.
    apply insert_id. exact Hc.
Qed.

Lemma ensureUser_spec (k : string) (name : Prefix) (s s1 : Session) (p : ptr) :
  ensureUser k name s = (p, s1) ->
  casemap s1 = casemap s /\ channels s1 = channels s
  /\ users s1 !! k = Some p
  /\ (forall k' p', users s !! k' = Some p' -> users s1 !! k' = Some p').
Proof.
  unfold ensureUser. destruct (users s !! k) as [q|] eqn:Hk.
  - intros [= <- <-]. auto.
  - intros [= <- <-]. cbn. repeat split.
    + apply lookup_insert_eq.
    + intros k' p' Hk'. rewrite lookup_insert_ne; [exact Hk'|].
      intros <-. rewrite Hk in Hk'. discriminate.
Qed.

Lemma namesLoop_spec (l : list Member) :
  forall (members members' : gmap ptr string) (s s' : Session),
    namesLoop l members s = (s', members') ->
    casemap s' = casemap s /\ channels s' = channels s
    /\ (forall k p, users s !! k = Some p -> users s' !! k = Some p)
    /\ (forall u, is_Some (members !! u) -> is_Some (members' !! u))
    /\ (forall name, name ∈ l ->
          exists p, users s' !! casemap s (Prefix_Name (Member_Name name)) = Some p
                    /\ is_Some (members' !! p)).
Proof.
  induction l as [|name l IH]; intros members members' s s'; cbn.
  - intros [= <- <-]. repeat split; auto. intros name H. inversion H.
  - destruct (ensureUser _ _ s) as [p s1] eqn:He.
    apply ensureUser_spec in He as (Hcm & Hch & Hp & Hkeep).
    intros H. apply IH in H as (Hcm' & Hch' & Hkeep' & Hmem' & Hall).
    split; [congruence|]. split; [congruence|].
    split; [auto|]. split.
    + intros u Hu. apply Hmem'.
      destruct (decide (p = u)) as [->|Hne].
      * rewrite lookup_insert_eq. eauto.
      * rewrite lookup_insert_ne by exact Hne. exact Hu.
    + intros name' Hin. apply elem_of_cons in Hin as [->|Hin].
      * exists p. split; [apply Hkeep'; exact Hp|].
        apply Hmem'. rewrite lookup_insert_eq. eauto.
      * rewrite <- Hcm. apply Hall. exact Hin.
Qed.

(** X19: A names reply only adds.  For a joined channel, the handler of
    RPL_NAMREPLY returns nothing and never fails; afterwards every
    listed name is a user of the roster and a member of the channel,
    every user and every member from before is still there, and the
    other channels are as they were. *)
Theorem names_reply_only_adds (msg : Message) (playback : bool) (now : Time)
    (s : Session) (c : Channel) :
  switch (Command msg) = caseNamreply ->
  ParseParams msg 4 = None ->
  channels s !! Casemap s (param msg 2) = Some c ->
  exists (s' : Session) (c' : Channel),
    handleMessageRegistered msg playback now s = Done (s', None, None)
    /\ channels s' !! Casemap s (param msg 2) = Some c'
    /\ Channel_Name c' = Channel_Name c
    /\ (forall name, name ∈ ParseNameReply (param msg 3) (prefixSymbols s) ->
          exists p, users s' !! Casemap s (Prefix_Name (Member_Name name)) = Some p
                    /\ is_Some (Members c' !! p))
    /\ (forall k p, users s !! k = Some p -> users s' !! k = Some p)
    /\ (forall u, is_Some (Members c !! u) -> is_Some (Members c' !! u))
    /\ (forall k, k <> Casemap s (param msg 2) -> channels s' !! k = channels s !! k).
Proof.
  intros Hcase Hpp Hc.
  destruct (namesLoop (ParseNameReply (param msg 3) (prefixSymbols s))
              (Members c) s) as [s1 members] eqn:Hloop.
  pose proof (namesLoop_spec _ _ _ _ _ Hloop) as (Hcm & Hch & Hkeep & Hmem & Hall).
  exists (updateMembers (Casemap s (param msg 2)) c members s1),
         (Channel_set_Members members c).
  split; [|split; [|split; [|split; [|split; [|split]]]]].
  - unfold handleMessageRegistered. rewrite Hcase, Hpp. cbv iota.
    rewrite Hc, Hloop. reflexivity.
  - cbn. apply lookup_insert_eq.
  - destruct c; reflexivity.
  - exact Hall.
  - exact Hkeep.
  - exact Hmem.
  - intros k Hk. cbn. rewrite lookup_insert_ne by congruence.
    rewrite Hch. reflexivity.
Qed.

End Roster2.

(** ** Capabilities, monitors and topics *)

Section Caps.

Context {C : Collaborators}.

Lemma capNew_spec (caps : list Cap) :
  forall s : Session,
    closed s = false ->
    exists s' : Session,
      capNew caps s = Done s'
      /\ out s' = (out s ++ map capReq (requestedOf caps s))%list
      /\ enabledCaps s' = enabledCaps s
      /\ closed s' = false
      /\ (forall c, c ∈ caps -> is_Some (availableCaps s' !! Cap_Name c))
      /\ (forall k, is_Some (availableCaps s !! k) -> is_Some (availableCaps s' !! k)).
Proof.
  induction caps as [|c caps IH]; intros s Ho.
  - exists s. cbn. rewrite app_nil_r. repeat split; auto.
    intros c Hc. inversion Hc.
  - cbn [capNew requestedOf List.filter].
    set (s1 := set_availableCaps _ s).
    assert (Hav : forall k, is_Some (availableCaps s !! k)
                            \/ k = Cap_Name c -> is_Some (availableCaps s1 !! k)).
    { intros k [Hk| ->]; subst s1; cbn.
      - destruct (decide (Cap_Name c = k)) as [->|Hne].
        + rewrite lookup_insert_eq. eauto.
        + rewrite lookup_insert_ne by exact Hne. exact Hk.
      - rewrite lookup_insert_eq. eauto. }
    change (enabledCaps s1) with (enabledCaps s).
    destruct (bool_decide (Cap_Name c ∈ SupportedCapabilities)); cbn [negb andb].
    2:{ destruct (IH s1 Ho) as (s' & H1 & H2 & H3 & H4 & H5 & H6).
        exists s'. split; [exact H1|]. split; [exact H2|]. split; [exact H3|].
        split; [exact H4|]. split.
        - intros c' Hc'. apply elem_of_cons in Hc' as [->|Hc']; auto.
        - auto. }
    destruct (bool_decide (Cap_Name c ∈ enabledCaps s)); cbn [negb].
    { destruct (IH s1 Ho) as (s' & H1 & H2 & H3 & H4 & H5 & H6).
      exists s'. split; [exact H1|]. split; [exact H2|]. split; [exact H3|].
      split; [exact H4|]. split.
      - intros c' Hc'. apply elem_of_cons in Hc' as [->|Hc']; auto.
      - auto. }
    rewrite send_open by exact Ho. cbn [obind].
    destruct (IH (set_out (out s1 ++ [capReq c])%list s1) Ho)
      as (s' & H1 & H2 & H3 & H4 & H5 & H6).
    exists s'. split; [exact H1|]. split.
    { rewrite H2. subst s1. cbn [out set_out set_availableCaps map].
      rewrite <- app_assoc. reflexivity. }
    split; [exact H3|]. split; [exact H4|]. split.
    + intros c' Hc'. apply elem_of_cons in Hc' as [->|Hc']; auto.
    + intros k Hk. apply H6. apply Hav. auto.
Qed.

Lemma capDel_out (caps : list Cap) :
  forall s : Session, out (capDel caps s) = out s.
Proof.
  induction caps as [|c caps IH]; intros s; [reflexivity|].
  cbn [capDel]. rewrite IH. reflexivity.
Qed.

Lemma capDel_spec (caps : list Cap) :
  forall s : Session,
    (forall name,
        (name ∈ enabledCaps (capDel caps s)
         <-> name ∈ enabledCaps s /\ name ∉ Cap_Name <$> caps)
        /\ availableCaps (capDel caps s) !! name
           = (if bool_decide (name ∈ Cap_Name <$> caps) then None
              else availableCaps s !! name)).
Proof.
  induction caps as [|c caps IH]; intros s name.
  - cbn. split.
    + split; [intros H; split; [exact H|apply not_elem_of_nil]|tauto].
    + rewrite bool_decide_eq_false_2 by apply not_elem_of_nil. reflexivity.
  - cbn [capDel]. destruct (IH
      (set_enabledCaps (enabledCaps s ∖ {[Cap_Name c]})
         (set_availableCaps (delete (Cap_Name c) (availableCaps s)) s)) name)
      as [He Ha].
    split.
    + rewrite He. cbn [enabledCaps set_enabledCaps set_availableCaps].
      rewrite fmap_cons, elem_of_difference, elem_of_singleton, not_elem_of_cons.
      tauto.
    + rewrite Ha. cbn [availableCaps set_enabledCaps set_availableCaps].
      rewrite fmap_cons.
      destruct (decide (name ∈ Cap_Name <$> caps)) as [Hin|Hnin].
      * rewrite (bool_decide_eq_true_2 _ Hin).
        rewrite bool_decide_eq_true_2 by (apply elem_of_cons; auto).
        reflexivity.
      * rewrite (bool_decide_eq_false_2 _ Hnin).
        destruct (decide (name = Cap_Name c)) as [->|Hne].
        -- rewrite bool_decide_eq_true_2 by (apply elem_of_cons; auto).
           apply lookup_delete_eq.
        -- rewrite bool_decide_eq_false_2
             by (apply not_elem_of_cons; auto).
           apply lookup_delete_ne. congruence.
Qed.

(** X20: CAP NEW requests and never enables.  On an open session the handler
    records every advertised capability as available and sends one
    CAP REQ, in the order of the list, for each advertised capability
    that the client supports and has not enabled; the set of enabled
    capabilities is unchanged. *)
Theorem cap_new_requests (msg : Message) (playback : bool) (now : Time) (s : Session) :
  switch (Command msg) = caseCAP ->
  ParseParams msg 3 = None ->
  param msg 1 = "NEW" ->
  closed s = false ->
  exists s' : Session,
    handleMessageRegistered msg playback now s = Done (s', None, None)
    /\ out s' = (out s ++ map capReq (requestedOf (ParseCaps (param msg 2)) s))%list
    /\ enabledCaps s' = enabledCaps s
    /\ (forall c, c ∈ ParseCaps (param msg 2) ->
                  is_Some (availableCaps s' !! Cap_Name c)).
Proof.
  intros Hcase Hpp Hsub Ho.
  destruct (capNew_spec (ParseCaps (param msg 2)) s Ho)
    as (s' & H1 & H2 & H3 & _ & H5 & _).
  exists s'. split; [|auto].
  unfold handleMessageRegistered. rewrite Hcase, Hpp, Hsub. cbn.
  rewrite H1. reflexivity.
Qed.

(** X21: CAP DEL withdraws exactly the listed capabilities.  After the
    handler, a capability is enabled if and only if it was enabled and is
    not listed, a listed capability is no longer available, and the
    availability of the others is unchanged; nothing is sent. *)
Theorem cap_del_withdraws (msg : Message) (playback : bool) (now : Time) (s : Session) :
  switch (Command msg) = caseCAP ->
  ParseParams msg 3 = None ->
  param msg 1 = "DEL" ->
  exists s' : Session,
    handleMessageRegistered msg playback now s = Done (s', None, None)
    /\ out s' = out s
    /\ (forall name,
           HasCapability s' name
           = HasCapability s name
             && negb (bool_decide (name ∈ Cap_Name <$> ParseCaps (param msg 2))))
    /\ (forall name,
           availableCaps s' !! name
           = if bool_decide (name ∈ Cap_Name <$> ParseCaps (param msg 2))
             then None else availableCaps s !! name).
Proof.
  intros Hcase Hpp Hsub.
  exists (capDel (ParseCaps (param msg 2)) s). split; [|split; [|split]].
  - unfold handleMessageRegistered. rewrite Hcase, Hpp, Hsub. reflexivity.
  - apply capDel_out.
  - intros name. unfold HasCapability.
    pose proof (proj1 (capDel_spec (ParseCaps (param msg 2)) s name)) as H.
    apply eq_true_iff_eq. rewrite andb_true_iff, negb_true_iff.
    rewrite !bool_decide_eq_true, bool_decide_eq_false. exact H.
  - intros name. apply capDel_spec.
Qed.

(** X22: Monitoring is idempotent and undone by its removal.  On an open
    session that does not monitor the target, MonitorAdd succeeds, a
    second MonitorAdd changes nothing and sends nothing, a following
    MonitorRemove restores the monitor set, and a second MonitorRemove
    again changes nothing; when the server supports MONITOR one
    MONITOR + and one MONITOR - have been sent, otherwise nothing. *)
Theorem monitor_add_remove (target : string) (s : Session) :
  closed s = false ->
  casemap s target ∉ monitors s ->
  exists s1 s2 : Session,
    MonitorAdd target s = Done s1
    /\ casemap s target ∈ monitors s1
    /\ MonitorAdd target s1 = Done s1
    /\ MonitorRemove target s1 = Done s2
    /\ monitors s2 = monitors s
    /\ MonitorRemove target s2 = Done s2
    /\ out s2 = (out s ++ if monitor s
                          then [NewMessage "MONITOR" ["+"; target];
                                NewMessage "MONITOR" ["-"; target]]
                          else [])%list.
Proof.
  intros Ho Hnin.
  assert (Hset : ({[casemap s target]} ∪ monitors s) ∖ {[casemap s target]}
                 = monitors s).
  { apply set_eq. intros x.
    rewrite elem_of_difference, elem_of_union, elem_of_singleton.
    split; [tauto|]. intros Hx. split; [auto|]. intros ->. auto. }
  assert (Hin : casemap s target ∈ {[casemap s target]} ∪ monitors s).
  { apply elem_of_union_l, elem_of_singleton. reflexivity. }
  unfold MonitorAdd, MonitorRemove.
  rewrite (bool_decide_eq_false_2 _ Hnin). cbn [monitor set_monitors].
  destruct (monitor s) eqn:Hm.
  - rewrite send_open by exact Ho.
    eexists _, _. split; [reflexivity|].
    cbn [casemap monitors set_out set_monitors monitor closed out].
    rewrite (bool_decide_eq_true_2 _ Hin).
    rewrite Hm, Hset. split; [exact Hin|]. split; [reflexivity|].
    unfold send. cbn [closed set_out set_monitors]. rewrite Ho.
    split; [reflexivity|].
    cbn [casemap monitors set_out set_monitors monitor closed out].
    rewrite (bool_decide_eq_false_2 _ Hnin).
    split; [reflexivity|]. split; [reflexivity|].
    rewrite <- app_assoc. reflexivity.
  - eexists _, _. split; [reflexivity|].
    cbn [casemap monitors set_out set_monitors monitor closed out].
    rewrite (bool_decide_eq_true_2 _ Hin).
    rewrite Hm, Hset. split; [exact Hin|]. split; [reflexivity|].
    split; [reflexivity|].
    cbn [casemap monitors set_out set_monitors monitor closed out].
    rewrite (bool_decide_eq_false_2 _ Hnin).
    split; [reflexivity|]. split; [reflexivity|].
    rewrite app_nil_r. reflexivity.
Qed.

(** X23: A topic change is read back.  A live TOPIC message for a joined
    channel returns the topic-change event under the name of the channel
    record; afterwards [Topic], asked under any spelling with the same
    casemapped name, returns the new topic, the sender and the time of
    the message, and answers for the other channels as before. *)
Theorem topic_change_is_read_back (msg : Message) (now : Time) (s : Session)
    (pfx : Prefix) (c : Channel) :
  switch (Command msg) = caseTOPIC ->
  Prefix_of msg = Some pfx ->
  ParseParams msg 2 = None ->
  channels s !! Casemap s (param msg 0) = Some c ->
  exists s' : Session,
    handleMessageRegistered msg false now s
    = Done (s', Some (TopicChangeEvent (Channel_Name c) (param msg 1)
                        (TimeOrNow msg now)), None)
    /\ (forall channel, Casemap s channel = Casemap s (param msg 0) ->
          Session_Topic channel s' = (param msg 1, Some pfx, TimeOrNow msg now))
    /\ (forall channel, Casemap s channel <> Casemap s (param msg 0) ->
          Session_Topic channel s' = Session_Topic channel s)
    /\ (forall k c', channels s' !! k = Some c' ->
          exists c0, channels s !! k = Some c0 /\ Members c' = Members c0).
Proof.
  intros Hcase Hpfx Hpp Hc.
  eexists. split; [|split; [|split]].
  - unfold handleMessageRegistered. rewrite Hcase, Hpfx, Hpp. cbv iota.
    rewrite Hc. destruct c; reflexivity.
  - intros channel Heq. unfold Session_Topic.
    change (Casemap _ channel) with (Casemap s channel). rewrite Heq.
    cbn. rewrite lookup_insert_eq. reflexivity.
  - intros channel Hne. unfold Session_Topic.
    change (Casemap _ channel) with (Casemap s channel).
    cbn. rewrite lookup_insert_ne by congruence. reflexivity.
  - intros k c'. cbn.
    destruct (decide (Casemap s (param msg 0) = k)) as [<-|Hne].
    + rewrite lookup_insert_eq. intros [= <-]. exists c. split; [exact Hc|].
      destruct c; reflexivity.
    + rewrite lookup_insert_ne by exact Hne. eauto.
Qed.

End Caps.

(** ** The theorems at sample inputs *)

Lemma sound_session : sound Reference.session.
Proof.
  split; [|split; [|reflexivity]].
  - intros k p H. cbn in H. rewrite lookup_empty in H. discriminate.
  - intros k c p H. cbn in H. rewrite lookup_empty in H. discriminate.
Qed.

Lemma sound_joined : sound Reference.joined.
Proof.
  split; [|split; [|reflexivity]].
  - intros k p H. cbn in H.
    apply lookup_insert_Some in H as [[_ <-]|[_ H]]; [cbn; lia|].
    apply lookup_singleton_Some in H as [_ <-]. cbn; lia.
  - intros k c p H [v Hv]. cbn in H.
    apply lookup_singleton_Some in H as [_ <-]. cbn in Hv.
    apply lookup_singleton_Some in Hv as [<- _]. cbn; lia.
Qed.

Lemma keyed_joined : rosterKeyed Reference.joined.
Proof.
  intros k p H. cbn in H.
  apply lookup_insert_Some in H as [[<- <-]|[_ H]].
  - eexists. split; reflexivity.
  - apply lookup_singleton_Some in H as [<- <-].
    eexists. split; reflexivity.
Qed.

Lemma error_closes_session_witness :
  exists s' : Session,
    handleMessageRegistered (Reference.msg "" "ERROR" ["bye"]) false 0
      Reference.session = Done (s', None, None)
    /\ closed s' = true
    /\ handleMessageRegistered (Reference.msg "" "PING" ["x"]) false 0 s' = Panic.
Proof.
  destruct (error_closes_session (Reference.msg "" "ERROR" ["bye"])
              (Reference.msg "" "PING" ["x"]) false 0 Reference.session
              eq_refl eq_refl (le_n 1))
    as (s' & H1 & H2 & _ & H4 & _).
  exists s'. auto.
Defined.

Lemma updateFeatures_panics_iff_witness :
  updateFeatures ["LINELEN=300"; "PREFIX"] Reference.session = Panic.
Proof.
  apply (proj1 (updateFeatures_panics_iff ["LINELEN=300"; "PREFIX"]
                  Reference.session)).
  apply Exists_cons_tl, Exists_cons_hd. repeat split; reflexivity.
Defined.

Lemma HandleMessage_keeps_sound_witness :
  exists (s' : Session) (ev : option Event) (err : option error),
    HandleMessage (Reference.msg "bob!b@example.org" "JOIN" ["#c"]) 0
      Reference.joined = Done (s', ev, err)
    /\ sound s'.
Proof.
  eexists _, _, _. split; [reflexivity|].
  eapply (proj2 (HandleMessage_keeps_sound Reference.params
                   (Reference.msg "bob!b@example.org" "JOIN" ["#c"]) 0
                   Reference.joined _ _ _)); [reflexivity|].
  exact sound_joined.
Defined.

Lemma handleMessageRegistered_panics_iff_witness :
  handleMessageRegistered
    (Reference.msg "" "352" ["me"; "#c"; "a"; "example.org"; "irc"; "alice"; ""; "0 A"])
    false 0 Reference.joined = Panic
  /\ exists s' ev err,
       handleMessageRegistered
         (Reference.msg "" "352" ["me"; "#c"; "a"; "example.org"; "irc"; "alice"; "H"; "0 A"])
         false 0 Reference.joined = Done (s', ev, err).
Proof.
  split.
  - apply (proj1 (handleMessageRegistered_panics_iff _ false 0
                    Reference.joined sound_joined eq_refl)).
    split; [cbn; lia|reflexivity].
  - apply (proj2 (handleMessageRegistered_panics_iff _ false 0
                    Reference.joined sound_joined eq_refl)).
    intros [_ H]. discriminate H.
Defined.

Lemma roster_stays_keyed_witness :
  exists (s' : Session) (ev : option Event),
    handleMessageRegistered (Reference.msg "bob!b@example.org" "JOIN" ["#c"])
      false 0 Reference.joined = Done (s', ev, None)
    /\ rosterKeyed s'.
Proof.
  eexists _, _. split; [reflexivity|].
  eapply (roster_stays_keyed (Reference.msg "bob!b@example.org" "JOIN" ["#c"])
            false 0 Reference.joined);
    [reflexivity|reflexivity|exact keyed_joined].
Defined.

Lemma session_knows_itself_witness :
  exists (s' : Session) (ev : option Event),
    handleMessageRegistered (Reference.msg "me!me@example.org" "NICK" ["Neo"])
      false 0 Reference.joined = Done (s', ev, None)
    /\ nick s' = "Neo" /\ IsMe s' "NEO" = true /\ selfKnown s'.
Proof.
  eexists _, _. split; [reflexivity|].
  pose proof (session_knows_itself
                (Reference.msg "me!me@example.org" "NICK" ["Neo"])
                false 0 Reference.joined _ _ _ eq_refl
                (or_intror (conj eq_refl eq_refl))) as [H _].
  split; [reflexivity|]. split; [reflexivity|]. exact H.
Defined.

(** A line of 512 bytes leaves room; a line length at the lower end of
    the 64 bits wraps around to a positive room, and an empty content
    sends nothing. *)
Lemma PrivMsg_sends_chunks_witness :
  (exists (chunks : list string) (s1 : Session),
     PrivMsg 6 "#c" "hello" Reference.session = Some (Done s1)
     /\ String.concat "" chunks = "hello"
     /\ sentBetween Reference.session s1 (map (privmsg "#c") chunks))
  /\ (exists s1 : Session,
        PrivMsg 1 "#c" "" (set_linelen (- 2 ^ 63) Reference.session)
        = Some (Done s1)
        /\ sentBetween (set_linelen (- 2 ^ 63) Reference.session) s1 []).
Proof.
  split.
  - destruct (proj1 (PrivMsg_sends_chunks "#c" "hello" 0 Reference.session
                       eq_refl) eq_refl (or_introl eq_refl))
      as (chunks & s1 & H1 & H2 & _ & H4 & _).
    exists chunks, s1. auto.
  - apply (proj1 (proj2 (proj2 (PrivMsg_sends_chunks "#c" "" 0
                                  (set_linelen (- 2 ^ 63) Reference.session)
                                  eq_refl)))); [reflexivity|lia].
Defined.

Lemma mode_change_membership_witness :
  exists new : list ascii,
    modeLoop [sample_op] {[ 1%nat := "" ]} Reference.joined
    = Done (<[1%nat := string_of_list_ascii new]> {[ 1%nat := "" ]})
    /\ sortedByRank "@+" new.
Proof.
  destruct (mode_change_membership sample_op {[ 1%nat := "" ]}
              Reference.joined 1%nat "" 64)
    as (new & H1 & H2 & _).
  - cbn. lia.
  - reflexivity.
  - reflexivity.
  - reflexivity.
  - exists new. split; [exact H1|]. exact (proj2 (H2 eq_refl)).
Defined.

Lemma quit_leaves_every_channel_witness :
  exists s' : Session,
    handleMessageRegistered (Reference.msg "alice!a@example.org" "QUIT" ["bye"])
      false 0 Reference.joined
    = Done (s', Some (UserQuitEvent "alice" (channelsOf 1%nat Reference.joined) 0),
            None)
    /\ ~ hasMembership 1%nat s'.
Proof.
  destruct (quit_leaves_every_channel
              (Reference.msg "alice!a@example.org" "QUIT" ["bye"]) 0
              Reference.joined sample_alice 1%nat (User_new sample_alice)
              eq_refl eq_refl eq_refl eq_refl)
    as (s' & H1 & _ & H3 & _).
  exists s'. split; [exact H1|exact H3].
Defined.

Lemma join_then_part_restores_witness :
  exists s1 s2 : Session,
    handleMessageRegistered (Reference.msg "bob!b@example.org" "JOIN" ["#c"])
      false 0 Reference.joined
    = Done (s1, Some (UserJoinEvent "bob" "#c" 0), None)
    /\ handleMessageRegistered (Reference.msg "bob!b@example.org" "PART" ["#c"])
         false 1 s1
       = Done (s2, Some (UserPartEvent "bob" "#c" 1), None)
    /\ users s2 = users Reference.joined
    /\ channels s2 = channels Reference.joined.
Proof.
  destruct (join_then_part_restores
              (Reference.msg "bob!b@example.org" "JOIN" ["#c"])
              (Reference.msg "bob!b@example.org" "PART" ["#c"]) 0 1
              Reference.joined sample_bob "#c"
              (Channel_set_Members {[ 1%nat := "" ]} (Channel_new "#c"))
              sound_joined eq_refl eq_refl eq_refl eq_refl eq_refl eq_refl
              eq_refl eq_refl eq_refl (not_elem_of_empty _))
    as (s1 & s2 & H1 & _ & _ & H4 & H5 & H6).
  exists s1, s2. auto.
Defined.

Lemma names_reply_only_adds_witness :
  exists (s' : Session) (p : ptr) (c' : Channel),
    handleMessageRegistered (Reference.msg "" "353" ["me"; "="; "#c"; "@bob alice"])
      false 0 Reference.joined = Done (s', None, None)
    /\ users s' !! "bob" = Some p
    /\ channels s' !! "#c" = Some c'
    /\ is_Some (Members c' !! p).
Proof.
  destruct (names_reply_only_adds
              (Reference.msg "" "353" ["me"; "="; "#c"; "@bob alice"]) false 0
              Reference.joined
              (Channel_set_Members {[ 1%nat := "" ]} (Channel_new "#c"))
              eq_refl eq_refl eq_refl)
    as (s' & c' & H1 & H2 & _ & H4 & _).
  destruct (H4 {| Member_PowerLevel := "@"; Member_Name :=
                    {| Prefix_Name := "bob"; Prefix_User := "";
                       Prefix_Host := "" |} |}) as (p & Hp & Hm).
  { apply elem_of_cons. left. reflexivity. }
  exists s', p, c'. auto.
Defined.

Lemma cap_new_requests_witness :
  exists s' : Session,
    handleMessageRegistered (Reference.msg "" "CAP" ["me"; "NEW"; "away-notify foo"])
      false 0 Reference.session = Done (s', None, None)
    /\ out s' = [NewMessage "CAP" ["REQ"; "away-notify"]].
Proof.
  destruct (cap_new_requests
              (Reference.msg "" "CAP" ["me"; "NEW"; "away-notify foo"]) false 0
              Reference.session eq_refl eq_refl eq_refl eq_refl)
    as (s' & H1 & H2 & _).
  exists s'. split; [exact H1|]. rewrite H2. reflexivity.
Defined.

Lemma cap_del_withdraws_witness :
  exists s' : Session,
    handleMessageRegistered (Reference.msg "" "CAP" ["me"; "DEL"; "away-notify"])
      false 0 Reference.session = Done (s', None, None)
    /\ HasCapability s' "away-notify" = false.
Proof.
  destruct (cap_del_withdraws
              (Reference.msg "" "CAP" ["me"; "DEL"; "away-notify"]) false 0
              Reference.session eq_refl eq_refl eq_refl)
    as (s' & H1 & _ & H3 & _).
  exists s'. split; [exact H1|]. rewrite H3. reflexivity.
Defined.

Lemma monitor_add_remove_witness :
  exists s1 s2 : Session,
    MonitorAdd "alice" Reference.session = Done s1
    /\ MonitorRemove "alice" s1 = Done s2
    /\ monitors s2 = monitors Reference.session.
Proof.
  destruct (monitor_add_remove "alice" Reference.session eq_refl
              (not_elem_of_empty _))
    as (s1 & s2 & H1 & _ & _ & H4 & H5 & _).
  exists s1, s2. auto.
Defined.

Lemma topic_change_is_read_back_witness :
  exists s' : Session,
    handleMessageRegistered
      (Reference.msg "alice!a@example.org" "TOPIC" ["#c"; "new topic"])
      false 0 Reference.joined
    = Done (s', Some (TopicChangeEvent "#c" "new topic" 0), None)
    /\ Session_Topic "#C" s' = ("new topic", Some sample_alice, 0).
Proof.
  destruct (topic_change_is_read_back
              (Reference.msg "alice!a@example.org" "TOPIC" ["#c"; "new topic"])
              0 Reference.joined sample_alice
              (Channel_set_Members {[ 1%nat := "" ]} (Channel_new "#c"))
              eq_refl eq_refl eq_refl eq_refl)
    as (s' & H1 & H2 & _).
  exists s'. split; [exact H1|]. apply H2. reflexivity.
Defined.
